(** * jobkroea-updater: the retry and adaptive-timeout layer

    A shallow embedding of [src/utils/adaptiveTimeout.ts], [src/utils/retry.ts],
    [src/notify.ts] and [JobKoreaService.waitForAnySelector], and around them
    of [escapeHtml] and [handleError] of [src/updateResume.ts], of the two
    navigation methods of the service, of [src/utils/logger.ts] and of
    [src/utils/validation.ts].

    Conventions.
    - A JavaScript [number] that only ever holds an integer (attempt counters,
      millisecond delays, HTTP status codes, [Date.now()]) is a [Z]; the
      statistics of the timeout estimator, which are quotients, are exact
      rationals [Q]. The comparisons the estimator makes ([successRate] against
      0.8 and 0.95, a quotient of integers up to the window size) fall the same
      way in binary64.
    - An [async] function is a state transformer that also yields the events
      it produced, in order ([Async]); what it awaits from the outside
      (the page, [fetch], the wrapped actions) is a parameter.
    - The [Logger] calls of the retriers, of the notifier and of the selector
      loop are recorded as events, one constructor per call site; the message
      texts are not rebuilt. They are given strings and Error instances, on
      which the logger cannot fail; the one call that is given a caught value
      unchecked, in [withBrowserRestart], is modelled with the TypeError the
      logger throws on a value it cannot read. The [Logger] calls of the
      estimator, which change no state, are left out.
    - A counted [for] loop runs over the list of the values of its counter. *)

From Stdlib Require Import ZArith QArith Qround Qminmax List String Ascii Bool Lia.
From Stdlib Require Import DecimalString.
Import ListNotations.

Local Open Scope string_scope.
Local Open Scope list_scope.
Local Open Scope Z_scope.

(** ** src/utils/adaptiveTimeout.ts *)

Module AdaptiveTimeout.

(** [interface TimeoutMetrics] *)
Record TimeoutMetrics := mkMetrics {
  averageResponseTime : Q;
  successRate : Q;
  lastMeasurements : list Q;
  measurementCount : Z
}.

(** [interface AdaptiveTimeoutConfig] *)
Record AdaptiveTimeoutConfig := mkConfig {
  baseTimeout : Z;
  minTimeout : Z;
  maxTimeout : Z;
  measurementWindow : Z;
  successThreshold : Q;
  failureMultiplier : Q;
  successMultiplier : Q
}.

(** [class AdaptiveTimeoutManager]: its two private fields. *)
Record AdaptiveTimeoutManager := mkManager {
  metrics : TimeoutMetrics;
  config : AdaptiveTimeoutConfig
}.

Definition initialMetrics : TimeoutMetrics :=
  {| averageResponseTime := 0;
     successRate := 1;
     lastMeasurements := [];
     measurementCount := 0 |}.

Definition defaultConfig : AdaptiveTimeoutConfig :=
  {| baseTimeout := 15000;
     minTimeout := 5000;
     maxTimeout := 30000;
     measurementWindow := 10;
     successThreshold := 8 # 10;
     failureMultiplier := 15 # 10;
     successMultiplier := 9 # 10 |}.

(** The field initialisers: the state of a fresh instance. No method ever
    assigns [config]. *)
Definition newManager : AdaptiveTimeoutManager :=
  {| metrics := initialMetrics; config := defaultConfig |}.

(** An instance in an arbitrary metrics state. *)
Definition managerWith (m : TimeoutMetrics) : AdaptiveTimeoutManager :=
  {| metrics := m; config := defaultConfig |}.

Definition Qltb (x y : Q) : bool := negb (Qle_bool y x).

(** [xs.reduce((sum, time) => sum + time, 0)] *)
Definition sumOf (xs : list Q) : Q := fold_left Qplus xs 0%Q.

(** [xs.length] as a number. *)
Definition len (xs : list Q) : Z := Z.of_nat (List.length xs).

(** [Array.prototype.shift]: drops the first element. *)
Definition shift (xs : list Q) : list Q := tl xs.

(** [Math.round]: the nearest integer, a tie going up. *)
Definition Math_round (x : Q) : Z := Qfloor (x + (1 # 2)).

(** [recordMeasurement(responseTime, success)] *)
Definition recordMeasurement (this : AdaptiveTimeoutManager)
    (responseTime : Q) (success : bool) : AdaptiveTimeoutManager :=
  let m := metrics this in
  let cfg := config this in
  let m1 :=
    if success then
      let pushed := lastMeasurements m ++ [responseTime] in
      let kept :=
        if len pushed >? measurementWindow cfg then shift pushed else pushed in
      {| averageResponseTime := (sumOf kept / inject_Z (len kept))%Q;
         successRate := successRate m;
         lastMeasurements := kept;
         measurementCount := measurementCount m |}
    else m in
  let count := measurementCount m1 + 1 in
  let recentWindow := Z.min (measurementWindow cfg) count in
  let successCount := len (lastMeasurements m1) in
  {| metrics :=
       {| averageResponseTime := averageResponseTime m1;
          successRate := (inject_Z successCount / inject_Z recentWindow)%Q;
          lastMeasurements := lastMeasurements m1;
          measurementCount := count |};
     config := cfg |}.

(** The [switch] on [operationType]; the [default] arm is kept, although the
    parameter type admits only the four literals. *)
Definition baseTimeoutFor (cfg : AdaptiveTimeoutConfig) (operationType : string) : Z :=
  if String.eqb operationType "navigation" then 20000
  else if String.eqb operationType "element" then 15000
  else if String.eqb operationType "popup" then 10000
  else if String.eqb operationType "network" then 8000
  else baseTimeout cfg.

(** [getAdaptiveTimeout(operationType)] *)
Definition getAdaptiveTimeout (this : AdaptiveTimeoutManager)
    (operationType : string) : Z :=
  let m := metrics this in
  let cfg := config this in
  let base := baseTimeoutFor cfg operationType in
  if measurementCount m <? 3 then base
  else
    let adaptiveTimeout := inject_Z base in
    let adaptiveTimeout :=
      if Qltb (successRate m) (successThreshold cfg)
      then (adaptiveTimeout * failureMultiplier cfg)%Q
      else if Qltb (95 # 100) (successRate m)
      then (adaptiveTimeout * successMultiplier cfg)%Q
      else adaptiveTimeout in
    let adaptiveTimeout :=
      if Qltb 0 (averageResponseTime m)
      then Qmax adaptiveTimeout (averageResponseTime m * (25 # 10))%Q
      else adaptiveTimeout in
    let adaptiveTimeout :=
      Qmax (inject_Z (minTimeout cfg))
           (Qmin (inject_Z (maxTimeout cfg)) adaptiveTimeout) in
    Math_round adaptiveTimeout.

(** [resetMetrics()] *)
Definition resetMetrics (this : AdaptiveTimeoutManager) : AdaptiveTimeoutManager :=
  {| metrics := initialMetrics; config := config this |}.

(** The operation categories, [type OperationType]. *)
Inductive OperationType := navigation | element | popup | network.

Definition typeName (c : OperationType) : string :=
  match c with
  | navigation => "navigation"
  | element => "element"
  | popup => "popup"
  | network => "network"
  end.

(** The per-category base timeouts as the specification lists them. *)
Definition categoryBase (c : OperationType) : Z :=
  match c with
  | navigation => 20000
  | element => 15000
  | popup => 10000
  | network => 8000
  end.

(** A run of [recordMeasurement] calls, oldest first. *)
Definition recordAll (this : AdaptiveTimeoutManager) (calls : list (Q * bool))
  : AdaptiveTimeoutManager :=
  fold_left (fun mgr c => recordMeasurement mgr (fst c) (snd c)) calls this.

End AdaptiveTimeout.

Import AdaptiveTimeout.

(** ** JavaScript values that the retry layer handles *)

Module Js.

(** An [Error] instance, by its [name] and [message]. The domain errors of
    [src/types] ([NavigationError], [UpdateError], ...) are instances too. *)
Record JsError := mkError { errorName : string; errorMessage : string }.

(** [new Error(message)] *)
Definition newError (message : string) : JsError :=
  {| errorName := "Error"; errorMessage := message |}.

(** Anything a promise can reject with: an [Error] instance, or another value,
    kept as the text [String(value)] gives. The other values come in three
    kinds, which differ in what reading them as an Error finds:
    - [VOther]: a truthy value without a [message] property (a non-empty
      string, a number other than 0 and NaN, [true], an array, a plain
      object);
    - [VFalsy]: [undefined], [null], [false], [0], [NaN] or the empty string;
    - [VMessage]: an object that is not an [Error] instance and yet has a
      string [message] (and no [stack], or a string one).
    An object whose [message] is not a string is left out. *)
Inductive JsValue :=
| VError (e : JsError)
| VOther (text : string)
| VFalsy (text : string)
| VMessage (text message : string).

(** [error instanceof Error ? error : new Error(String(error))] *)
Definition asError (error : JsValue) : JsError :=
  match error with
  | VError e => e
  | VOther text => newError text
  | VFalsy text => newError text
  | VMessage text _ => newError text
  end.

(** How a promise settles. *)
Inductive Settled (T : Type) :=
| Fulfilled (value : T)
| Rejected (reason : JsValue).

Arguments Fulfilled {T} value.
Arguments Rejected {T} reason.

Definition isFulfilled {T} (r : Settled T) : bool :=
  match r with Fulfilled _ => true | Rejected _ => false end.

(** A template-literal interpolation of an integer. *)
Definition showZ (z : Z) : string := NilZero.string_of_int (Z.to_int z).

(** [a || b] on an optional number: [undefined] and [0] are falsy. *)
Definition orElse (a : option Z) (b : Z) : Z :=
  match a with
  | Some x => if x =? 0 then b else x
  | None => b
  end.

End Js.

Import Js.

(** ** Asynchronous computations *)

Module Runtime.

(** [state] option of [page.waitForSelector]. *)
Inductive WaitState := visible | attached | detached | hidden.

(** What [fetch] is called with in [src/notify.ts]. *)
Record Request := mkRequest {
  url : string;
  chat_id : string;
  text : string;
  parse_mode : string
}.

(** Observable steps, in program order. The [Log...] constructors are the
    [Logger] call sites; the others are the awaited external calls. *)
Inductive Event :=
| CallFn (attempt : Z)
| CallRestart
| Sleep (ms : Z)
| LogTrying (operation : string) (attempt maxRetries : Z)
| LogRecovered (operation : string) (attempt : Z)
| LogFinalFailure (operation : string) (maxRetries : Z) (lastError : JsError)
| LogRetryAfter (operation : string) (attempt maxRetries delay : Z) (lastError : JsError)
| LogRestartThenRetry (operation : string) (attempt maxRetries : Z) (lastError : JsError)
| LogRestartFailed (restartError : JsValue)
| Fetch (request : Request)
| LogPermanent (error : JsError)
| LogTransient (error : JsError)
| LogSent
| WaitForSelector (selector : string) (state : WaitState) (timeout : Z)
| LogSelectorOk (selector : string)
| LogSelectorFailed (selector : string).

(** The process state an [async] function runs in: the outside world [env]
    (page, network, whatever the wrapped actions close over), the wall clock
    read by [Date.now()], and the singleton [AdaptiveTimeoutManager]. *)
Record State (E : Type) := mkState {
  env : E;
  clock : Z;
  manager : AdaptiveTimeoutManager
}.

Arguments mkState {E} env clock manager.
Arguments env {E} s.
Arguments clock {E} s.
Arguments manager {E} s.

(** An awaited computation: how it settles, the state it leaves, and the
    events it produced. It cannot read the events of its caller. *)
Definition Async (E A : Type) : Type := State E -> Settled A * State E * list Event.

Section Monad.
Context {E : Type}.

Definition ret {A} (a : A) : Async E A := fun s => (Fulfilled a, s, []).

(** [throw reason] *)
Definition throw {A} (reason : JsValue) : Async E A := fun s => (Rejected reason, s, []).

Definition bind {A B} (c : Async E A) (k : A -> Async E B) : Async E B :=
  fun s =>
    match c s with
    | (Fulfilled a, s1, evs1) =>
        let '(r, s2, evs2) := k a s1 in (r, s2, evs1 ++ evs2)
    | (Rejected reason, s1, evs1) => (Rejected reason, s1, evs1)
    end.

(** [try { await c } catch (error) { ... }]: hands the outcome to the
    continuation instead of propagating a rejection. *)
Definition try_ {A} (c : Async E A) : Async E (Settled A) :=
  fun s => let '(r, s1, evs) := c s in (Fulfilled r, s1, evs).

(** Resume with a settled outcome: return the value or rethrow the reason. *)
Definition settle {A} (r : Settled A) : Async E A :=
  match r with
  | Fulfilled a => ret a
  | Rejected reason => throw reason
  end.

Definition emit (ev : Event) : Async E unit := fun s => (Fulfilled tt, s, [ev]).

Definition when (b : bool) (c : Async E unit) : Async E unit :=
  if b then c else ret tt.

(** [Date.now()] *)
Definition Date_now : Async E Z := fun s => (Fulfilled (clock s), s, []).

(** [await new Promise(resolve => setTimeout(resolve, ms))] *)
Definition sleep (ms : Z) : Async E unit :=
  fun s => (Fulfilled tt, mkState (env s) (clock s + Z.max 0 ms) (manager s), [Sleep ms]).

(** [AdaptiveTimeoutManager.getInstance()] *)
Definition getInstance : Async E AdaptiveTimeoutManager :=
  fun s => (Fulfilled (manager s), s, []).

(** [timeoutManager.recordMeasurement(responseTime, success)] on the singleton. *)
Definition recordOnInstance (responseTime : Q) (success : bool) : Async E unit :=
  fun s =>
    (Fulfilled tt,
     mkState (env s) (clock s) (recordMeasurement (manager s) responseTime success),
     []).

End Monad.

Declare Scope async_scope.
Delimit Scope async_scope with async.
Notation "x <- c ;; k" := (bind c (fun x => k))
  (at level 61, c at next level, right associativity) : async_scope.
Notation "c ;; k" := (bind c (fun _ => k))
  (at level 61, right associativity) : async_scope.

Local Open Scope async_scope.

Section TimeoutMeasurement.
Context {E T : Type}.

(** [Promise.race([operation(), timeoutPromise])] with the timer armed for
    [ms] before the operation starts. The operation wins when it settles
    before [ms] have elapsed on the clock; otherwise the timer rejects first
    and the caller resumes [ms] after the start. The source lets an operation
    that lost the race run on; here its effects are already applied. *)
Definition race (operation : Async E T) (ms : Z) : Async E (Settled T) :=
  fun s =>
    let '(r, s1, evs) := operation s in
    if ms <=? clock s1 - clock s
    then (Fulfilled
            (Rejected (VError (newError ("Operation timeout after " ++ showZ ms ++ "ms")))),
          mkState (env s1) (clock s + Z.max 0 ms) (manager s1), evs)
    else (Fulfilled r, s1, evs).

(** [withTimeoutMeasurement(operation, operationType, timeoutMs?)] *)
Definition withTimeoutMeasurement (operation : Async E T)
    (operationType : string) (timeoutMs : option Z) : Async E T :=
  timeoutManager <- getInstance ;;
  let adaptiveTimeout :=
    orElse timeoutMs (getAdaptiveTimeout timeoutManager operationType) in
  startTime <- Date_now ;;
  outcome <- race operation adaptiveTimeout ;;
  let success := isFulfilled outcome in
  now <- Date_now ;;
  let responseTime := now - startTime in
  recordOnInstance (inject_Z responseTime) success ;;
  settle outcome.

End TimeoutMeasurement.

End Runtime.

Import Runtime.
Local Open Scope async_scope.

(** ** src/utils/retry.ts *)

Module Retry.

(** [configManager.getRetryConfig()]: the [retry] block of the configuration. *)
Record RetryConfig := mkRetryConfig {
  maxOperationRetries : Z;
  maxProcessRetries : Z;
  baseDelay : Z;
  maxDelay : Z;
  backoffMultiplier : Z
}.

(** [defaultConfig.retry] of [src/config/index.ts]. *)
Definition defaultRetryConfig : RetryConfig :=
  {| maxOperationRetries := 3;
     maxProcessRetries := 3;
     baseDelay := 2000;
     maxDelay := 10000;
     backoffMultiplier := 2 |}.

(** [interface RetryOptions]: every field optional. *)
Record RetryOptions := mkRetryOptions {
  optMaxRetries : option Z;
  optBaseDelay : option Z;
  optMaxDelay : option Z;
  optBackoffMultiplier : option Z;
  optOperation : option string
}.

(** [options = {}] *)
Definition noOptions : RetryOptions :=
  {| optMaxRetries := None; optBaseDelay := None; optMaxDelay := None;
     optBackoffMultiplier := None; optOperation := None |}.

(** A destructuring default: [field = fallback]. *)
Definition defaultTo {A} (field : option A) (fallback : A) : A :=
  match field with Some x => x | None => fallback end.

(** The values [attempt] takes in
    [for (let attempt = lo; attempt <= hi; attempt++)]. *)
Definition range (lo hi : Z) : list Z :=
  map (fun i => lo + Z.of_nat i) (seq 0 (Z.to_nat (hi - lo + 1))).

(** The default [operation] labels of the two retriers. *)
Definition defaultOperationLabel : string := "작업".
Definition defaultProcessLabel : string := "전체 프로세스".

(** [let lastError: Error = new Error("No attempts made")] *)
Definition noAttemptsMade : JsError := newError "No attempts made".

(** Whether [createLogEntry] of [src/utils/logger.ts] can read a value handed
    to [Logger.error] as its [error]. It runs
    [if (error) { ... maskSensitiveData(error.message) ... }], the two masking
    flags being [true] in [defaultConfig] and changed nowhere, and
    [maskSensitiveData] calls [replace] on its argument: a falsy value is
    skipped, a string [message] is masked, and a truthy value without a
    [message] makes the call throw. *)
Definition loggable (error : JsValue) : bool :=
  match error with
  | VError _ => true
  | VOther _ => false
  | VFalsy _ => true
  | VMessage _ _ => true
  end.

(** The TypeError of [undefined.replace(...)], with the text V8 gives it. *)
Definition cannotReadReplace : JsError :=
  {| errorName := "TypeError";
     errorMessage := "Cannot read properties of undefined (reading 'replace')" |}.

Section Retriers.
Context {E T : Type}.
Variable retryConfig : RetryConfig.

(** The loop of [withRetry], from the iteration whose counter is the head of
    [attempts]; falling out of the loop reaches the final [throw lastError]. *)
Fixpoint retryLoop (fn : Async E T) (maxRetries baseDelay maxDelay backoffMultiplier : Z)
    (operation : string) (attempts : list Z) (lastError : JsError) : Async E T :=
  match attempts with
  | [] => throw (VError lastError)
  | attempt :: later =>
      emit (LogTrying operation attempt maxRetries) ;;
      outcome <- try_ (emit (CallFn attempt) ;; fn) ;;
      match outcome with
      | Fulfilled result =>
          when (attempt >? 1) (emit (LogRecovered operation attempt)) ;;
          ret result
      | Rejected error =>
          let lastError := asError error in
          if attempt =? maxRetries then
            emit (LogFinalFailure operation maxRetries lastError) ;;
            throw (VError lastError)
          else
            let delay :=
              Z.min (baseDelay * backoffMultiplier ^ (attempt - 1)) maxDelay in
            emit (LogRetryAfter operation attempt maxRetries delay lastError) ;;
            sleep delay ;;
            retryLoop fn maxRetries baseDelay maxDelay backoffMultiplier
                      operation later lastError
      end
  end.

(** [withRetry(fn, options)] *)
Definition withRetry (fn : Async E T) (options : RetryOptions) : Async E T :=
  let maxRetries := defaultTo (optMaxRetries options) (maxOperationRetries retryConfig) in
  let baseDelay := defaultTo (optBaseDelay options) (baseDelay retryConfig) in
  let maxDelay := defaultTo (optMaxDelay options) (maxDelay retryConfig) in
  let backoffMultiplier :=
    defaultTo (optBackoffMultiplier options) (backoffMultiplier retryConfig) in
  let operation := defaultTo (optOperation options) defaultOperationLabel in
  retryLoop fn maxRetries baseDelay maxDelay backoffMultiplier operation
            (range 1 maxRetries) noAttemptsMade.

(** [Logger.error(message, error as Error)] for a caught value that was not
    checked to be an Error: the call site [site] is logged when the value is
    [loggable]; otherwise [createLogEntry] throws before anything is written,
    and the call site has no handler around it. *)
Definition Logger_error_unchecked (site : Event) (error : JsValue) : Async E unit :=
  if loggable error then emit site else throw (VError cannotReadReplace).

(** The loop of [withBrowserRestart]. The restart failure is logged from
    inside the [catch] block of the attempt, so that what the logger throws
    leaves the loop. *)
Fixpoint restartLoop (fn : Async E T) (browserRestartFn : Async E unit)
    (maxRetries : Z) (operation : string)
    (attempts : list Z) (lastError : JsError) : Async E T :=
  match attempts with
  | [] => throw (VError lastError)
  | attempt :: later =>
      emit (LogTrying operation attempt maxRetries) ;;
      outcome <- try_ (emit (CallFn attempt) ;; fn) ;;
      match outcome with
      | Fulfilled result =>
          when (attempt >? 1) (emit (LogRecovered operation attempt)) ;;
          ret result
      | Rejected error =>
          let lastError := asError error in
          if attempt =? maxRetries then
            emit (LogFinalFailure operation maxRetries lastError) ;;
            throw (VError lastError)
          else
            emit (LogRestartThenRetry operation attempt maxRetries lastError) ;;
            restarted <- try_ (emit CallRestart ;; browserRestartFn) ;;
            match restarted with
            | Fulfilled _ => ret tt
            | Rejected restartError =>
                Logger_error_unchecked (LogRestartFailed restartError) restartError
            end ;;
            sleep (baseDelay retryConfig) ;;
            restartLoop fn browserRestartFn maxRetries operation later lastError
      end
  end.

(** [withBrowserRestart(fn, browserRestartFn, options)] *)
Definition withBrowserRestart (fn : Async E T) (browserRestartFn : Async E unit)
    (options : RetryOptions) : Async E T :=
  let maxRetries := defaultTo (optMaxRetries options) (maxProcessRetries retryConfig) in
  let operation := defaultTo (optOperation options) defaultProcessLabel in
  restartLoop fn browserRestartFn maxRetries operation
              (range 1 maxRetries) noAttemptsMade.

End Retriers.

End Retry.

Import Retry.

(** ** src/notify.ts *)

Module Notify.

(** The parts of a [fetch] response that [sendTelegramMessage] reads:
    [status], [statusText], and how [text()] and [json()] settle. *)
Record Response := mkResponse {
  status : Z;
  statusText : string;
  bodyText : Settled string;
  bodyJson : Settled string
}.

(** [response.ok] *)
Definition ok (response : Response) : bool :=
  (200 <=? status response) && (status response <=? 299).

Section SendTelegramMessage.
Context {E : Type}.
Variable retryConfig : RetryConfig.

(** [fetch(url, init)], awaited: answered by the network. A rejection is a
    network failure. *)
Variable fetch : Request -> Async E Response.

(** The function handed to [withRetry]. *)
Definition sendOnce (token chatId message parseMode : string) : Async E string :=
  let request :=
    {| url := "https://api.telegram.org/bot" ++ token ++ "/sendMessage";
       chat_id := chatId; text := message; parse_mode := parseMode |} in
  response <- (emit (Fetch request) ;; fetch request) ;;
  if negb (ok response) then
    let errorBody :=
      match bodyText response with
      | Fulfilled body => body
      | Rejected _ => "Unknown error"
      end in
    let error :=
      newError ("Telegram API error: " ++ showZ (status response) ++ " "
                ++ statusText response ++ " - " ++ errorBody) in
    if (status response >=? 400) && (status response <? 500) then
      emit (LogPermanent error) ;;
      throw (VError error)
    else
      emit (LogTransient error) ;;
      throw (VError error)
  else
    result <- settle (bodyJson response) ;;
    emit LogSent ;;
    ret result.

(** [sendTelegramMessage(token, chatId, message, parseMode = "HTML")] *)
Definition sendTelegramMessage (token chatId message : string)
    (parseMode : option string) : Async E string :=
  let parseMode := defaultTo parseMode "HTML" in
  withRetry retryConfig (sendOnce token chatId message parseMode)
    {| optMaxRetries := Some (maxOperationRetries retryConfig);
       optBaseDelay := Some (baseDelay retryConfig);
       optMaxDelay := Some (maxDelay retryConfig);
       optBackoffMultiplier := Some (backoffMultiplier retryConfig);
       optOperation := Some "Telegram 메시지 전송" |}.

End SendTelegramMessage.

End Notify.

Import Notify.

(** ** src/services/jobkorea.ts: [waitForAnySelector] *)

Module JobKorea.

(** The [options] parameter of [waitForAnySelector]. *)
Record WaitOptions := mkWaitOptions {
  optState : option WaitState;
  optTimeout : option Z
}.

Section WaitForAnySelector.
Context {E : Type}.

(** [this.page.waitForSelector(selector, { state, timeout })], awaited:
    answered by the page; it takes clock time. *)
Variable page_waitForSelector : string -> WaitState -> Z -> Async E unit.

(** [new Error(`모든 셀렉터 실패: ${selectors.join(", ")}`)] *)
Definition allSelectorsFailed (selectors : list string) : JsError :=
  newError ("모든 셀렉터 실패: " ++ String.concat ", " selectors).

(** [for (const selector of selectors) { try ... catch ... }] followed by
    the final [throw], from the candidate at the head of [remaining].
    [Math.floor(adaptiveTimeout / selectors.length)] is the integer quotient;
    it is only evaluated inside the loop, where the list is not empty. *)
Fixpoint trySelectors (selectors : list string) (state : WaitState)
    (adaptiveTimeout : Z) (remaining : list string) : Async E string :=
  match remaining with
  | [] =>
      throw (VError (allSelectorsFailed selectors))
  | selector :: later =>
      let timeout := adaptiveTimeout / Z.of_nat (List.length selectors) in
      waited <- try_ (emit (WaitForSelector selector state timeout) ;;
                      page_waitForSelector selector state timeout) ;;
      match waited with
      | Fulfilled _ =>
          emit (LogSelectorOk selector) ;;
          ret selector
      | Rejected _ =>
          emit (LogSelectorFailed selector) ;;
          trySelectors selectors state adaptiveTimeout later
      end
  end.

(** [waitForAnySelector(selectors, options = {})] *)
Definition waitForAnySelector (selectors : list string) (options : WaitOptions)
  : Async E string :=
  let state := defaultTo (optState options) visible in
  timeoutManager <- getInstance ;;
  let adaptiveTimeout :=
    orElse (optTimeout options) (getAdaptiveTimeout timeoutManager "element") in
  withTimeoutMeasurement
    (trySelectors selectors state adaptiveTimeout selectors)
    "element" (Some adaptiveTimeout).

End WaitForAnySelector.

End JobKorea.

Import JobKorea.

(** * Vocabulary of the statements *)

Module Traces.

(** The three components of a finished run. *)
Definition outcomeOf {E A} (r : Settled A * State E * list Event) : Settled A :=
  fst (fst r).
Definition stateOf {E A} (r : Settled A * State E * list Event) : State E :=
  snd (fst r).
Definition eventsOf {E A} (r : Settled A * State E * list Event) : list Event :=
  snd r.

(** A run whose events are preceded by [evs]. *)
Definition prepend {E A} (evs : list Event) (r : Settled A * State E * list Event)
  : Settled A * State E * list Event :=
  let '(o, s, later) := r in (o, s, evs ++ later).

(** The state after [sleep ms]. *)
Definition slept {E} (ms : Z) (s : State E) : State E :=
  mkState (env s) (clock s + Z.max 0 ms) (manager s).

(** The delay [withRetry] computes after a failed attempt. *)
Definition backoff (baseDelay backoffMultiplier maxDelay attempt : Z) : Z :=
  Z.min (baseDelay * backoffMultiplier ^ (attempt - 1)) maxDelay.

(** The state [withTimeoutMeasurement] leaves when the operation, started in
    [s], settled in [s1] before the timer: [s1] with one more measurement. *)
Definition measured {E} (s s1 : State E) (success : bool) : State E :=
  mkState (env s1) (clock s1)
          (recordMeasurement (manager s1) (inject_Z (clock s1 - clock s)) success).

(** The last [n] elements of a list. *)
Definition lastN {A} (n : nat) (xs : list A) : list A :=
  skipn (List.length xs - n) xs.

(** The response times of the successful calls of a run, oldest first. *)
Definition successfulDurations (calls : list (Q * bool)) : list Q :=
  map fst (filter snd calls).

(** Where the outcome of a retrier comes from: a fulfilment or a rejection of
    the wrapped function, or the error the loop was entered with. *)
Definition fromWorkflow {E T} (fn : Async E T) (lastError : JsError)
    (outcome : Settled T) : Prop :=
  match outcome with
  | Fulfilled result => exists s0 s1 evs, fn s0 = (Fulfilled result, s1, evs)
  | Rejected reason =>
      reason = VError lastError \/
      exists s0 error s1 evs,
        fn s0 = (Rejected error, s1, evs) /\ reason = VError (asError error)
  end.

(** Each candidate of the list is waited for in turn, in list order, and
    every wait rejects; the state reached and the events produced. *)
Inductive AllRejected {E} (page_waitForSelector : string -> WaitState -> Z -> Async E unit)
    (state : WaitState) (timeout : Z)
  : list string -> State E -> State E -> list Event -> Prop :=
| AllRejected_nil s : AllRejected page_waitForSelector state timeout [] s s []
| AllRejected_cons selector later s reason s1 evs1 s2 evs2 :
    page_waitForSelector selector state timeout s = (Rejected reason, s1, evs1) ->
    AllRejected page_waitForSelector state timeout later s1 s2 evs2 ->
    AllRejected page_waitForSelector state timeout (selector :: later) s s2
      ([WaitForSelector selector state timeout] ++ evs1 ++
       [LogSelectorFailed selector] ++ evs2).

(** The [fetch] calls and the delays among the events of a run. *)
Definition fetchCount (evs : list Event) : nat :=
  List.length (filter (fun ev => match ev with Fetch _ => true | _ => false end) evs).

Definition callCount (evs : list Event) : nat :=
  List.length (filter (fun ev => match ev with CallFn _ => true | _ => false end) evs).

Fixpoint sleepsOf (evs : list Event) : list Z :=
  match evs with
  | [] => []
  | Sleep ms :: later => ms :: sleepsOf later
  | _ :: later => sleepsOf later
  end.

End Traces.

Import Traces.

(** * Scenarios *)

Module Scenarios.

(** A fresh process: clock at zero, estimator in its initial state. *)
Definition freshState {E} (e : E) : State E := mkState e 0 newManager.

(** The policy [maxRetries=3, baseDelay=2000, backoffMultiplier=2,
    maxDelay=10000]. *)
Definition policy3 (operation : option string) : RetryOptions :=
  {| optMaxRetries := Some 3; optBaseDelay := Some 2000; optMaxDelay := Some 10000;
     optBackoffMultiplier := Some 2; optOperation := operation |}.

(** An action that rejects with [reason] at every call and does nothing else. *)
Definition alwaysRejects {E T} (reason : JsValue) : Async E T := throw reason.


(** A page on which exactly the selectors of [present] can be found: a wait
    for one of them is fulfilled after 10 ms, any other wait rejects with a
    TimeoutError one millisecond after its timeout. *)
Definition pageShowing (present : list string)
  : string -> WaitState -> Z -> Async unit unit :=
  fun selector state timeout s =>
    if existsb (String.eqb selector) present
    then (Fulfilled tt, mkState (env s) (clock s + 10) (manager s), [])
    else (Rejected (VError (mkError "TimeoutError" "page.waitForSelector: Timeout exceeded")),
          mkState (env s) (clock s + timeout + 1) (manager s), []).

(** A network that answers the successive [fetch] calls with the responses
    of the list, and fails once the list is used up. *)
Definition scriptedFetch : Request -> Async (list Response) Response :=
  fun request s =>
    match env s with
    | [] => (Rejected (VError (mkError "TypeError" "fetch failed")), s, [])
    | response :: later =>
        (Fulfilled response, mkState later (clock s) (manager s), [])
    end.

(** HTTP 400 from the Telegram API. *)
Definition badRequest : Response :=
  {| status := 400; statusText := "Bad Request";
     bodyText := Fulfilled "chat not found";
     bodyJson := Fulfilled "chat not found" |}.

Definition badRequestError : JsError :=
  newError "Telegram API error: 400 Bad Request - chat not found".

End Scenarios.

Import Scenarios.

(** * Further vocabulary: counting and provenance *)

Module Counting.

(** The waits started on the page among the events of a run, in order. *)
Fixpoint waitsOf (evs : list Event) : list (string * WaitState * Z) :=
  match evs with
  | [] => []
  | WaitForSelector selector state timeout :: later =>
      (selector, state, timeout) :: waitsOf later
  | _ :: later => waitsOf later
  end.

(** An outcome that stems from the wrapped function itself. *)
Definition fromAction {E T} (fn : Async E T) (outcome : Settled T) : Prop :=
  match outcome with
  | Fulfilled result => exists s0 s1 evs, fn s0 = (Fulfilled result, s1, evs)
  | Rejected reason =>
      exists s0 error s1 evs,
        fn s0 = (Rejected error, s1, evs) /\ reason = VError (asError error)
  end.

(** The policy [withRetry] resolves from its options and the configuration. *)
Definition resolvedMaxRetries (cfg : RetryConfig) (options : RetryOptions) : Z :=
  defaultTo (optMaxRetries options) (maxOperationRetries cfg).

Definition resolvedBackoff (cfg : RetryConfig) (options : RetryOptions) (attempt : Z) : Z :=
  backoff (defaultTo (optBaseDelay options) (baseDelay cfg))
          (defaultTo (optBackoffMultiplier options) (backoffMultiplier cfg))
          (defaultTo (optMaxDelay options) (maxDelay cfg)) attempt.

(** A rejected call, by the events it produced and its reason; [rejectionOf]
    says that some call of the function went that way. *)
Definition RejectedCall : Type := list Event * JsValue.

Definition rejectionOf {E T} (fn : Async E T) (call : RejectedCall) : Prop :=
  exists s0 s1, fn s0 = (Rejected (snd call), s1, fst call).

(** A settled call of the restart callback, by its events and its outcome. *)
Definition RestartCall : Type := list Event * Settled unit.

Definition restartOf {E} (browserRestartFn : Async E unit) (call : RestartCall) : Prop :=
  exists s0 s1, browserRestartFn s0 = (snd call, s1, fst call).

(** The restart failures the loop survives: fulfilled, or rejected with a
    value the logger can read. *)
Definition survivable (call : RestartCall) : bool :=
  match snd call with
  | Fulfilled _ => true
  | Rejected restartError => loggable restartError
  end.

(** What the last attempt of either retrier leaves in the trace when its call
    is rejected. *)
Definition finalAttempt (operation : string) (maxRetries : Z) (call : RejectedCall)
  : list Event :=
  [LogTrying operation maxRetries maxRetries; CallFn maxRetries] ++ fst call ++
  [LogFinalFailure operation maxRetries (asError (snd call))].

(** What an earlier attempt of [withRetry] leaves in the trace when its call
    is rejected: the call, the retry message and the sleep. *)
Definition retriedAttempt (operation : string) (maxRetries : Z) (delay : Z -> Z)
    (numbered : Z * RejectedCall) : list Event :=
  let attempt := fst numbered in
  let call := snd numbered in
  [LogTrying operation attempt maxRetries; CallFn attempt] ++ fst call ++
  [LogRetryAfter operation attempt maxRetries (delay attempt) (asError (snd call));
   Sleep (delay attempt)].

(** What an earlier attempt of [withBrowserRestart] leaves in the trace when
    its call is rejected: the call, the restart message, the restart, the
    message about its failure if it has one, and the sleep. *)
Definition restartedAttempt (operation : string) (maxRetries baseDelay : Z)
    (numbered : Z * (RejectedCall * RestartCall)) : list Event :=
  let attempt := fst numbered in
  let call := fst (snd numbered) in
  let restart := snd (snd numbered) in
  [LogTrying operation attempt maxRetries; CallFn attempt] ++ fst call ++
  [LogRestartThenRetry operation attempt maxRetries (asError (snd call)); CallRestart] ++
  fst restart ++
  match snd restart with
  | Fulfilled _ => []
  | Rejected restartError => [LogRestartFailed restartError]
  end ++
  [Sleep baseDelay].

(** An action that rejects at its first call and is fulfilled with 7 at every
    later one; its environment counts the calls. *)
Definition failsOnce : Async nat Z :=
  fun s =>
    match env s with
    | O => (Rejected (VError (newError "net::ERR_TIMED_OUT")),
            mkState 1%nat (clock s) (manager s), [])
    | S n => (Fulfilled 7, mkState (S (S n)) (clock s) (manager s), [])
    end.

End Counting.

Import Counting.

Module MoreScenarios.

(** HTTP 200 from the Telegram API. *)
Definition sentResponse : Response :=
  {| status := 200; statusText := "OK";
     bodyText := Fulfilled "ok";
     bodyJson := Fulfilled "ok" |}.

(** HTTP 502 from a gateway in front of the Telegram API. *)
Definition badGateway : Response :=
  {| status := 502; statusText := "Bad Gateway";
     bodyText := Rejected (VOther "aborted");
     bodyJson := Rejected (VOther "aborted") |}.

(** A network on which the Telegram API answers every request with HTTP 400. *)
Definition alwaysBadRequest : Request -> Async unit Response :=
  fun _ s => (Fulfilled badRequest, s, []).

(** The workflow of [src/updateResume.ts] in outline: a step that is retried
    by [withRetry] and never succeeds. *)
Definition stuckWorkflow : Async unit unit :=
  withRetry defaultRetryConfig
    (alwaysRejects (VError (mkError "TimeoutError" "page.goto: Timeout exceeded")))
    noOptions.

(** A restart callback that takes a second and then rejects with an Error. *)
Definition failingRestart : Async unit unit :=
  sleep 1000 ;; throw (VError (newError "browser has been closed")).

End MoreScenarios.

Import MoreScenarios.

(** ** src/updateResume.ts: [escapeHtml] and [handleError]

    Strings are their UTF-8 bytes; the three characters [escapeHtml] looks
    for are single bytes that occur in no other character. *)

Module UpdateResume.

(** [text.replace(/c/g, by)] for a pattern that is one literal character. *)
Fixpoint replaceAll (c : ascii) (by_ : string) (text : string) : string :=
  match text with
  | EmptyString => EmptyString
  | String a rest =>
      if Ascii.eqb a c then (by_ ++ replaceAll c by_ rest)%string
      else String a (replaceAll c by_ rest)
  end.

(** [escapeHtml(text)] *)
Definition escapeHtml (text : string) : string :=
  replaceAll ">" "&gt;" (replaceAll "<" "&lt;" (replaceAll "&" "&amp;" text)).

(** The values of [ERROR_CODES], [type ErrorCode]. *)
Inductive ErrorCode :=
| AUTH_ERROR | NAVIGATION_ERROR | UPDATE_ERROR | TIMEOUT_ERROR | NETWORK_ERROR
| VALIDATION_ERROR.

Definition codeText (code : ErrorCode) : string :=
  match code with
  | AUTH_ERROR => "AUTH_ERROR"
  | NAVIGATION_ERROR => "NAVIGATION_ERROR"
  | UPDATE_ERROR => "UPDATE_ERROR"
  | TIMEOUT_ERROR => "TIMEOUT_ERROR"
  | NETWORK_ERROR => "NETWORK_ERROR"
  | VALIDATION_ERROR => "VALIDATION_ERROR"
  end.

(** What [handleError] can be handed: a [JobKoreaError] (or a subclass) with
    its message and code, another [Error] with its message, or a value that
    is no [Error]. *)
Inductive Caught :=
| CaughtJobKoreaError (message : string) (code : ErrorCode)
| CaughtError (message : string)
| CaughtOther.

(** The line feed of a template literal. *)
Definition LF : string := String (ascii_of_nat 10) EmptyString.

(** The text [handleError] builds: [errorMessage]. *)
Definition errorMessageOf (error : Caught) (retryCount : Z) : string :=
  let retryInfo :=
    if retryCount >? 0
    then (LF ++ "재시도 횟수: " ++ showZ retryCount ++ "번 (모든 재시도 실패)")%string
    else ""%string in
  let rawMessage :=
    match error with
    | CaughtJobKoreaError message _ => message
    | CaughtError message => message
    | CaughtOther => "알 수 없는 오류"
    end in
  let safeMessage := escapeHtml rawMessage in
  match error with
  | CaughtJobKoreaError _ code =>
      ("❌ 이력서 업데이트 최종 실패!" ++ LF ++ "이유: " ++ safeMessage
         ++ " (" ++ codeText code ++ ")" ++ retryInfo)%string
  | _ =>
      ("❌ 이력서 업데이트 최종 실패!" ++ LF ++ "이유: " ++ safeMessage
         ++ retryInfo)%string
  end.

Section HandleError.
Context {E : Type}.
Variable retryConfig : RetryConfig.
Variable fetch : Request -> Async E Response.

(** [handleError(error, token, chatId, retryCount)]; its two [Logger] calls
    are not recorded. *)
Definition handleError (error : Caught) (token chatId : string) (retryCount : Z)
  : Async E unit :=
  (sendTelegramMessage retryConfig fetch token chatId
     (errorMessageOf error retryCount) None ;;
   ret tt)%async.

End HandleError.

(** The one-pass reading of [escapeHtml]: each character on its own. *)
Definition escapeChar (a : ascii) : string :=
  if Ascii.eqb a "&" then "&amp;"
  else if Ascii.eqb a "<" then "&lt;"
  else if Ascii.eqb a ">" then "&gt;"
  else String a EmptyString.

Fixpoint escapeEach (text : string) : string :=
  match text with
  | EmptyString => EmptyString
  | String a rest => (escapeChar a ++ escapeEach rest)%string
  end.

(** Whether the character occurs in the text. *)
Fixpoint occurs (c : ascii) (text : string) : bool :=
  match text with
  | EmptyString => false
  | String a rest => Ascii.eqb a c || occurs c rest
  end.

(** The texts of the requests sent, in order. *)
Fixpoint fetchesOf (evs : list Event) : list Request :=
  match evs with
  | [] => []
  | Fetch request :: later => request :: fetchesOf later
  | _ :: later => fetchesOf later
  end.

End UpdateResume.
Import UpdateResume.

(** ** src/services/jobkorea.ts: the two navigation methods *)

Module Navigation.

(** [new NavigationError(message)]: an Error whose [name] is NavigationError
    (its code, timestamp and context are not kept). *)
Definition NavigationError (message : string) : JsError :=
  {| errorName := "NavigationError"; errorMessage := message |}.

(** [waitUntil] option of [page.goto]. *)
Inductive WaitUntil := domcontentloaded | networkidle.

Section Methods.
Context {E : Type}.
Variable retryConfig : RetryConfig.

(** [configManager.getUrls()] and [getSelectors().login.idInput]. *)
Variables (urls_login urls_mypage : string) (selectors_login_idInput : list string).

(** [this.page.goto(url, { waitUntil, timeout })] and
    [this.page.waitForSelector], awaited: answered by the page. *)
Variable page_goto : string -> WaitUntil -> option Z -> Async E unit.
Variable page_waitForSelector : string -> WaitState -> Z -> Async E unit.

(** [promise.catch(handler)] *)
Definition catch_ {A} (promise : Async E A) (handler : JsValue -> Async E A) : Async E A :=
  settled <- try_ promise ;;
  match settled with
  | Fulfilled value => ret value
  | Rejected error => handler error
  end.

(** [navigateToMypage()]; the [Logger.success] call is not recorded. *)
Definition navigateToMypage : Async E unit :=
  catch_
    (withRetry retryConfig
       (page_goto urls_mypage networkidle None)
       {| optMaxRetries := Some (maxOperationRetries retryConfig);
          optBaseDelay := None; optMaxDelay := None; optBackoffMultiplier := None;
          optOperation := Some "마이페이지 이동" |})
    (fun error => throw (VError (NavigationError "마이페이지 이동 실패"))).

(** [navigateToLoginPage()]; the [Logger.success] call is not recorded. *)
Definition navigateToLoginPage : Async E unit :=
  catch_
    (withRetry retryConfig
       (withTimeoutMeasurement
          (timeoutManager <- getInstance ;;
           page_goto urls_login domcontentloaded
                     (Some (getAdaptiveTimeout timeoutManager "navigation")) ;;
           waitForAnySelector page_waitForSelector selectors_login_idInput
                              {| optState := Some visible; optTimeout := None |} ;;
           ret tt)
          "navigation" None)
       {| optMaxRetries := Some (maxOperationRetries retryConfig);
          optBaseDelay := None; optMaxDelay := None; optBackoffMultiplier := None;
          optOperation := Some "로그인 페이지 이동" |})
    (fun error =>
       throw (VError (NavigationError
         ("로그인 페이지로 이동하는데 실패했습니다. ("
          ++ showZ (maxOperationRetries retryConfig) ++ "번 재시도)")))).

End Methods.

End Navigation.
Import Navigation.

(** ** src/utils/logger.ts

    The masking regular expressions and the console are outside the model:
    the former is a parameter, of the latter the line handed to it is kept. *)

Module Logging.

(** [type LogLevel] *)
Inductive LogLevel := LevelError | LevelWarn | LevelInfo | LevelDebug.

Definition levelName (level : LogLevel) : string :=
  match level with
  | LevelError => "error" | LevelWarn => "warn"
  | LevelInfo => "info" | LevelDebug => "debug"
  end.

Definition levelEqb (a b : LogLevel) : bool :=
  match a, b with
  | LevelError, LevelError | LevelWarn, LevelWarn
  | LevelInfo, LevelInfo | LevelDebug, LevelDebug => true
  | _, _ => false
  end.

(** [levels.indexOf(level)] for [levels = ['error', 'warn', 'info', 'debug']] *)
Definition levelIndex (level : LogLevel) : Z :=
  match level with
  | LevelError => 0 | LevelWarn => 1 | LevelInfo => 2 | LevelDebug => 3
  end.

Definition codeEqb (a b : ErrorCode) : bool :=
  match a, b with
  | AUTH_ERROR, AUTH_ERROR | NAVIGATION_ERROR, NAVIGATION_ERROR
  | UPDATE_ERROR, UPDATE_ERROR | TIMEOUT_ERROR, TIMEOUT_ERROR
  | NETWORK_ERROR, NETWORK_ERROR | VALIDATION_ERROR, VALIDATION_ERROR => true
  | _, _ => false
  end.

(** [level.toUpperCase()] *)
Definition levelUpper (level : LogLevel) : string :=
  match level with
  | LevelError => "ERROR" | LevelWarn => "WARN"
  | LevelInfo => "INFO" | LevelDebug => "DEBUG"
  end.

Definition levelEmoji (level : LogLevel) : string :=
  match level with
  | LevelError => "❌" | LevelWarn => "⚠️"
  | LevelInfo => "ℹ️" | LevelDebug => "🔍"
  end.

(** The [logging] and [security] blocks of the configuration, as far as the
    logger reads them. *)
Record LoggingConfig := mkLoggingConfig {
  enableSensitiveDataMasking : bool;
  logLevel : LogLevel;
  includeTimestamp : bool;
  maskSensitiveInfo : bool
}.

(** [defaultConfig.logging] and [defaultConfig.security.maskSensitiveInfo] *)
Definition defaultLoggingConfig : LoggingConfig :=
  {| enableSensitiveDataMasking := true; logLevel := LevelInfo;
     includeTimestamp := true; maskSensitiveInfo := true |}.

(** An [Error] handed to the logger: [name], [message], [stack], and the
    [code] when it is a [JobKoreaError]. *)
Record ErrorObject := mkErrorObject {
  eoName : string;
  eoMessage : string;
  eoStack : option string;
  eoCode : option ErrorCode
}.

(** The [error] field of a [LogEntry]. *)
Record EntryError := mkEntryError {
  eeName : string;
  eeMessage : string;
  eeCode : option ErrorCode;
  eeStack : option string
}.

(** [interface LogEntry]; [C] is the type of the [context] records. *)
Record LogEntry (C : Type) := mkLogEntry {
  timestamp : string;
  level : LogLevel;
  message : string;
  context : option C;
  operation : option string;
  duration : option Z;
  error : option EntryError
}.

Arguments mkLogEntry {C}.
Arguments timestamp {C}.
Arguments level {C}.
Arguments message {C}.
Arguments context {C}.
Arguments operation {C}.
Arguments duration {C}.
Arguments error {C}.

(** [private static maxHistorySize = 1000] *)
Definition maxHistorySize : Z := 1000.

(** The arguments of one [Logger.log] call, with the time of the call. *)
Record LogCall (C : Type) := mkLogCall {
  callNow : string;
  callLevel : LogLevel;
  callMessage : string;
  callContext : option C;
  callError : option ErrorObject;
  callOperation : option string;
  callDuration : option Z
}.

Arguments mkLogCall {C}.
Arguments callNow {C}.
Arguments callLevel {C}.
Arguments callMessage {C}.
Arguments callContext {C}.
Arguments callError {C}.
Arguments callOperation {C}.
Arguments callDuration {C}.

Section Logger.
Context {C : Type}.
Variable config : LoggingConfig.

(** The five replacements of [SENSITIVE_PATTERNS], applied in turn; the
    regular expressions themselves are not modelled. *)
Variable applyPatterns : string -> string.

(** [Object.keys(context).length] and [JSON.stringify(context)] *)
Variable keyCount : C -> nat.
Variable stringify : C -> string.

(** [maskSensitiveData(data)] *)
Definition maskSensitiveData (data : string) : string :=
  if negb (maskSensitiveInfo config) then data else applyPatterns data.

(** [shouldLog(level)] *)
Definition shouldLog (lvl : LogLevel) : bool :=
  levelIndex lvl <=? levelIndex (logLevel config).

(** [createLogEntry(level, message, context, error, operation, duration)];
    [now] is [new Date().toISOString()]. *)
Definition createLogEntry (now : string) (lvl : LogLevel) (msg : string)
    (ctx : option C) (err : option ErrorObject) (op : option string)
    (dur : option Z) : LogEntry C :=
  let masking := enableSensitiveDataMasking config in
  {| timestamp := now;
     level := lvl;
     message := if masking then maskSensitiveData msg else msg;
     context := ctx;
     operation := op;
     duration := dur;
     error :=
       match err with
       | None => None
       | Some e =>
           Some {| eeName := eoName e;
                   eeMessage := if masking then maskSensitiveData (eoMessage e)
                                else eoMessage e;
                   eeCode := eoCode e;
                   eeStack :=
                     match eoStack e with
                     | Some stack =>
                         if negb (String.eqb stack "") && masking
                         then Some (maskSensitiveData stack)
                         else Some stack
                     | None => None
                     end |}
       end |}.

(** [addToHistory(entry)] *)
Definition addToHistory (logHistory : list (LogEntry C)) (entry : LogEntry C)
  : list (LogEntry C) :=
  let pushed := logHistory ++ [entry] in
  if Z.of_nat (List.length pushed) >? maxHistorySize then tl pushed else pushed.

(** [formatForConsole(entry)] *)
Definition formatForConsole (entry : LogEntry C) : string :=
  let formatted := ""%string in
  let formatted :=
    if includeTimestamp config
    then (formatted ++ "[" ++ timestamp entry ++ "] ")%string else formatted in
  let formatted :=
    (formatted ++ levelEmoji (level entry) ++ " [" ++ levelUpper (level entry) ++ "] "
       ++ message entry)%string in
  let formatted :=
    match operation entry with
    | Some op =>
        if negb (String.eqb op "") then (formatted ++ " [" ++ op ++ "]")%string
        else formatted
    | None => formatted
    end in
  let formatted :=
    match duration entry with
    | Some d => (formatted ++ " (" ++ showZ d ++ "ms)")%string
    | None => formatted
    end in
  let formatted :=
    match context entry with
    | Some ctx =>
        if (0 <? keyCount ctx)%nat
        then (formatted ++ " | Context: " ++ stringify ctx)%string else formatted
    | None => formatted
    end in
  match error entry with
  | Some e =>
      let formatted :=
        (formatted ++ " | Error: " ++ eeName e ++ ": " ++ eeMessage e)%string in
      match eeCode e with
      | Some code => (formatted ++ " (" ++ codeText code ++ ")")%string
      | None => formatted
      end
  | None => formatted
  end.

(** [Logger.log(...)]: the history it leaves and the line it prints, with the
    console method used ([console.error], [.warn], [.log], [.debug] for the
    four levels). *)
Definition log (logHistory : list (LogEntry C)) (call : LogCall C)
  : list (LogEntry C) * option (LogLevel * string) :=
  if negb (shouldLog (callLevel call)) then (logHistory, None)
  else
    let entry :=
      createLogEntry (callNow call) (callLevel call) (callMessage call)
                     (callContext call) (callError call) (callOperation call)
                     (callDuration call) in
    (addToHistory logHistory entry, Some (callLevel call, formatForConsole entry)).

(** [Logger.debug], [.info], [.warning], [.error], [.success] as the [log]
    calls they make. *)
Definition debugCall (now msg : string) (ctx : option C) (op : option string) : LogCall C :=
  mkLogCall now LevelDebug msg ctx None op None.
Definition infoCall (now msg : string) (ctx : option C) (op : option string) : LogCall C :=
  mkLogCall now LevelInfo msg ctx None op None.
Definition warningCall (now msg : string) (ctx : option C) (op : option string) : LogCall C :=
  mkLogCall now LevelWarn msg ctx None op None.
Definition errorCall (now msg : string) (err : option ErrorObject) (ctx : option C)
    (op : option string) : LogCall C :=
  mkLogCall now LevelError msg ctx err op None.
Definition successCall (now msg : string) (ctx : option C) (op : option string)
    (dur : option Z) : LogCall C :=
  mkLogCall now LevelInfo ("✅ " ++ msg) ctx None op dur.

(** [filtered.slice(-limit)] *)
Definition sliceLast (limit : Z) (xs : list (LogEntry C)) : list (LogEntry C) :=
  let n := Z.of_nat (List.length xs) in
  let start := if (- limit) <? 0 then Z.max (n + (- limit)) 0 else Z.min (- limit) n in
  skipn (Z.to_nat start) xs.

(** [Logger.getHistory(level?, limit?)] *)
Definition getHistory (logHistory : list (LogEntry C)) (lvl : option LogLevel)
    (limit : option Z) : list (LogEntry C) :=
  let filtered := logHistory in
  let filtered :=
    match lvl with
    | Some l => filter (fun entry => levelEqb (level entry) l) filtered
    | None => filtered
    end in
  match limit with
  | Some n => if n =? 0 then filtered else sliceLast n filtered
  | None => filtered
  end.

(** [byCode[code] = (byCode[code] || 0) + 1] on an object whose keys are kept
    in insertion order. *)
Fixpoint bump (code : ErrorCode) (byCode : list (ErrorCode * Z)) : list (ErrorCode * Z) :=
  match byCode with
  | [] => [(code, 1)]
  | (key, count) :: later =>
      if codeEqb key code then (key, count + 1) :: later
      else (key, count) :: bump code later
  end.

(** [byCode[code]], zero when the key is absent. *)
Fixpoint countOf (code : ErrorCode) (byCode : list (ErrorCode * Z)) : Z :=
  match byCode with
  | [] => 0
  | (key, count) :: later => if codeEqb key code then count else countOf code later
  end.

(** [Logger.getErrorStats()]: [total] and [byCode]. *)
Definition getErrorStats (logHistory : list (LogEntry C)) : Z * list (ErrorCode * Z) :=
  let errors :=
    filter (fun entry =>
              levelEqb (level entry) LevelError
              && match error entry with Some _ => true | None => false end)
           logHistory in
  let byCode :=
    fold_left (fun byCode entry =>
                 match error entry with
                 | Some e =>
                     match eeCode e with
                     | Some code => bump code byCode
                     | None => byCode
                     end
                 | None => byCode
                 end) errors [] in
  (Z.of_nat (List.length errors), byCode).

(** [Logger.clearHistory()] *)
Definition clearHistory (logHistory : list (LogEntry C)) : list (LogEntry C) := [].

(** A run of [Logger.log] calls: the history left. *)
Definition logAll (logHistory : list (LogEntry C)) (calls : list (LogCall C))
  : list (LogEntry C) :=
  fold_left (fun history call => fst (log history call)) calls logHistory.

(** The entry a call is recorded as. *)
Definition entryOf (call : LogCall C) : LogEntry C :=
  createLogEntry (callNow call) (callLevel call) (callMessage call)
                 (callContext call) (callError call) (callOperation call)
                 (callDuration call).

(** Whether an entry carries an error with this code. *)
Definition hasCode (code : ErrorCode) (entry : LogEntry C) : bool :=
  match error entry with
  | Some e => match eeCode e with Some c => codeEqb c code | None => false end
  | None => false
  end.

End Logger.

End Logging.
Import Logging.

(** ** src/utils/validation.ts

    Strings are lists of UTF-16 code units; the two anchored regular
    expressions are run by a derivative matcher, which decides the same
    language as the backtracking matcher of the engine for expressions
    without back-references or look-around. *)

Module Validation.

(** A JavaScript string as its UTF-16 code units, so that [length] and the
    character classes of the regular expressions are those of the source. *)
Definition JsString := list Z.

(** The code units of an ASCII text. *)
Fixpoint units (text : string) : JsString :=
  match text with
  | EmptyString => []
  | String a rest => Z.of_N (N_of_ascii a) :: units rest
  end.

Definition between (lo hi u : Z) : bool := (lo <=? u) && (u <=? hi).

(** White space and line terminators: what [\s] matches and [trim] strips. *)
Definition isWhiteSpace (u : Z) : bool :=
  between 9 13 u || (u =? 32) || (u =? 160) || (u =? 5760) || between 8192 8202 u
  || (u =? 8232) || (u =? 8233) || (u =? 8239) || (u =? 8287) || (u =? 12288)
  || (u =? 65279).

(** [\d] *)
Definition isDigit (u : Z) : bool := between 48 57 u.
(** [[a-zA-Z]] *)
Definition isLetter (u : Z) : bool := between 97 122 u || between 65 90 u.
(** [[A-Za-z0-9_-]] *)
Definition isTokenChar (u : Z) : bool :=
  between 65 90 u || between 97 122 u || between 48 57 u || (u =? 95) || (u =? 45).
(** [[a-zA-Z0-9_]] *)
Definition isWordChar (u : Z) : bool :=
  between 97 122 u || between 65 90 u || between 48 57 u || (u =? 95).

Fixpoint dropWhile (p : Z -> bool) (s : JsString) : JsString :=
  match s with
  | [] => []
  | u :: rest => if p u then dropWhile p rest else s
  end.

(** [s.trim()] *)
Definition trim (s : JsString) : JsString :=
  rev (dropWhile isWhiteSpace (rev (dropWhile isWhiteSpace s))).

(** [s.length] *)
Definition jsLength (s : JsString) : Z := Z.of_nat (List.length s).

(** Regular expressions without anchors, groups being plain grouping. *)
Inductive Regex :=
| Never
| Eps
| Class (p : Z -> bool)
| Seq (r1 r2 : Regex)
| Alt (r1 r2 : Regex)
| Star (r : Regex).

(** [c], [r+], [r?], [r{n}], [r{0,n}], [r{lo,hi}] *)
Definition Chr (c : Z) : Regex := Class (Z.eqb c).
Definition Plus (r : Regex) : Regex := Seq r (Star r).
Definition Opt (r : Regex) : Regex := Alt Eps r.
Fixpoint Exactly (n : nat) (r : Regex) : Regex :=
  match n with O => Eps | S k => Seq r (Exactly k r) end.
Fixpoint UpTo (n : nat) (r : Regex) : Regex :=
  match n with O => Eps | S k => Opt (Seq r (UpTo k r)) end.
Definition Between (lo hi : nat) (r : Regex) : Regex :=
  Seq (Exactly lo r) (UpTo (hi - lo) r).

Fixpoint nullable (r : Regex) : bool :=
  match r with
  | Never => false
  | Eps => true
  | Class _ => false
  | Seq r1 r2 => nullable r1 && nullable r2
  | Alt r1 r2 => nullable r1 || nullable r2
  | Star _ => true
  end.

(** The derivative of an expression by one code unit. *)
Fixpoint deriv (u : Z) (r : Regex) : Regex :=
  match r with
  | Never => Never
  | Eps => Never
  | Class p => if p u then Eps else Never
  | Seq r1 r2 =>
      if nullable r1 then Alt (Seq (deriv u r1) r2) (deriv u r2)
      else Seq (deriv u r1) r2
  | Alt r1 r2 => Alt (deriv u r1) (deriv u r2)
  | Star r1 => Seq (deriv u r1) (Star r1)
  end.

(** [/^r$/.test(s)] *)
Fixpoint test (r : Regex) (s : JsString) : bool :=
  match s with
  | [] => nullable r
  | u :: rest => test (deriv u r) rest
  end.

(** [/\s/.test(s)] *)
Definition hasWhiteSpace (s : JsString) : bool := existsb isWhiteSpace s.

(** [/^\d+:[A-Za-z0-9_-]+$/] *)
Definition telegramTokenRegex : Regex :=
  Seq (Plus (Class isDigit)) (Seq (Chr 58) (Plus (Class isTokenChar))).

(** [/^(-?\d+|@[a-zA-Z][a-zA-Z0-9_]{4,31})$/] *)
Definition telegramChatIdRegex : Regex :=
  Alt (Seq (Opt (Chr 45)) (Plus (Class isDigit)))
      (Seq (Chr 64) (Seq (Class isLetter) (Between 4 31 (Class isWordChar)))).

(** [!s || s.trim().length === 0] *)
Definition isBlank (s : JsString) : bool :=
  match s with [] => true | _ => jsLength (trim s) =? 0 end.

(** [validateJobKoreaId(id)] *)
Definition validateJobKoreaId (id : JsString) : list string :=
  if isBlank id then ["JobKorea ID가 비어있습니다."]
  else
    (if jsLength id <? 3 then ["JobKorea ID는 최소 3자 이상이어야 합니다."] else [])
    ++ (if jsLength id >? 50 then ["JobKorea ID는 50자를 초과할 수 없습니다."] else [])
    ++ (if hasWhiteSpace id then ["JobKorea ID에는 공백이 포함될 수 없습니다."] else []).

(** [validateJobKoreaPassword(password)] *)
Definition validateJobKoreaPassword (password : JsString) : list string :=
  if isBlank password then ["JobKorea 비밀번호가 비어있습니다."]
  else
    (if jsLength password <? 4
     then ["JobKorea 비밀번호는 최소 4자 이상이어야 합니다."] else [])
    ++ (if jsLength password >? 100
        then ["JobKorea 비밀번호는 100자를 초과할 수 없습니다."] else []).

(** [validateTelegramToken(token)] *)
Definition validateTelegramToken (token : JsString) : list string :=
  if isBlank token then ["Telegram 봇 토큰이 비어있습니다."]
  else
    (if negb (test telegramTokenRegex token)
     then ["Telegram 봇 토큰 형식이 올바르지 않습니다. (형식: 숫자:영숫자_하이픈)"] else [])
    ++ (if jsLength token <? 20 then ["Telegram 봇 토큰이 너무 짧습니다."] else [])
    ++ (if jsLength token >? 100 then ["Telegram 봇 토큰이 너무 깁니다."] else []).

(** [validateTelegramChatId(chatId)] *)
Definition validateTelegramChatId (chatId : JsString) : list string :=
  if isBlank chatId then ["Telegram 채팅 ID가 비어있습니다."]
  else
    if negb (test telegramChatIdRegex chatId)
    then ["Telegram 채팅 ID 형식이 올바르지 않습니다. (숫자 또는 @username)"] else [].

(** [interface Config] *)
Record Config := mkConfig {
  jobkoreaId : JsString;
  jobkoreaPwd : JsString;
  telegramToken : JsString;
  telegramChatId : JsString
}.

(** [interface ValidationResult] *)
Record ValidationResult := mkValidationResult {
  isValid : bool;
  errors : list string
}.

(** [ConfigValidator.validateConfig(config)]; its [Logger] calls are not
    recorded. *)
Definition validateConfig (config : Config) : ValidationResult :=
  let errors :=
    validateJobKoreaId (jobkoreaId config)
    ++ validateJobKoreaPassword (jobkoreaPwd config)
    ++ validateTelegramToken (telegramToken config)
    ++ validateTelegramChatId (telegramChatId config) in
  {| isValid := (Z.of_nat (List.length errors) =? 0); errors := errors |}.

(** [ConfigValidator.validateEnvironmentVariables()]; [env] is
    [process.env]. *)
Definition requiredVars : list string :=
  ["JOBKOREA_ID"; "JOBKOREA_PWD"; "TELEGRAM_BOT_TOKEN"; "TELEGRAM_CHAT_ID"].

Definition validateEnvironmentVariables (env : string -> option JsString)
  : ValidationResult :=
  let errors :=
    flat_map (fun varName =>
                match env varName with
                | Some (_ :: _) => []
                | _ => [("환경변수 " ++ varName ++ "이 설정되지 않았습니다.")%string]
                end) requiredVars in
  {| isValid := (Z.of_nat (List.length errors) =? 0); errors := errors |}.

(** The strings each expression accepts, spelled out. *)
Definition TokenShape (token : JsString) : Prop :=
  exists digits rest,
    token = digits ++ [58] ++ rest
    /\ digits <> [] /\ forallb isDigit digits = true
    /\ rest <> [] /\ forallb isTokenChar rest = true.

Definition ChatIdShape (chatId : JsString) : Prop :=
  (exists digits,
     (chatId = digits \/ chatId = 45 :: digits)
     /\ digits <> [] /\ forallb isDigit digits = true)
  \/ (exists letter name,
        chatId = 64 :: letter :: name
        /\ isLetter letter = true /\ forallb isWordChar name = true
        /\ (4 <= List.length name <= 31)%nat).

(** Regular-expression matching, as a relation. *)
Inductive Matches : Regex -> JsString -> Prop :=
| MEps : Matches Eps []
| MClass p u : p u = true -> Matches (Class p) [u]
| MSeq r1 r2 s1 s2 : Matches r1 s1 -> Matches r2 s2 -> Matches (Seq r1 r2) (s1 ++ s2)
| MAltL r1 r2 s : Matches r1 s -> Matches (Alt r1 r2) s
| MAltR r1 r2 s : Matches r2 s -> Matches (Alt r1 r2) s
| MStarNil r : Matches (Star r) []
| MStarApp r s1 s2 : Matches r s1 -> Matches (Star r) s2 -> Matches (Star r) (s1 ++ s2).

End Validation.
Import Validation.

Module ValidationScenarios.

Definition sampleConfig : Config :=
  {| jobkoreaId := units "nanggo";
     jobkoreaPwd := units "pass word";
     telegramToken := units "123456789:ABCdefGHIjklMNOpqrsTUVwxyz-_";
     telegramChatId := units "@jobkorea_bot" |}.

Definition sampleEnv (varName : string) : option JsString :=
  if String.eqb varName "JOBKOREA_ID" then Some (jobkoreaId sampleConfig)
  else if String.eqb varName "JOBKOREA_PWD" then Some (jobkoreaPwd sampleConfig)
  else if String.eqb varName "TELEGRAM_BOT_TOKEN" then Some (telegramToken sampleConfig)
  else if String.eqb varName "TELEGRAM_CHAT_ID" then Some (telegramChatId sampleConfig)
  else None.

End ValidationScenarios.
Import ValidationScenarios.

(** * The adaptive timeout estimator *)

Section EstimatorFacts.

Lemma Qltb_true (x y : Q) : Qltb x y = true <-> (x < y)%Q.
Proof.
  unfold Qltb. rewrite negb_true_iff. split; intro H.
  - apply Qnot_le_lt. intro L. apply Qle_bool_iff in L. congruence.
  - destruct (Qle_bool y x) eqn:L; [|reflexivity].
    apply Qle_bool_iff in L. exfalso. exact (Qlt_not_le _ _ H L).
Qed.

Lemma Math_round_lower (v : Z) (q : Q) : (inject_Z v <= q)%Q -> v <= Math_round q.
Proof.
  intro H. unfold Math_round.
  rewrite <- (Qfloor_Z v). apply Qfloor_resp_le.
  apply Qle_trans with q; [exact H|].
  rewrite <- (Qplus_0_r q) at 1. apply Qplus_le_r. discriminate.
Qed.

Lemma Math_round_upper (v : Z) (q : Q) : (q <= inject_Z v)%Q -> Math_round q <= v.
Proof.
  intro H. unfold Math_round.
  assert (E : Qfloor (inject_Z v + (1 # 2)) = v).
  { unfold Qfloor, inject_Z, Qplus. simpl.
    replace (v * 2 + 1) with (1 + v * 2) by lia.
    rewrite Z.div_add by lia. reflexivity. }
  rewrite <- E. apply Qfloor_resp_le. apply Qplus_le_l. exact H.
Qed.

Lemma clamp_then_round (lo hi : Z) (q : Q) :
  lo <= hi ->
  lo <= Math_round (Qmax (inject_Z lo) (Qmin (inject_Z hi) q)) <= hi.
Proof.
  intro H. split.
  - apply Math_round_lower. apply Q.le_max_l.
  - apply Math_round_upper. apply Q.max_lub.
    + rewrite <- Zle_Qle. exact H.
    + apply Q.le_min_l.
Qed.

Lemma baseTimeoutFor_typeName (cfg : AdaptiveTimeoutConfig) (c : OperationType) :
  baseTimeoutFor cfg (typeName c) = categoryBase c.
Proof. destruct c; reflexivity. Qed.

Lemma baseTimeoutFor_cases (cfg : AdaptiveTimeoutConfig) (operationType : string) :
  In (baseTimeoutFor cfg operationType) [20000; 15000; 10000; 8000; baseTimeout cfg].
Proof.
  unfold baseTimeoutFor.
  destruct (String.eqb operationType "navigation"); [simpl; tauto|].
  destruct (String.eqb operationType "element"); [simpl; tauto|].
  destruct (String.eqb operationType "popup"); [simpl; tauto|].
  destruct (String.eqb operationType "network"); simpl; tauto.
Qed.

Lemma lastN_length {A} (n : nat) (xs : list A) :
  List.length (lastN n xs) = Nat.min n (List.length xs).
Proof. unfold lastN. rewrite length_skipn. lia. Qed.

Lemma tl_skipn {A} (k : nat) (xs : list A) : tl (skipn k xs) = skipn (S k) xs.
Proof.
  revert xs. induction k as [|k IH]; intros [|x xs]; try reflexivity.
  cbn [skipn]. apply IH.
Qed.

(** One [push], then a [shift] when the window overflows, keeps the last
    [n] samples. *)
Lemma lastN_push (n : nat) (xs : list Q) (x : Q) :
  (0 < n)%nat ->
  (let pushed := lastN n xs ++ [x] in
   if len pushed >? Z.of_nat n then shift pushed else pushed) = lastN n (xs ++ [x]).
Proof.
  intro Hn. cbv zeta. unfold len. rewrite length_app, lastN_length. cbn [List.length].
  unfold lastN at 3. rewrite length_app. cbn [List.length].
  destruct (Nat.le_gt_cases n (List.length xs)) as [Hge | Hlt].
  - replace (Z.of_nat (Nat.min n (List.length xs) + 1) >? Z.of_nat n) with true
      by (symmetry; rewrite Z.gtb_ltb; apply Z.ltb_lt; lia).
    unfold shift, lastN.
    replace (List.length xs + 1 - n)%nat with (S (List.length xs - n)) by lia.
    rewrite skipn_app.
    replace (S (List.length xs - n) - List.length xs)%nat with 0%nat by lia.
    rewrite <- tl_skipn. change (skipn 0 [x]) with [x].
    destruct (skipn (List.length xs - n) xs) as [|y ys] eqn:Hs.
    + apply (f_equal (@List.length Q)) in Hs. rewrite length_skipn in Hs.
      cbn in Hs. lia.
    + reflexivity.
  - replace (Z.of_nat (Nat.min n (List.length xs) + 1) >? Z.of_nat n) with false
      by (symmetry; rewrite Z.gtb_ltb; apply Z.ltb_ge; lia).
    unfold lastN.
    replace (List.length xs - n)%nat with 0%nat by lia.
    replace (List.length xs + 1 - n)%nat with 0%nat by lia.
    reflexivity.
Qed.

Lemma recordAll_snoc this calls c :
  recordAll this (calls ++ [c]) =
  recordMeasurement (recordAll this calls) (fst c) (snd c).
Proof. unfold recordAll. rewrite fold_left_app. reflexivity. Qed.

Lemma recordMeasurement_count this responseTime success :
  measurementCount (metrics (recordMeasurement this responseTime success)) =
  measurementCount (metrics this) + 1.
Proof. unfold recordMeasurement. destruct success; reflexivity. Qed.

Lemma recordMeasurement_window this responseTime success :
  lastMeasurements (metrics (recordMeasurement this responseTime success)) =
  if success then
    let pushed := lastMeasurements (metrics this) ++ [responseTime] in
    if len pushed >? measurementWindow (config this) then shift pushed else pushed
  else lastMeasurements (metrics this).
Proof. unfold recordMeasurement. destruct success; reflexivity. Qed.

Lemma recordMeasurement_rate this responseTime success :
  let after := metrics (recordMeasurement this responseTime success) in
  successRate after =
    (inject_Z (len (lastMeasurements after)) /
     inject_Z (Z.min (measurementWindow (config this)) (measurementCount after)))%Q.
Proof. unfold recordMeasurement. destruct success; reflexivity. Qed.

Lemma recordAll_config this calls : config (recordAll this calls) = config this.
Proof.
  induction calls as [|c calls IH] using rev_ind; [reflexivity|].
  rewrite recordAll_snoc. exact IH.
Qed.

Lemma recordAll_count this calls :
  measurementCount (metrics (recordAll this calls)) =
  measurementCount (metrics this) + Z.of_nat (List.length calls).
Proof.
  induction calls as [|c calls IH] using rev_ind; [cbn; lia|].
  rewrite recordAll_snoc, recordMeasurement_count, IH, length_app. cbn. lia.
Qed.

Lemma recordAll_window calls :
  lastMeasurements (metrics (recordAll newManager calls)) =
  lastN 10 (successfulDurations calls).
Proof.
  induction calls as [|[responseTime success] calls IH] using rev_ind; [reflexivity|].
  rewrite recordAll_snoc, recordMeasurement_window, recordAll_config, IH.
  unfold successfulDurations. rewrite filter_app, map_app. cbn [fst snd filter].
  destruct success; cbn [map].
  - apply (lastN_push 10). lia.
  - rewrite app_nil_r. reflexivity.
Qed.

End EstimatorFacts.

(** C5. While [measurementCount < 3], in whatever state the recorded outcomes
    left the statistics, [getAdaptiveTimeout] returns exactly the fixed base
    timeout of the category: navigation 20000, element 15000, popup 10000,
    network 8000. *)
Theorem base_timeout_while_insufficient_data
    (this : AdaptiveTimeoutManager) (c : OperationType) :
  measurementCount (metrics this) < 3 ->
  getAdaptiveTimeout this (typeName c) = categoryBase c.
Proof.
  intro H. unfold getAdaptiveTimeout.
  apply Z.ltb_lt in H. rewrite H. apply baseTimeoutFor_typeName.
Qed.

Lemma base_timeout_while_insufficient_data_witness :
  let mgr := recordAll newManager [(25000 # 1, true); (100 # 1, false)] in
  measurementCount (metrics mgr) < 3
  /\ getAdaptiveTimeout mgr (typeName navigation) = 20000.
Proof.
  split; [vm_compute; reflexivity|].
  apply (base_timeout_while_insufficient_data
           (recordAll newManager [(25000 # 1, true); (100 # 1, false)]) navigation).
  vm_compute. reflexivity.
Defined.

(** C6. After any sequence of [recordMeasurement] calls on a fresh estimator:
    the window size is 10 and the latency window holds at most that many
    samples; the window is exactly the last 10 durations of the successful
    calls, in order (failures contribute nothing, the oldest sample leaves
    first); [measurementCount] is the number of calls, and any further call
    adds exactly 1 to it and leaves [successRate] equal to the number of
    samples in the window divided by [min(W, measurementCount)]. *)
Theorem window_invariant (calls : list (Q * bool)) :
  let mgr := recordAll newManager calls in
  let window := lastMeasurements (metrics mgr) in
  measurementWindow (config mgr) = 10
  /\ len window <= measurementWindow (config mgr)
  /\ window = lastN 10 (successfulDurations calls)
  /\ measurementCount (metrics mgr) = Z.of_nat (List.length calls)
  /\ forall (responseTime : Q) (success : bool),
       let after := metrics (recordMeasurement mgr responseTime success) in
       measurementCount after = measurementCount (metrics mgr) + 1
       /\ successRate after =
            (inject_Z (len (lastMeasurements after)) /
             inject_Z (Z.min (measurementWindow (config mgr))
                             (measurementCount after)))%Q.
Proof.
  cbv zeta. rewrite recordAll_config.
  split; [reflexivity|].
  split.
  { rewrite recordAll_window. unfold len. rewrite lastN_length.
    cbn [measurementWindow config newManager defaultConfig]. lia. }
  split; [apply recordAll_window|].
  split.
  { rewrite recordAll_count.
    cbn [measurementCount metrics newManager initialMetrics]. lia. }
  intros responseTime success. split.
  - apply recordMeasurement_count.
  - rewrite (recordMeasurement_rate (recordAll newManager calls)), recordAll_config.
    reflexivity.
Qed.

(** C7. In every state with [measurementCount >= 3] and [successRate] below
    the threshold 0.8, the timeout returned for a category is strictly above
    that category's base timeout: the factor 1.5 is applied, and neither the
    latency floor nor the clamp to [5000, 30000] nor the rounding brings the
    value back to the base. *)
Theorem low_success_rate_raises_timeout (m : TimeoutMetrics) (c : OperationType) :
  3 <= measurementCount m ->
  (successRate m < successThreshold defaultConfig)%Q ->
  categoryBase c < getAdaptiveTimeout (managerWith m) (typeName c).
Proof.
  intros Hn Hr. unfold getAdaptiveTimeout. cbn [metrics config managerWith].
  assert (G : (measurementCount m <? 3) = false) by (apply Z.ltb_ge; exact Hn).
  rewrite G. apply Qltb_true in Hr. rewrite Hr.
  rewrite baseTimeoutFor_typeName.
  set (raised := (inject_Z (categoryBase c) * failureMultiplier defaultConfig)%Q).
  set (floored := if Qltb 0 (averageResponseTime m) then _ else _).
  assert (F : (raised <= floored)%Q).
  { subst floored. destruct (Qltb 0 (averageResponseTime m)).
    - apply Q.le_max_l.
    - apply Qle_refl. }
  assert (L : forall v : Z, (inject_Z v <= raised)%Q -> v <= 30000 ->
            v <= Math_round (Qmax (inject_Z (minTimeout defaultConfig))
                       (Qmin (inject_Z (maxTimeout defaultConfig)) floored))).
  { intros v Hv Hm. apply Math_round_lower.
    apply Qle_trans with (Qmin (inject_Z (maxTimeout defaultConfig)) floored);
      [|apply Q.le_max_r].
    apply Q.min_glb.
    - rewrite <- Zle_Qle. exact Hm.
    - apply Qle_trans with raised; assumption. }
  destruct c; subst raised; cbn [categoryBase] in *.
  - apply Z.lt_le_trans with 30000; [lia|]. apply L; [|lia]. vm_compute. discriminate.
  - apply Z.lt_le_trans with 22500; [lia|]. apply L; [|lia]. vm_compute. discriminate.
  - apply Z.lt_le_trans with 15000; [lia|]. apply L; [|lia]. vm_compute. discriminate.
  - apply Z.lt_le_trans with 12000; [lia|]. apply L; [|lia]. vm_compute. discriminate.
Qed.

Lemma low_success_rate_raises_timeout_witness :
  let mgr := recordAll newManager [(9000 # 1, false); (9000 # 1, true); (9000 # 1, false);
                                   (9000 # 1, false)] in
  managerWith (metrics mgr) = mgr
  /\ 3 <= measurementCount (metrics mgr)
  /\ (successRate (metrics mgr) < successThreshold defaultConfig)%Q
  /\ categoryBase popup < getAdaptiveTimeout (managerWith (metrics mgr)) (typeName popup).
Proof.
  split; [reflexivity|].
  split; [vm_compute; discriminate|].
  split; [vm_compute; reflexivity|].
  apply (low_success_rate_raises_timeout
           (metrics (recordAll newManager
              [(9000 # 1, false); (9000 # 1, true); (9000 # 1, false); (9000 # 1, false)]))
           popup).
  - vm_compute. discriminate.
  - vm_compute. reflexivity.
Defined.

(** C8. In every state of the statistics and for every operation type, the
    value [getAdaptiveTimeout] returns lies in [minTimeout, maxTimeout], that
    is [5000, 30000]: on the insufficient-data branch, which returns the base
    without clamping, and after the final rounding. *)
Theorem timeout_within_bounds (m : TimeoutMetrics) (operationType : string) :
  minTimeout defaultConfig = 5000 /\ maxTimeout defaultConfig = 30000
  /\ minTimeout defaultConfig <= getAdaptiveTimeout (managerWith m) operationType
       <= maxTimeout defaultConfig.
Proof.
  split; [reflexivity|]. split; [reflexivity|].
  unfold getAdaptiveTimeout. cbn [metrics config managerWith].
  destruct (measurementCount m <? 3).
  - pose proof (baseTimeoutFor_cases defaultConfig operationType) as H.
    cbn in H. cbn [minTimeout maxTimeout defaultConfig].
    repeat (destruct H as [H | H]; [rewrite <- H; lia|]). contradiction.
  - apply clamp_then_round. cbn. lia.
Qed.


(** An operation that settles before the timeout has elapsed wins the race:
    its outcome is passed on and one measurement is recorded. *)
Lemma withTimeoutMeasurement_in_time {E T} (operation : Async E T)
    (operationType : string) (timeoutMs : option Z) (s s1 : State E)
    (outcome : Settled T) (evs : list Event) :
  operation s = (outcome, s1, evs) ->
  clock s1 - clock s < orElse timeoutMs (getAdaptiveTimeout (manager s) operationType) ->
  withTimeoutMeasurement operation operationType timeoutMs s =
    (outcome, measured s s1 (isFulfilled outcome), evs).
Proof.
  intros Hop Hlt. unfold withTimeoutMeasurement.
  unfold bind at 1, getInstance at 1. unfold bind at 1, Date_now at 1.
  unfold bind at 1, race. rewrite Hop.
  apply Z.leb_gt in Hlt. rewrite Hlt.
  unfold bind, Date_now, recordOnInstance, settle, measured.
  destruct outcome; cbn; rewrite ?app_nil_r; reflexivity.
Qed.

(** The run of a measured operation that has not settled when the budget has
    elapsed. *)
Lemma withTimeoutMeasurement_overrun {E T} (operation : Async E T) (operationType : string)
    (timeoutMs : option Z) (s s1 : State E) (outcome : Settled T) (evs : list Event) :
  let budget := orElse timeoutMs (getAdaptiveTimeout (manager s) operationType) in
  operation s = (outcome, s1, evs) ->
  budget <= clock s1 - clock s ->
  withTimeoutMeasurement operation operationType timeoutMs s =
    (Rejected (VError (newError ("Operation timeout after " ++ showZ budget ++ "ms"))),
     mkState (env s1) (clock s + Z.max 0 budget)
             (recordMeasurement (manager s1) (inject_Z (Z.max 0 budget)) false),
     evs).
Proof.
  intros budget Hop Hlate. unfold withTimeoutMeasurement.
  unfold bind at 1, getInstance at 1. unfold bind at 1, Date_now at 1.
  unfold bind at 1, race. rewrite Hop. fold budget.
  apply Z.leb_le in Hlate. rewrite Hlate.
  unfold bind, Date_now, recordOnInstance, settle, throw.
  cbn [clock env manager isFulfilled app]. rewrite ?app_nil_r.
  replace (clock s + Z.max 0 budget - clock s) with (Z.max 0 budget) by lia.
  reflexivity.
Qed.






(** * The retriers *)

Ltac flatten_events := cbn [app]; repeat (rewrite <- app_assoc; cbn [app]).

Lemma range_empty (lo hi : Z) : hi < lo -> range lo hi = [].
Proof.
  intro H. unfold range.
  replace (Z.to_nat (hi - lo + 1)) with 0%nat by lia. reflexivity.
Qed.

Lemma range_cons (lo hi : Z) : lo <= hi -> range lo hi = lo :: range (lo + 1) hi.
Proof.
  intro H. unfold range.
  replace (Z.to_nat (hi - lo + 1)) with (S (Z.to_nat (hi - (lo + 1) + 1))) by lia.
  cbn [seq map]. f_equal; [lia|].
  rewrite <- seq_shift, map_map. apply map_ext. intro i. lia.
Qed.

Lemma eventsOf_prepend {E A} (evs : list Event) (r : Settled A * State E * list Event) :
  eventsOf (prepend evs r) = evs ++ eventsOf r.
Proof. destruct r as [[o s] later]. reflexivity. Qed.

Lemma outcomeOf_prepend {E A} (evs : list Event) (r : Settled A * State E * list Event) :
  outcomeOf (prepend evs r) = outcomeOf r.
Proof. destruct r as [[o s] later]. reflexivity. Qed.

Section RetryLoopFacts.
Context {E T : Type}.
Variable fn : Async E T.
Variables (maxRetries baseDelay maxDelay backoffMultiplier : Z) (operation : string).

Local Abbreviation loop :=
  (retryLoop fn maxRetries baseDelay maxDelay backoffMultiplier operation).

(** An iteration whose call is fulfilled returns the result. *)
Lemma retryLoop_fulfilled attempt later lastError s result s1 evs1 :
  fn s = (Fulfilled result, s1, evs1) ->
  loop (attempt :: later) lastError s =
    (Fulfilled result, s1,
     [LogTrying operation attempt maxRetries; CallFn attempt] ++ evs1 ++
     (if attempt >? 1 then [LogRecovered operation attempt] else [])).
Proof.
  intro H. cbn [retryLoop]. unfold bind, try_, emit, when, ret. rewrite H.
  destruct (attempt >? 1); cbn; rewrite ?app_nil_r; reflexivity.
Qed.

(** The last iteration rethrows what its call rejected with, as an Error. *)
Lemma retryLoop_final attempt later lastError s error s1 evs1 :
  fn s = (Rejected error, s1, evs1) ->
  attempt = maxRetries ->
  loop (attempt :: later) lastError s =
    (Rejected (VError (asError error)), s1,
     [LogTrying operation attempt maxRetries; CallFn attempt] ++ evs1 ++
     [LogFinalFailure operation maxRetries (asError error)]).
Proof.
  intros H ->. cbn [retryLoop]. unfold bind, try_, emit, throw. rewrite H.
  rewrite Z.eqb_refl. cbn. rewrite ?app_nil_r. reflexivity.
Qed.

(** An earlier iteration whose call is rejected sleeps and goes on. *)
Lemma retryLoop_retry attempt later lastError s error s1 evs1 :
  fn s = (Rejected error, s1, evs1) ->
  attempt <> maxRetries ->
  let delay := backoff baseDelay backoffMultiplier maxDelay attempt in
  loop (attempt :: later) lastError s =
    prepend ([LogTrying operation attempt maxRetries; CallFn attempt] ++ evs1 ++
             [LogRetryAfter operation attempt maxRetries delay (asError error);
              Sleep delay])
            (loop later (asError error) (slept delay s1)).
Proof.
  intros H Hne delay. cbn [retryLoop]. unfold bind at 1 2 3, try_, emit. rewrite H.
  apply Z.eqb_neq in Hne. rewrite Hne.
  unfold bind, sleep. fold delay. unfold slept, prepend.
  destruct (retryLoop fn maxRetries baseDelay maxDelay backoffMultiplier operation
              later (asError error) _) as [[o s2] evs2].
  flatten_events. reflexivity.
Qed.

(** Every iteration starts by invoking the wrapped function. *)
Lemma retryLoop_invokes attempt later lastError s :
  exists rest,
    eventsOf (loop (attempt :: later) lastError s) =
      [LogTrying operation attempt maxRetries; CallFn attempt] ++
      eventsOf (fn s) ++ rest.
Proof.
  destruct (fn s) as [[[result | error] s1] evs1] eqn:Hfn.
  - rewrite (retryLoop_fulfilled _ _ _ _ _ _ _ Hfn).
    cbn [eventsOf snd]. eexists. reflexivity.
  - destruct (Z.eq_dec attempt maxRetries) as [Heq | Hne].
    + rewrite (retryLoop_final _ _ _ _ _ _ _ Hfn Heq).
      cbn [eventsOf snd]. eexists. reflexivity.
    + rewrite (retryLoop_retry _ _ _ _ _ _ _ Hfn Hne), eventsOf_prepend.
      cbn [eventsOf snd]. flatten_events. eexists. reflexivity.
Qed.

End RetryLoopFacts.

Section RestartLoopFacts.
Context {E T : Type}.
Variables (cfg : RetryConfig) (fn : Async E T) (browserRestartFn : Async E unit).
Variables (maxRetries : Z) (operation : string).

Local Abbreviation loop := (restartLoop cfg fn browserRestartFn maxRetries operation).

Lemma restartLoop_fulfilled attempt later lastError s result s1 evs1 :
  fn s = (Fulfilled result, s1, evs1) ->
  loop (attempt :: later) lastError s =
    (Fulfilled result, s1,
     [LogTrying operation attempt maxRetries; CallFn attempt] ++ evs1 ++
     (if attempt >? 1 then [LogRecovered operation attempt] else [])).
Proof.
  intro H. cbn [restartLoop]. unfold bind, try_, emit, when, ret. rewrite H.
  destruct (attempt >? 1); cbn; rewrite ?app_nil_r; reflexivity.
Qed.

Lemma restartLoop_final attempt later lastError s error s1 evs1 :
  fn s = (Rejected error, s1, evs1) ->
  attempt = maxRetries ->
  loop (attempt :: later) lastError s =
    (Rejected (VError (asError error)), s1,
     [LogTrying operation attempt maxRetries; CallFn attempt] ++ evs1 ++
     [LogFinalFailure operation maxRetries (asError error)]).
Proof.
  intros H ->. cbn [restartLoop]. unfold bind, try_, emit, throw. rewrite H.
  rewrite Z.eqb_refl. cbn. rewrite ?app_nil_r. reflexivity.
Qed.

(** An earlier iteration whose call is rejected runs the restart callback,
    logs its failure if it has one that the logger can read, sleeps
    [baseDelay] and goes on. *)
Lemma restartLoop_restart attempt later lastError s error s1 evs1 restarted s2 evs2 :
  fn s = (Rejected error, s1, evs1) ->
  attempt <> maxRetries ->
  browserRestartFn s1 = (restarted, s2, evs2) ->
  (forall restartError, restarted = Rejected restartError -> loggable restartError = true) ->
  loop (attempt :: later) lastError s =
    prepend ([LogTrying operation attempt maxRetries; CallFn attempt] ++ evs1 ++
             [LogRestartThenRetry operation attempt maxRetries (asError error);
              CallRestart] ++ evs2 ++
             match restarted with
             | Fulfilled _ => []
             | Rejected restartError => [LogRestartFailed restartError]
             end ++
             [Sleep (baseDelay cfg)])
            (loop later (asError error) (slept (baseDelay cfg) s2)).
Proof.
  intros H Hne Hr Hlog. cbn [restartLoop].
  unfold bind at 1 2 3, try_ at 1, emit at 1 2. rewrite H.
  apply Z.eqb_neq in Hne. rewrite Hne.
  unfold bind, try_, emit, sleep, ret, Logger_error_unchecked. rewrite Hr.
  unfold slept, prepend.
  destruct restarted as [u | restartError];
    [|rewrite (Hlog restartError eq_refl); unfold emit];
    destruct (restartLoop cfg fn browserRestartFn maxRetries operation later
                (asError error) _) as [[o s3] evs3];
    flatten_events; reflexivity.
Qed.

(** An earlier iteration whose restart callback rejects with a value the
    logger cannot read ends the loop: the TypeError of the logger is the
    outcome, without a sleep and without a further call. *)
Lemma restartLoop_abort attempt later lastError s error s1 evs1 restartError s2 evs2 :
  fn s = (Rejected error, s1, evs1) ->
  attempt <> maxRetries ->
  browserRestartFn s1 = (Rejected restartError, s2, evs2) ->
  loggable restartError = false ->
  loop (attempt :: later) lastError s =
    (Rejected (VError cannotReadReplace), s2,
     [LogTrying operation attempt maxRetries; CallFn attempt] ++ evs1 ++
     [LogRestartThenRetry operation attempt maxRetries (asError error);
      CallRestart] ++ evs2).
Proof.
  intros H Hne Hr Hlog. cbn [restartLoop].
  unfold bind at 1 2 3, try_ at 1, emit at 1 2. rewrite H.
  apply Z.eqb_neq in Hne. rewrite Hne.
  unfold bind, try_, emit. rewrite Hr.
  unfold Logger_error_unchecked. rewrite Hlog. unfold throw.
  flatten_events. rewrite ?app_nil_r. reflexivity.
Qed.

(** Whatever the restart callback does, the outcome of the loop is an outcome
    of the wrapped function, the error the loop started with, or the
    TypeError of the logger. *)
Lemma restartLoop_fromWorkflow attempts lastError s :
  fromWorkflow fn lastError (outcomeOf (loop attempts lastError s))
  \/ outcomeOf (loop attempts lastError s) = Rejected (VError cannotReadReplace).
Proof.
  revert lastError s. induction attempts as [|attempt later IH]; intros lastError s.
  - left. left. reflexivity.
  - destruct (fn s) as [[[result | error] s1] evs1] eqn:Hfn.
    + rewrite (restartLoop_fulfilled _ _ _ _ _ _ _ Hfn). cbn.
      left. exists s, s1, evs1. exact Hfn.
    + destruct (Z.eq_dec attempt maxRetries) as [Heq | Hne].
      * rewrite (restartLoop_final _ _ _ _ _ _ _ Hfn Heq). cbn.
        left. right. exists s, error, s1, evs1. split; [exact Hfn | reflexivity].
      * destruct (browserRestartFn s1) as [[restarted s2] evs2] eqn:Hr.
        assert (Hcases : (forall restartError, restarted = Rejected restartError ->
                            loggable restartError = true)
                         \/ exists restartError,
                              restarted = Rejected restartError
                              /\ loggable restartError = false).
        { destruct restarted as [u | restartError].
          - left. intros ? Heq. discriminate.
          - destruct (loggable restartError) eqn:Hlog.
            + left. intros ? Heq. injection Heq as <-. exact Hlog.
            + right. exists restartError. split; [reflexivity | exact Hlog]. }
        destruct Hcases as [Hlog | (restartError & -> & Hlog)].
        -- rewrite (restartLoop_restart _ _ _ _ _ _ _ _ _ _ Hfn Hne Hr Hlog).
           specialize (IH (asError error) (slept (baseDelay cfg) s2)).
           destruct (loop later (asError error) (slept (baseDelay cfg) s2))
             as [[o s3] evs3].
           cbn in *. destruct IH as [IH | IH]; [|right; exact IH].
           left. destruct o as [v | reason]; [exact IH|].
           destruct IH as [-> | IH]; [|right; exact IH].
           right. exists s, error, s1, evs1. split; [exact Hfn | reflexivity].
        -- rewrite (restartLoop_abort _ _ _ _ _ _ _ _ _ _ Hfn Hne Hr Hlog).
           right. reflexivity.
Qed.

End RestartLoopFacts.

(** C3, as claimed, fails in its last part. An action that always rejects
    with a value that is not an Error instance (here the string boom) is
    invoked three times with delays 2000 and 4000, but what [withRetry]
    re-raises is a new Error wrapping the text of the reason, not the reason
    itself. *)
Lemma non_error_reason_counterexample :
  let run :=
    withRetry (T := unit) defaultRetryConfig (alwaysRejects (VOther "boom"))
              (policy3 None) (freshState tt) in
  callCount (eventsOf run) = 3%nat
  /\ sleepsOf (eventsOf run) = [2000; 4000]
  /\ outcomeOf run = Rejected (VError (newError "boom"))
  /\ outcomeOf run <> Rejected (VOther "boom").
Proof.
  vm_compute. repeat split. discriminate.
Qed.

(** C3, amended. With [maxRetries=3], [baseDelay=2000], [backoffMultiplier=2],
    [maxDelay=10000] and an action that rejects at every call, [withRetry]
    invokes the action exactly three times (in the start state, then in the
    states reached 2000 ms and 4000 ms after the first and the second
    rejection), sleeps 2000 ms and then 4000 ms between the invocations and
    not after the last, and rejects with the reason of the third invocation:
    the reason itself when it is an Error instance, otherwise a new Error
    made from its text. *)
Theorem withRetry_always_rejecting {E T} (cfg : RetryConfig) (fn : Async E T)
    (operation : option string) (s : State E) :
  (forall s0, exists reason s1 evs, fn s0 = (Rejected reason, s1, evs)) ->
  let op := defaultTo operation defaultOperationLabel in
  exists r1 s1 evs1 r2 s2 evs2 r3 s3 evs3,
    fn s = (Rejected r1, s1, evs1) /\
    fn (slept 2000 s1) = (Rejected r2, s2, evs2) /\
    fn (slept 4000 s2) = (Rejected r3, s3, evs3) /\
    2000 = backoff 2000 2 10000 1 /\
    4000 = backoff 2000 2 10000 2 /\
    withRetry cfg fn (policy3 operation) s =
      (Rejected (VError (asError r3)), s3,
       [LogTrying op 1 3; CallFn 1] ++ evs1 ++
       [LogRetryAfter op 1 3 2000 (asError r1); Sleep 2000;
        LogTrying op 2 3; CallFn 2] ++ evs2 ++
       [LogRetryAfter op 2 3 4000 (asError r2); Sleep 4000;
        LogTrying op 3 3; CallFn 3] ++ evs3 ++
       [LogFinalFailure op 3 (asError r3)]) /\
    (forall e, r3 = VError e -> VError (asError r3) = r3) /\
    (forall text, r3 = VOther text -> asError r3 = newError text).
Proof.
  intros Hrej op.
  destruct (Hrej s) as (r1 & s1 & evs1 & H1).
  destruct (Hrej (slept 2000 s1)) as (r2 & s2 & evs2 & H2).
  destruct (Hrej (slept 4000 s2)) as (r3 & s3 & evs3 & H3).
  exists r1, s1, evs1, r2, s2, evs2, r3, s3, evs3.
  split; [exact H1|]. split; [exact H2|]. split; [exact H3|].
  split; [reflexivity|]. split; [reflexivity|]. split; [|split].
  - unfold withRetry, policy3.
    cbn [defaultTo optMaxRetries optBaseDelay optMaxDelay optBackoffMultiplier
         optOperation].
    fold op. change (range 1 3) with [1; 2; 3].
    rewrite (retryLoop_retry _ _ _ _ _ _ _ _ _ _ _ _ _ H1) by lia.
    change (backoff 2000 2 10000 1) with 2000.
    rewrite (retryLoop_retry _ _ _ _ _ _ _ _ _ _ _ _ _ H2) by lia.
    change (backoff 2000 2 10000 2) with 4000.
    rewrite (retryLoop_final _ _ _ _ _ _ _ _ _ _ _ _ _ H3) by reflexivity.
    cbn [prepend]. flatten_events. reflexivity.
  - intros e ->. reflexivity.
  - intros text ->. reflexivity.
Qed.

Lemma withRetry_always_rejecting_witness :
  (forall s0 : State unit, exists reason s1 evs,
     alwaysRejects (T := nat) (VError (mkError "NavigationError" "page closed")) s0
     = (Rejected reason, s1, evs))
  /\ outcomeOf (withRetry defaultRetryConfig
                  (alwaysRejects (T := nat) (VError (mkError "NavigationError" "page closed")))
                  (policy3 (Some "login")) (freshState tt))
     = Rejected (VError (mkError "NavigationError" "page closed")).
Proof.
  assert (H : forall s0 : State unit, exists reason s1 evs,
            alwaysRejects (T := nat) (VError (mkError "NavigationError" "page closed")) s0
            = (Rejected reason, s1, evs)).
  { intro s0. exists (VError (mkError "NavigationError" "page closed")), s0, [].
    reflexivity. }
  split; [exact H|].
  destruct (withRetry_always_rejecting defaultRetryConfig
              (alwaysRejects (T := nat) (VError (mkError "NavigationError" "page closed")))
              (Some "login") (freshState tt) H)
    as (r1 & s1 & evs1 & r2 & s2 & evs2 & r3 & s3 & evs3 & _ & _ & H3 & _ & _ & Hrun & _).
  rewrite Hrun. cbn [outcomeOf fst].
  unfold alwaysRejects, throw in H3. injection H3 as <- _ _. reflexivity.
Defined.

(** C10. Called with [maxRetries] zero or negative, [withRetry] and
    [withBrowserRestart] never invoke the wrapped action (no event, state
    untouched) and reject with the generic Error whose message is
    No attempts made. *)
Theorem no_attempts_when_maxRetries_not_positive {E T} (cfg : RetryConfig)
    (fn : Async E T) (browserRestartFn : Async E unit)
    (options : RetryOptions) (maxRetries : Z) (s : State E) :
  optMaxRetries options = Some maxRetries ->
  maxRetries <= 0 ->
  withRetry cfg fn options s =
    (Rejected (VError (newError "No attempts made")), s, [])
  /\ withBrowserRestart cfg fn browserRestartFn options s =
       (Rejected (VError (newError "No attempts made")), s, []).
Proof.
  intros Hopt Hle. unfold withRetry, withBrowserRestart. rewrite Hopt.
  cbn [defaultTo]. rewrite range_empty by lia. split; reflexivity.
Qed.

Lemma no_attempts_when_maxRetries_not_positive_witness :
  optMaxRetries (mkRetryOptions (Some 0) None None None None) = Some 0
  /\ 0 <= 0
  /\ withRetry defaultRetryConfig (ret 7) (mkRetryOptions (Some 0) None None None None)
       (freshState tt)
     = (Rejected (VError (newError "No attempts made")), freshState tt, []).
Proof.
  split; [reflexivity|]. split; [lia|].
  apply (no_attempts_when_maxRetries_not_positive defaultRetryConfig
           (ret 7) (ret tt) (mkRetryOptions (Some 0) None None None None) 0 (freshState tt)).
  - reflexivity.
  - lia.
Defined.

(** C4. The code does what the claim says only for the restart failures its
    logger can read. In [withBrowserRestart], at an attempt before the last
    whose workflow call rejects and whose restart callback then rejects too:
    - when the restart failure is an Error instance (or another value
      [createLogEntry] can read), it is only logged; the loop sleeps the fixed
      [baseDelay] and goes on with attempt + 1, which starts by invoking the
      workflow again, in the state the restart left; the error carried
      forward is the workflow's;
    - when it is a truthy value that is not an Error, such as a string, the
      unchecked [Logger.error(..., restartError as Error)] throws inside the
      [catch] block: the call rejects at once with the TypeError of the
      logger, without the delay and without another workflow call.
    In every run the outcome is an outcome of the workflow, No attempts made,
    or that TypeError. *)
Theorem restart_failure_is_logged_unchecked {E T} (cfg : RetryConfig)
    (fn : Async E T) (browserRestartFn : Async E unit)
    (maxRetries : Z) (operation : string) (attempt : Z) (lastError : JsError)
    (s s1 s2 : State E) (error restartError : JsValue) (evs1 evs2 : list Event) :
  attempt < maxRetries ->
  fn s = (Rejected error, s1, evs1) ->
  browserRestartFn s1 = (Rejected restartError, s2, evs2) ->
  let run :=
    restartLoop cfg fn browserRestartFn maxRetries operation
                (range attempt maxRetries) lastError s in
  let resumed := slept (baseDelay cfg) s2 in
  let next :=
    restartLoop cfg fn browserRestartFn maxRetries operation
                (range (attempt + 1) maxRetries) (asError error) resumed in
  (loggable restartError = true ->
   run =
     prepend ([LogTrying operation attempt maxRetries; CallFn attempt] ++ evs1 ++
              [LogRestartThenRetry operation attempt maxRetries (asError error);
               CallRestart] ++ evs2 ++
              [LogRestartFailed restartError; Sleep (baseDelay cfg)]) next
   /\ exists later,
        eventsOf next =
          [LogTrying operation (attempt + 1) maxRetries; CallFn (attempt + 1)] ++
          eventsOf (fn resumed) ++ later)
  /\ (loggable restartError = false ->
      run =
        (Rejected (VError cannotReadReplace), s2,
         [LogTrying operation attempt maxRetries; CallFn attempt] ++ evs1 ++
         [LogRestartThenRetry operation attempt maxRetries (asError error);
          CallRestart] ++ evs2))
  /\ (forall (options : RetryOptions) (s0 : State E),
        fromWorkflow fn noAttemptsMade
          (outcomeOf (withBrowserRestart cfg fn browserRestartFn options s0))
        \/ outcomeOf (withBrowserRestart cfg fn browserRestartFn options s0)
           = Rejected (VError cannotReadReplace)).
Proof.
  intros Hlt Hfn Hr run resumed next.
  assert (Hne : attempt <> maxRetries) by lia.
  split; [|split].
  - intro Hlog. split.
    + subst run. rewrite (range_cons attempt maxRetries) by lia.
      rewrite (restartLoop_restart _ _ _ _ _ _ _ _ _ _ _ _ _ _ _ Hfn Hne Hr).
      * reflexivity.
      * intros v Hv. injection Hv as <-. exact Hlog.
    + subst next. clear run. rewrite (range_cons (attempt + 1) maxRetries) by lia.
      destruct (fn resumed) as [[[result | error'] s3] evs3] eqn:Hnext.
      * rewrite (restartLoop_fulfilled _ _ _ _ _ _ _ _ _ _ _ _ Hnext).
        cbn [eventsOf snd]. eexists. reflexivity.
      * destruct (Z.eq_dec (attempt + 1) maxRetries) as [Heq | Hne'].
        -- rewrite (restartLoop_final _ _ _ _ _ _ _ _ _ _ _ _ Hnext Heq).
           cbn [eventsOf snd]. eexists. reflexivity.
        -- destruct (browserRestartFn s3) as [[restarted s4] evs4] eqn:Hr'.
           destruct restarted as [u | restartError'].
           ++ rewrite (restartLoop_restart _ _ _ _ _ _ _ _ _ _ _ _ _ _ _ Hnext Hne' Hr')
                by (intros ? Hv; discriminate).
              destruct (restartLoop _ _ _ _ _ _ _ _) as [[o s5] evs5].
              cbn [prepend eventsOf snd]. flatten_events. eexists. reflexivity.
           ++ destruct (loggable restartError') eqn:Hlog'.
              ** rewrite (restartLoop_restart _ _ _ _ _ _ _ _ _ _ _ _ _ _ _ Hnext Hne' Hr')
                   by (intros ? Hv; injection Hv as <-; exact Hlog').
                 destruct (restartLoop _ _ _ _ _ _ _ _) as [[o s5] evs5].
                 cbn [prepend eventsOf snd]. flatten_events. eexists. reflexivity.
              ** rewrite (restartLoop_abort _ _ _ _ _ _ _ _ _ _ _ _ _ _ _
                            Hnext Hne' Hr' Hlog').
                 cbn [eventsOf snd]. flatten_events. eexists. reflexivity.
  - intro Hlog. subst run. rewrite (range_cons attempt maxRetries) by lia.
    apply (restartLoop_abort _ _ _ _ _ _ _ _ _ _ _ _ _ _ _ Hfn Hne Hr Hlog).
  - intros options s0. unfold withBrowserRestart. apply restartLoop_fromWorkflow.
Qed.

Lemma restart_failure_is_logged_unchecked_witness :
  let fn : Async unit unit := alwaysRejects (VError (mkError "UpdateError" "no popup")) in
  let restart : Async unit unit := alwaysRejects (VOther "browser.close failed") in
  1 < 3
  /\ fn (freshState tt) =
       (Rejected (VError (mkError "UpdateError" "no popup")), freshState tt, [])
  /\ restart (freshState tt) =
       (Rejected (VOther "browser.close failed"), freshState tt, [])
  /\ loggable (VOther "browser.close failed") = false
  /\ withBrowserRestart defaultRetryConfig fn restart
       (mkRetryOptions (Some 3) None None None (Some "update")) (freshState tt)
     = (Rejected (VError cannotReadReplace), freshState tt,
        [LogTrying "update" 1 3; CallFn 1;
         LogRestartThenRetry "update" 1 3 (mkError "UpdateError" "no popup");
         CallRestart]).
Proof.
  intros fn restart.
  split; [lia|]. split; [reflexivity|]. split; [reflexivity|]. split; [reflexivity|].
  pose proof (restart_failure_is_logged_unchecked defaultRetryConfig fn restart
                3 "update" 1 noAttemptsMade (freshState tt) (freshState tt) (freshState tt)
                (VError (mkError "UpdateError" "no popup"))
                (VOther "browser.close failed") [] []) as H.
  destruct H as (_ & Habort & _); [lia | reflexivity | reflexivity |].
  unfold withBrowserRestart. cbn [defaultTo optMaxRetries optOperation].
  rewrite Habort by reflexivity. reflexivity.
Defined.

(** * The notification transport *)

Section SendFacts.
Context {E : Type}.
Variables (cfg : RetryConfig) (fetch : Request -> Async E Response).
Variables (token chatId message parseMode : string).

Local Abbreviation request :=
  (mkRequest ("https://api.telegram.org/bot" ++ token ++ "/sendMessage")
             chatId message parseMode).

(** The events of [c ;; k] start with the events of [c]. *)
Lemma bind_events_prefix {A B} (c : Async E A) (k : A -> Async E B) (s : State E) :
  exists later, eventsOf (bind c k s) = eventsOf (c s) ++ later.
Proof.
  unfold bind. destruct (c s) as [[[a | reason] s1] evs1].
  - destruct (k a s1) as [[o s2] evs2]. cbn [eventsOf snd]. eexists. reflexivity.
  - cbn [eventsOf snd]. exists []. rewrite app_nil_r. reflexivity.
Qed.

(** Every call of the function handed to [withRetry] starts with a [fetch]. *)
Lemma sendOnce_fetches_first (s : State E) :
  exists later,
    eventsOf (sendOnce fetch token chatId message parseMode s) = Fetch request :: later.
Proof.
  unfold sendOnce.
  match goal with
  | |- context [eventsOf (bind (bind ?c ?k1) ?k2 s)] =>
      destruct (bind_events_prefix (bind c k1) k2 s) as [later1 H1];
      destruct (bind_events_prefix c k1 s) as [later2 H2]
  end.
  rewrite H1, H2. cbn [emit eventsOf snd app]. eexists. reflexivity.
Qed.

(** A 4xx answer makes that function log the permanent-error message and
    throw, like any other failure. *)
Lemma sendOnce_4xx (s s1 : State E) (response : Response) (evs : list Event) :
  fetch request s = (Fulfilled response, s1, evs) ->
  400 <= status response < 500 ->
  exists error,
    sendOnce fetch token chatId message parseMode s =
      (Rejected (VError error), s1, [Fetch request] ++ evs ++ [LogPermanent error]).
Proof.
  intros Hf [Hlo Hhi]. unfold sendOnce, bind at 1, bind at 1, emit at 1. rewrite Hf.
  assert (Hok : ok response = false).
  { unfold ok. apply andb_false_iff. right. apply Z.leb_gt. lia. }
  rewrite Hok. cbn [negb].
  assert (H4 : (status response >=? 400) && (status response <? 500) = true).
  { apply andb_true_iff. split; [rewrite Z.geb_leb; apply Z.leb_le | apply Z.ltb_lt]; lia. }
  rewrite H4. eexists. unfold bind, emit, throw. flatten_events. reflexivity.
Qed.

(** Whenever the first answer is a 4xx and more than one attempt is
    configured, [sendTelegramMessage] sleeps and fetches again. *)
Lemma permanent_error_is_retried (s s1 : State E) (response : Response)
    (evs : list Event) :
  fetch request s = (Fulfilled response, s1, evs) ->
  400 <= status response < 500 ->
  1 < maxOperationRetries cfg ->
  exists error delay later,
    eventsOf (sendTelegramMessage cfg fetch token chatId message (Some parseMode) s) =
      [LogTrying "Telegram 메시지 전송" 1 (maxOperationRetries cfg); CallFn 1;
       Fetch request] ++ evs ++
      [LogPermanent error;
       LogRetryAfter "Telegram 메시지 전송" 1 (maxOperationRetries cfg) delay error;
       Sleep delay;
       LogTrying "Telegram 메시지 전송" 2 (maxOperationRetries cfg); CallFn 2;
       Fetch request] ++ later.
Proof.
  intros Hf H4 Hmax.
  destruct (sendOnce_4xx s s1 response evs Hf H4) as [error Hsend].
  unfold sendTelegramMessage, withRetry.
  cbn [defaultTo optMaxRetries optBaseDelay optMaxDelay optBackoffMultiplier optOperation].
  rewrite (range_cons 1) by lia. rewrite (range_cons (1 + 1)) by lia.
  rewrite (retryLoop_retry _ _ _ _ _ _ _ _ _ _ _ _ _ Hsend) by lia.
  set (delay := backoff _ _ _ 1).
  rewrite eventsOf_prepend.
  match goal with
  | |- context [eventsOf (retryLoop ?f ?m ?b ?d ?k ?o (?a :: ?l) ?e ?st)] =>
      destruct (retryLoop_invokes f m b d k o a l e st) as [rest Hnext]
  end.
  rewrite Hnext.
  destruct (sendOnce_fetches_first (slept delay s1)) as [fetched Hfetched].
  rewrite Hfetched. change (1 + 1) with 2.
  flatten_events. exists error, delay. eexists. reflexivity.
Qed.

End SendFacts.

(** C2, the code against the claim. Against a Telegram API that answers 400
    (a 4xx) every time, [sendTelegramMessage] logs the permanent error, and
    still fetches three times, sleeping 2000 ms and 4000 ms in between,
    before it rejects. *)
Theorem telegram_4xx_is_retried :
  let run :=
    sendTelegramMessage defaultRetryConfig scriptedFetch "TOKEN" "42" "hello" None
                        (freshState [badRequest; badRequest; badRequest]) in
  let request := mkRequest "https://api.telegram.org/botTOKEN/sendMessage"
                           "42" "hello" "HTML" in
  fetchCount (eventsOf run) = 3%nat
  /\ sleepsOf (eventsOf run) = [2000; 4000]
  /\ env (stateOf run) = []
  /\ outcomeOf run = Rejected (VError badRequestError)
  /\ firstn 6 (eventsOf run) =
       [LogTrying "Telegram 메시지 전송" 1 3; CallFn 1; Fetch request;
        LogPermanent badRequestError;
        LogRetryAfter "Telegram 메시지 전송" 1 3 2000 badRequestError;
        Sleep 2000].
Proof.
  vm_compute. repeat split.
Qed.

(** * The selector fallback resolver *)

Section SelectorFacts.
Context {E : Type}.
Variable page_waitForSelector : string -> WaitState -> Z -> Async E unit.
Variables (selectors : list string) (state : WaitState) (adaptiveTimeout : Z).

Local Abbreviation slice := (adaptiveTimeout / Z.of_nat (List.length selectors)).

(** When every remaining candidate is rejected, the loop ends in the error
    that lists all the selectors. *)
Lemma trySelectors_all_rejected remaining s s1 evs :
  AllRejected page_waitForSelector state slice remaining s s1 evs ->
  trySelectors page_waitForSelector selectors state adaptiveTimeout remaining s =
    (Rejected (VError (allSelectorsFailed selectors)), s1, evs).
Proof.
  induction 1 as [s | selector later s reason s1 evs1 s2 evs2 Hw _ IH].
  - reflexivity.
  - cbn [trySelectors]. unfold bind at 1, try_, bind at 1, emit at 1.
    rewrite Hw. unfold bind, emit. rewrite IH. reflexivity.
Qed.

(** The loop returns the first candidate whose wait is fulfilled, and waits
    for none of the candidates after it. *)
Lemma trySelectors_first_fulfilled before selector after s s1 evs1 s2 evs2 :
  AllRejected page_waitForSelector state slice before s s1 evs1 ->
  page_waitForSelector selector state slice s1 = (Fulfilled tt, s2, evs2) ->
  trySelectors page_waitForSelector selectors state adaptiveTimeout
               (before ++ selector :: after) s =
    (Fulfilled selector, s2,
     evs1 ++ [WaitForSelector selector state slice] ++ evs2 ++ [LogSelectorOk selector]).
Proof.
  intros Hall Hok.
  induction Hall as [s | c later s reason s1 evs1 s3 evs3 Hw _ IH].
  - cbn [app trySelectors]. unfold bind at 1, try_, bind at 1, emit at 1.
    rewrite Hok. reflexivity.
  - cbn [app trySelectors]. unfold bind at 1, try_, bind at 1, emit at 1.
    rewrite Hw. unfold bind, emit. rewrite (IH Hok).
    flatten_events. reflexivity.
Qed.

End SelectorFacts.

Lemma orElse_idempotent (a : option Z) (b : Z) :
  orElse (Some (orElse a b)) b = orElse a b.
Proof.
  unfold orElse. destruct a as [x|].
  - destruct (x =? 0) eqn:Hx.
    + destruct (b =? 0); reflexivity.
    + rewrite Hx. reflexivity.
  - destruct (b =? 0); reflexivity.
Qed.

(** C9, as claimed, fails. With the single candidate a, a budget of 1000 ms
    (slice 1000) and a page on which the wait for a rejects after 1001 ms,
    no candidate resolves, yet the call does not fail with the error listing
    the candidates: the timer of [withTimeoutMeasurement], armed for the whole
    budget, has already rejected with its own timeout error. *)
Lemma overall_timer_counterexample :
  let run := waitForAnySelector (pageShowing []) ["a"] (mkWaitOptions None (Some 1000))
                                (freshState tt) in
  AllRejected (pageShowing []) visible (1000 / 1) ["a"] (freshState tt)
      (mkState tt 1001 newManager)
      [WaitForSelector "a" visible 1000; LogSelectorFailed "a"]
  /\ eventsOf run = [WaitForSelector "a" visible 1000; LogSelectorFailed "a"]
  /\ outcomeOf run = Rejected (VError (newError "Operation timeout after 1000ms"))
  /\ outcomeOf run <> Rejected (VError (allSelectorsFailed ["a"])).
Proof.
  split; [|split; [|split]].
  - apply (AllRejected_cons (pageShowing []) visible 1000 "a" [] (freshState tt)
             (VError (mkError "TimeoutError" "page.waitForSelector: Timeout exceeded"))
             (mkState tt 1001 newManager) [] (mkState tt 1001 newManager) []).
    + reflexivity.
    + constructor.
  - vm_compute. reflexivity.
  - vm_compute. reflexivity.
  - vm_compute. discriminate.
Qed.

(** C9, amended. Let the budget be the [timeout] option, or the adaptive
    element timeout when that is absent or zero, and the slice the integer
    quotient of the budget by the number of candidates. The resolver waits
    for the candidates in list order, each with that slice and the requested
    state. When the loop settles before the whole budget has elapsed on the
    clock: if the waits for the candidates before some candidate reject and
    the wait for that candidate is fulfilled, the call returns that candidate
    and waits for no later one; if the waits for all candidates reject, the
    call fails with the error listing all candidates. When the loop takes
    longer than the whole budget, however it would have ended, the call fails
    with the timeout error of [withTimeoutMeasurement], Operation timeout
    after <budget>ms, instead. *)
Theorem waitForAnySelector_within_budget {E}
    (page_waitForSelector : string -> WaitState -> Z -> Async E unit)
    (selectors : list string) (options : WaitOptions) (s : State E) :
  let budget := orElse (optTimeout options) (getAdaptiveTimeout (manager s) "element") in
  let state := defaultTo (optState options) visible in
  let slice := budget / Z.of_nat (List.length selectors) in
  (forall before selector after s1 evs1 s2 evs2,
     selectors = before ++ selector :: after ->
     AllRejected page_waitForSelector state slice before s s1 evs1 ->
     page_waitForSelector selector state slice s1 = (Fulfilled tt, s2, evs2) ->
     clock s2 - clock s < budget ->
     waitForAnySelector page_waitForSelector selectors options s =
       (Fulfilled selector, measured s s2 true,
        evs1 ++ [WaitForSelector selector state slice] ++ evs2 ++
        [LogSelectorOk selector]))
  /\ (forall s1 evs1,
        AllRejected page_waitForSelector state slice selectors s s1 evs1 ->
        clock s1 - clock s < budget ->
        waitForAnySelector page_waitForSelector selectors options s =
          (Rejected (VError (allSelectorsFailed selectors)), measured s s1 false, evs1))
  /\ (forall outcome s1 evs1,
        trySelectors page_waitForSelector selectors state budget selectors s =
          (outcome, s1, evs1) ->
        budget < clock s1 - clock s ->
        outcomeOf (waitForAnySelector page_waitForSelector selectors options s) =
          Rejected (VError (newError ("Operation timeout after " ++ showZ budget ++ "ms")))).
Proof.
  intros budget state slice. split; [|split].
  - intros before selector after s1 evs1 s2 evs2 Hsel Hall Hok Htime.
    unfold waitForAnySelector. unfold bind at 1, getInstance at 1.
    fold budget state.
    pose proof (trySelectors_first_fulfilled page_waitForSelector selectors state budget
                  before selector after s s1 evs1 s2 evs2 Hall Hok) as Hrun.
    rewrite <- Hsel in Hrun.
    rewrite (withTimeoutMeasurement_in_time _ _ _ _ _ _ _ Hrun).
    + reflexivity.
    + cbn [manager]. unfold budget. rewrite orElse_idempotent. exact Htime.
  - intros s1 evs1 Hall Htime.
    unfold waitForAnySelector. unfold bind at 1, getInstance at 1.
    fold budget state.
    pose proof (trySelectors_all_rejected page_waitForSelector selectors state budget
                  selectors s s1 evs1 Hall) as Hrun.
    rewrite (withTimeoutMeasurement_in_time _ _ _ _ _ _ _ Hrun).
    + reflexivity.
    + cbn [manager]. unfold budget. rewrite orElse_idempotent. exact Htime.
  - intros outcome s1 evs1 Hrun Hlate.
    unfold waitForAnySelector. unfold bind at 1, getInstance at 1.
    fold budget state.
    rewrite (withTimeoutMeasurement_overrun _ _ _ _ _ _ _ Hrun).
    + cbn [manager outcomeOf fst]. unfold budget. rewrite orElse_idempotent.
      reflexivity.
    + cbn [manager]. unfold budget. rewrite orElse_idempotent. fold budget. lia.
Qed.

Lemma waitForAnySelector_within_budget_witness :
  let page := pageShowing ["b"; "c"] in
  let s1 := mkState tt 1001 newManager in
  let s2 := mkState tt 1011 newManager in
  AllRejected page visible 1000 ["a"] (freshState tt) s1
    [WaitForSelector "a" visible 1000; LogSelectorFailed "a"]
  /\ page "b" visible 1000 s1 = (Fulfilled tt, s2, [])
  /\ clock s2 - clock (freshState tt) < 3000
  /\ waitForAnySelector page ["a"; "b"; "c"] (mkWaitOptions None (Some 3000)) (freshState tt)
     = (Fulfilled "b", measured (freshState tt) s2 true,
        [WaitForSelector "a" visible 1000; LogSelectorFailed "a";
         WaitForSelector "b" visible 1000; LogSelectorOk "b"]).
Proof.
  intros page s1 s2.
  assert (Hall : AllRejected page visible 1000 ["a"] (freshState tt) s1
                   [WaitForSelector "a" visible 1000; LogSelectorFailed "a"]).
  { apply (AllRejected_cons page visible 1000 "a" [] (freshState tt)
             (VError (mkError "TimeoutError" "page.waitForSelector: Timeout exceeded"))
             s1 [] s1 []).
    - reflexivity.
    - constructor. }
  split; [exact Hall|]. split; [reflexivity|]. split; [reflexivity|].
  apply (proj1 (waitForAnySelector_within_budget page ["a"; "b"; "c"]
                  (mkWaitOptions None (Some 3000)) (freshState tt))
               ["a"] "b" ["c"] s1
               [WaitForSelector "a" visible 1000; LogSelectorFailed "a"] s2 []).
  - reflexivity.
  - exact Hall.
  - reflexivity.
  - reflexivity.
Defined.

(** * More on the retriers *)

Lemma callCount_app (xs ys : list Event) :
  callCount (xs ++ ys) = (callCount xs + callCount ys)%nat.
Proof. unfold callCount. rewrite filter_app, length_app. reflexivity. Qed.

Lemma fetchCount_app (xs ys : list Event) :
  fetchCount (xs ++ ys) = (fetchCount xs + fetchCount ys)%nat.
Proof. unfold fetchCount. rewrite filter_app, length_app. reflexivity. Qed.

Lemma sleepsOf_app (xs ys : list Event) :
  sleepsOf (xs ++ ys) = sleepsOf xs ++ sleepsOf ys.
Proof.
  induction xs as [|ev xs IH]; [reflexivity|].
  destruct ev; cbn [app sleepsOf]; rewrite IH; reflexivity.
Qed.

Lemma range_length (lo hi : Z) : List.length (range lo hi) = Z.to_nat (hi - lo + 1).
Proof. unfold range. rewrite length_map, length_seq. reflexivity. Qed.

Lemma backoff_capped (baseDelay backoffMultiplier maxDelay attempt : Z) :
  backoff baseDelay backoffMultiplier maxDelay attempt <= maxDelay.
Proof. unfold backoff. apply Z.le_min_r. Qed.

Section RetryRuns.
Context {E T : Type}.
Variable fn : Async E T.
Variables (maxRetries baseDelay maxDelay backoffMultiplier : Z) (operation : string).

Local Abbreviation loop :=
  (retryLoop fn maxRetries baseDelay maxDelay backoffMultiplier operation).

(** The loop entered at an attempt not above [maxRetries] ends with an
    outcome of the wrapped function. *)
Lemma retryLoop_fromAction (n : nat) : forall attempt lastError s,
  Z.of_nat n = maxRetries - attempt ->
  fromAction fn (outcomeOf (loop (range attempt maxRetries) lastError s)).
Proof.
  induction n as [|n IH]; intros attempt lastError s Hn;
    rewrite (range_cons attempt maxRetries) by lia;
    destruct (fn s) as [[[result | error] s1] evs1] eqn:Hfn.
  - rewrite (retryLoop_fulfilled _ _ _ _ _ _ _ _ _ _ _ _ _ Hfn). cbn.
    exists s, s1, evs1. exact Hfn.
  - rewrite (retryLoop_final _ _ _ _ _ _ _ _ _ _ _ _ _ Hfn) by lia. cbn.
    exists s, error, s1, evs1. split; [exact Hfn | reflexivity].
  - rewrite (retryLoop_fulfilled _ _ _ _ _ _ _ _ _ _ _ _ _ Hfn). cbn.
    exists s, s1, evs1. exact Hfn.
  - rewrite (retryLoop_retry _ _ _ _ _ _ _ _ _ _ _ _ _ Hfn) by lia.
    set (delay := backoff _ _ _ _).
    assert (Hn' : Z.of_nat n = maxRetries - (attempt + 1)) by lia.
    specialize (IH (attempt + 1) (asError error) (slept delay s1) Hn').
    destruct (loop (range (attempt + 1) maxRetries) (asError error) (slept delay s1))
      as [[o s2] evs2].
    exact IH.
Qed.

(** The loop never invokes the wrapped function more often than it has
    attempts left. *)
Lemma retryLoop_call_bound attempts : forall lastError s,
  (forall s0, callCount (eventsOf (fn s0)) = 0%nat) ->
  (callCount (eventsOf (loop attempts lastError s)) <= List.length attempts)%nat.
Proof.
  induction attempts as [|attempt later IH]; intros lastError s Hquiet.
  - cbn. lia.
  - pose proof (Hquiet s) as Hq.
    destruct (fn s) as [[[result | error] s1] evs1] eqn:Hfn; cbn [eventsOf snd] in Hq.
    + rewrite (retryLoop_fulfilled _ _ _ _ _ _ _ _ _ _ _ _ _ Hfn).
      cbn [eventsOf snd]. rewrite !callCount_app, Hq.
      destruct (attempt >? 1); cbn; lia.
    + destruct (Z.eq_dec attempt maxRetries) as [Heq | Hne].
      * rewrite (retryLoop_final _ _ _ _ _ _ _ _ _ _ _ _ _ Hfn Heq).
        cbn [eventsOf snd]. rewrite !callCount_app, Hq. cbn. lia.
      * rewrite (retryLoop_retry _ _ _ _ _ _ _ _ _ _ _ _ _ Hfn Hne), eventsOf_prepend.
        rewrite !callCount_app, Hq.
        specialize (IH (asError error)
                       (slept (backoff baseDelay backoffMultiplier maxDelay attempt) s1)
                       Hquiet).
        cbn in *. lia.
Qed.

(** Against a function that rejects at every call, the loop entered at
    [attempt] runs one attempt for each remaining value of the counter: every
    attempt but the last ends in the backoff sleep, the last in the final
    failure, whose reason is rethrown as an Error. *)
Lemma retryLoop_rejecting_run (n : nat) : forall attempt lastError s,
  (forall s0, exists reason s1 evs, fn s0 = (Rejected reason, s1, evs)) ->
  Z.of_nat n = maxRetries - attempt ->
  exists (earlier : list RejectedCall) (final : RejectedCall),
    List.length earlier = n
    /\ Forall (rejectionOf fn) (earlier ++ [final])
    /\ eventsOf (loop (range attempt maxRetries) lastError s) =
         List.concat (map (retriedAttempt operation maxRetries
                        (backoff baseDelay backoffMultiplier maxDelay))
                     (combine (range attempt (maxRetries - 1)) earlier))
         ++ finalAttempt operation maxRetries final
    /\ outcomeOf (loop (range attempt maxRetries) lastError s) =
         Rejected (VError (asError (snd final))).
Proof.
  induction n as [|n IH]; intros attempt lastError s Hrej Hn;
    rewrite (range_cons attempt maxRetries) by lia;
    destruct (Hrej s) as (reason & s1 & evs & Hfn).
  - assert (Heq : attempt = maxRetries) by lia.
    rewrite (retryLoop_final _ _ _ _ _ _ _ _ _ _ _ _ _ Hfn Heq).
    exists [], (evs, reason). split; [reflexivity|]. split; [|split].
    + constructor; [|constructor]. exists s, s1. exact Hfn.
    + rewrite range_empty by lia. subst attempt. reflexivity.
    + reflexivity.
  - assert (Hne : attempt <> maxRetries) by lia.
    rewrite (retryLoop_retry _ _ _ _ _ _ _ _ _ _ _ _ _ Hfn Hne).
    assert (Hn' : Z.of_nat n = maxRetries - (attempt + 1)) by lia.
    destruct (IH (attempt + 1) (asError reason)
                 (slept (backoff baseDelay backoffMultiplier maxDelay attempt) s1)
                 Hrej Hn') as (earlier & final & Hlen & Hfrom & Hevs & Hout).
    exists ((evs, reason) :: earlier), final.
    split; [cbn; lia|]. split; [|split].
    + cbn [app]. constructor; [|exact Hfrom]. exists s, s1. exact Hfn.
    + rewrite eventsOf_prepend, Hevs.
      rewrite (range_cons attempt (maxRetries - 1)) by lia.
      cbn [combine map List.concat]. symmetry. rewrite <- app_assoc. reflexivity.
    + rewrite outcomeOf_prepend. exact Hout.
Qed.

End RetryRuns.

Section RestartRuns.
Context {E T : Type}.
Variables (cfg : RetryConfig) (fn : Async E T) (browserRestartFn : Async E unit).
Variables (maxRetries : Z) (operation : string).

Local Abbreviation loop := (restartLoop cfg fn browserRestartFn maxRetries operation).

(** Against a workflow that rejects at every call and a restart callback
    whose failures the logger can read, the process loop runs one attempt for
    each remaining value of the counter: every attempt but the last goes
    through one restart and one sleep of the configured base delay. *)
Lemma restartLoop_rejecting_run (n : nat) : forall attempt lastError s,
  (forall s0, exists reason s1 evs, fn s0 = (Rejected reason, s1, evs)) ->
  (forall s0 restartError s1 evs,
     browserRestartFn s0 = (Rejected restartError, s1, evs) ->
     loggable restartError = true) ->
  Z.of_nat n = maxRetries - attempt ->
  exists (earlier : list (RejectedCall * RestartCall)) (final : RejectedCall),
    List.length earlier = n
    /\ Forall (fun both => rejectionOf fn (fst both)
                           /\ restartOf browserRestartFn (snd both)
                           /\ survivable (snd both) = true) earlier
    /\ rejectionOf fn final
    /\ eventsOf (loop (range attempt maxRetries) lastError s) =
         List.concat (map (restartedAttempt operation maxRetries (baseDelay cfg))
                     (combine (range attempt (maxRetries - 1)) earlier))
         ++ finalAttempt operation maxRetries final
    /\ outcomeOf (loop (range attempt maxRetries) lastError s) =
         Rejected (VError (asError (snd final))).
Proof.
  induction n as [|n IH]; intros attempt lastError s Hrej Hlog Hn;
    rewrite (range_cons attempt maxRetries) by lia;
    destruct (Hrej s) as (reason & s1 & evs & Hfn).
  - assert (Heq : attempt = maxRetries) by lia.
    rewrite (restartLoop_final _ _ _ _ _ _ _ _ _ _ _ _ Hfn Heq).
    exists [], (evs, reason). split; [reflexivity|]. split; [constructor|].
    split; [exists s, s1; exact Hfn|]. split.
    + rewrite range_empty by lia. subst attempt. reflexivity.
    + reflexivity.
  - assert (Hne : attempt <> maxRetries) by lia.
    destruct (browserRestartFn s1) as [[restarted s2] revs] eqn:Hr.
    assert (Hok : forall restartError,
              restarted = Rejected restartError -> loggable restartError = true).
    { intros restartError ->. exact (Hlog _ _ _ _ Hr). }
    rewrite (restartLoop_restart _ _ _ _ _ _ _ _ _ _ _ _ _ _ _ Hfn Hne Hr Hok).
    assert (Hn' : Z.of_nat n = maxRetries - (attempt + 1)) by lia.
    destruct (IH (attempt + 1) (asError reason) (slept (baseDelay cfg) s2)
                 Hrej Hlog Hn') as (earlier & final & Hlen & Hfrom & Hfinal & Hevs & Hout).
    exists (((evs, reason), (revs, restarted)) :: earlier), final.
    split; [cbn; lia|]. split; [|split; [exact Hfinal|split]].
    + constructor; [|exact Hfrom]. cbn [fst snd]. split; [|split].
      * exists s, s1. exact Hfn.
      * exists s1, s2. exact Hr.
      * unfold survivable. cbn [snd].
        destruct restarted as [u | restartError]; [reflexivity|].
        apply Hok. reflexivity.
    + rewrite eventsOf_prepend, Hevs.
      rewrite (range_cons attempt (maxRetries - 1)) by lia.
      cbn [combine map List.concat]. symmetry. rewrite <- app_assoc. reflexivity.
    + rewrite outcomeOf_prepend. exact Hout.
Qed.

End RestartRuns.

(** X1. With at least one attempt allowed, the outcome of [withRetry] is an
    outcome of the wrapped action: a value it was fulfilled with, or the
    Error made of a reason it rejected with. In particular [withRetry] never
    rejects with anything but an Error instance, and the No attempts made
    error after the loop is out of reach. *)
Theorem withRetry_outcome_from_action {E T} (cfg : RetryConfig) (fn : Async E T)
    (options : RetryOptions) (s : State E) :
  1 <= resolvedMaxRetries cfg options ->
  fromAction fn (outcomeOf (withRetry cfg fn options s))
  /\ forall reason,
       outcomeOf (withRetry cfg fn options s) = Rejected reason ->
       exists e, reason = VError e.
Proof.
  intro Hmax. unfold withRetry. fold (resolvedMaxRetries cfg options).
  set (run := retryLoop _ _ _ _ _ _ _ _ _).
  assert (H : fromAction fn (outcomeOf run)).
  { subst run.
    apply (retryLoop_fromAction fn _ _ _ _ _
             (Z.to_nat (resolvedMaxRetries cfg options - 1))). lia. }
  split; [exact H|].
  intros reason Hr. rewrite Hr in H. cbn in H.
  destruct H as (s0 & error & s1 & evs & _ & ->). eexists. reflexivity.
Qed.

Lemma withRetry_outcome_from_action_witness :
  1 <= resolvedMaxRetries defaultRetryConfig noOptions
  /\ fromAction failsOnce
       (outcomeOf (withRetry defaultRetryConfig failsOnce noOptions (freshState 0%nat))).
Proof.
  split; [vm_compute; discriminate|].
  apply (withRetry_outcome_from_action defaultRetryConfig failsOnce noOptions
           (freshState 0%nat)).
  vm_compute. discriminate.
Defined.

(** X2. Whatever the action does, [withRetry] invokes it at most [maxRetries]
    times (the action itself recording no invocation). *)
Theorem withRetry_call_bound {E T} (cfg : RetryConfig) (fn : Async E T)
    (options : RetryOptions) (s : State E) :
  (forall s0, callCount (eventsOf (fn s0)) = 0%nat) ->
  (callCount (eventsOf (withRetry cfg fn options s))
     <= Z.to_nat (resolvedMaxRetries cfg options))%nat.
Proof.
  intro Hquiet. unfold withRetry. fold (resolvedMaxRetries cfg options).
  eapply Nat.le_trans; [apply retryLoop_call_bound; exact Hquiet|].
  rewrite range_length. lia.
Qed.

Lemma withRetry_call_bound_witness :
  (forall s0, callCount (eventsOf (failsOnce s0)) = 0%nat)
  /\ (callCount (eventsOf (withRetry defaultRetryConfig failsOnce noOptions
                             (freshState 0%nat))) <= 3)%nat.
Proof.
  assert (H : forall s0, callCount (eventsOf (failsOnce s0)) = 0%nat).
  { intro s0. unfold failsOnce. destruct (env s0); reflexivity. }
  split; [exact H|].
  apply (withRetry_call_bound defaultRetryConfig failsOnce noOptions (freshState 0%nat) H).
Defined.

(** X3. For every retry policy that allows at least one attempt, against an
    action that rejects at every call, whatever else the action does, the
    run of [withRetry] is attempt 1 to attempt [maxRetries] in turn, each
    with exactly one invocation of the action: every attempt k before the
    last ends in the retry message and a sleep of
    [min(baseDelay * backoffMultiplier^(k-1), maxDelay)], the last one in the
    final-failure message without a sleep. The call rejects with the Error
    made of the last reason, and no delay exceeds [maxDelay]. *)
Theorem withRetry_rejecting_run {E T} (cfg : RetryConfig) (fn : Async E T)
    (options : RetryOptions) (s : State E) :
  (forall s0, exists reason s1 evs, fn s0 = (Rejected reason, s1, evs)) ->
  1 <= resolvedMaxRetries cfg options ->
  let maxRetries := resolvedMaxRetries cfg options in
  let operation := defaultTo (optOperation options) defaultOperationLabel in
  let run := withRetry cfg fn options s in
  exists (earlier : list RejectedCall) (final : RejectedCall),
    List.length earlier = Z.to_nat (maxRetries - 1)
    /\ Forall (rejectionOf fn) (earlier ++ [final])
    /\ eventsOf run =
         List.concat (map (retriedAttempt operation maxRetries (resolvedBackoff cfg options))
                          (combine (range 1 (maxRetries - 1)) earlier))
         ++ finalAttempt operation maxRetries final
    /\ outcomeOf run = Rejected (VError (asError (snd final)))
    /\ forall attempt,
         resolvedBackoff cfg options attempt <= defaultTo (optMaxDelay options) (maxDelay cfg).
Proof.
  intros Hrej Hpos maxRetries operation run. subst run. unfold withRetry.
  fold (resolvedMaxRetries cfg options). fold maxRetries. fold operation.
  destruct (retryLoop_rejecting_run fn maxRetries
              (defaultTo (optBaseDelay options) (baseDelay cfg))
              (defaultTo (optMaxDelay options) (maxDelay cfg))
              (defaultTo (optBackoffMultiplier options) (backoffMultiplier cfg))
              operation (Z.to_nat (maxRetries - 1)) 1 noAttemptsMade s Hrej)
    as (earlier & final & Hlen & Hfrom & Hevs & Hout); [subst maxRetries; lia|].
  exists earlier, final.
  split; [exact Hlen|]. split; [exact Hfrom|]. split; [exact Hevs|].
  split; [exact Hout|].
  intro attempt. apply backoff_capped.
Qed.

Lemma withRetry_rejecting_run_witness :
  let fn : Async unit string := sendOnce alwaysBadRequest "TOKEN" "42" "hello" "HTML" in
  let options := mkRetryOptions (Some 6) None None None None in
  let run := withRetry defaultRetryConfig fn options (freshState tt) in
  (forall s0, exists reason s1 evs, fn s0 = (Rejected reason, s1, evs))
  /\ 1 <= resolvedMaxRetries defaultRetryConfig options
  /\ exists (earlier : list RejectedCall) (final : RejectedCall),
       List.length earlier = 5%nat
       /\ Forall (rejectionOf fn) (earlier ++ [final])
       /\ eventsOf run =
            List.concat (map (retriedAttempt defaultOperationLabel 6
                                (resolvedBackoff defaultRetryConfig options))
                             (combine [1; 2; 3; 4; 5] earlier))
            ++ finalAttempt defaultOperationLabel 6 final
       /\ outcomeOf run = Rejected (VError (asError (snd final)))
       /\ forall attempt, resolvedBackoff defaultRetryConfig options attempt <= 10000.
Proof.
  intros fn options run.
  assert (H : forall s0, exists reason s1 evs, fn s0 = (Rejected reason, s1, evs)).
  { intro s0. eexists _, _, _. reflexivity. }
  split; [exact H|]. split; [cbn; lia|].
  apply (withRetry_rejecting_run defaultRetryConfig fn options (freshState tt) H).
  cbn. lia.
Defined.

(** X4. When the action rejects at its first call and is fulfilled at the
    second, [withRetry] (with at least two attempts allowed) returns that
    value after exactly two invocations and one sleep of the first backoff
    delay, and logs the recovery. *)
Theorem withRetry_recovers_on_second_attempt {E T} (cfg : RetryConfig) (fn : Async E T)
    (options : RetryOptions) (s s1 s2 : State E) (error : JsValue) (result : T)
    (evs1 evs2 : list Event) :
  2 <= resolvedMaxRetries cfg options ->
  fn s = (Rejected error, s1, evs1) ->
  fn (slept (resolvedBackoff cfg options 1) s1) = (Fulfilled result, s2, evs2) ->
  let maxRetries := resolvedMaxRetries cfg options in
  let operation := defaultTo (optOperation options) defaultOperationLabel in
  let delay := resolvedBackoff cfg options 1 in
  withRetry cfg fn options s =
    (Fulfilled result, s2,
     [LogTrying operation 1 maxRetries; CallFn 1] ++ evs1 ++
     [LogRetryAfter operation 1 maxRetries delay (asError error); Sleep delay;
      LogTrying operation 2 maxRetries; CallFn 2] ++ evs2 ++
     [LogRecovered operation 2]).
Proof.
  intros Hmax H1 H2 maxRetries operation delay. unfold withRetry.
  fold (resolvedMaxRetries cfg options). fold maxRetries operation.
  rewrite (range_cons 1 maxRetries) by (subst maxRetries; lia).
  rewrite (range_cons (1 + 1) maxRetries) by (subst maxRetries; lia).
  rewrite (retryLoop_retry _ _ _ _ _ _ _ _ _ _ _ _ _ H1) by (subst maxRetries; lia).
  fold (resolvedBackoff cfg options 1). fold delay.
  rewrite (retryLoop_fulfilled _ _ _ _ _ _ _ _ _ _ _ _ _ H2).
  cbn [prepend]. change (1 + 1) with 2. change (2 >? 1) with true.
  flatten_events. reflexivity.
Qed.

Lemma withRetry_recovers_on_second_attempt_witness :
  2 <= resolvedMaxRetries defaultRetryConfig noOptions
  /\ outcomeOf (withRetry defaultRetryConfig failsOnce noOptions (freshState 0%nat))
     = Fulfilled 7
  /\ sleepsOf (eventsOf (withRetry defaultRetryConfig failsOnce noOptions
                           (freshState 0%nat))) = [2000].
Proof.
  split; [vm_compute; discriminate|].
  rewrite (withRetry_recovers_on_second_attempt defaultRetryConfig failsOnce noOptions
             (freshState 0%nat) (mkState 1%nat 0 newManager)
             (mkState 2%nat 2000 newManager)
             (VError (newError "net::ERR_TIMED_OUT")) 7 [] []).
  - split; reflexivity.
  - vm_compute. discriminate.
  - reflexivity.
  - reflexivity.
Defined.

(** X5. Against a workflow that rejects at every call, whatever else it
    does, and a restart callback that is fulfilled or rejects with a value
    the logger can read (an Error instance), the run of [withBrowserRestart]
    with at least one attempt allowed is attempt 1 to attempt [maxRetries]
    in turn, each with exactly one invocation of the workflow: every attempt
    before the last goes on with the restart message, one call of the
    restart callback, the message about its failure if it failed, and one
    sleep of the configured base delay, whatever delays the options carry;
    the last attempt ends in the final-failure message. The call rejects
    with the Error made of the last reason of the workflow. *)
Theorem withBrowserRestart_rejecting_run {E T} (cfg : RetryConfig) (fn : Async E T)
    (browserRestartFn : Async E unit) (options : RetryOptions) (s : State E) :
  (forall s0, exists reason s1 evs, fn s0 = (Rejected reason, s1, evs)) ->
  (forall s0 restartError s1 evs,
     browserRestartFn s0 = (Rejected restartError, s1, evs) ->
     loggable restartError = true) ->
  1 <= defaultTo (optMaxRetries options) (maxProcessRetries cfg) ->
  let maxRetries := defaultTo (optMaxRetries options) (maxProcessRetries cfg) in
  let operation := defaultTo (optOperation options) defaultProcessLabel in
  let run := withBrowserRestart cfg fn browserRestartFn options s in
  exists (earlier : list (RejectedCall * RestartCall)) (final : RejectedCall),
    List.length earlier = Z.to_nat (maxRetries - 1)
    /\ Forall (fun both => rejectionOf fn (fst both)
                           /\ restartOf browserRestartFn (snd both)
                           /\ survivable (snd both) = true) earlier
    /\ rejectionOf fn final
    /\ eventsOf run =
         List.concat (map (restartedAttempt operation maxRetries (baseDelay cfg))
                          (combine (range 1 (maxRetries - 1)) earlier))
         ++ finalAttempt operation maxRetries final
    /\ outcomeOf run = Rejected (VError (asError (snd final))).
Proof.
  intros Hrej Hlog Hpos maxRetries operation run. subst run. unfold withBrowserRestart.
  fold maxRetries. fold operation.
  apply (restartLoop_rejecting_run cfg fn browserRestartFn maxRetries operation
           (Z.to_nat (maxRetries - 1)) 1 noAttemptsMade s Hrej Hlog).
  subst maxRetries. lia.
Qed.

Lemma withBrowserRestart_rejecting_run_witness :
  let options := mkRetryOptions (Some 4) (Some 500) (Some 900) (Some 3) None in
  let run := withBrowserRestart defaultRetryConfig stuckWorkflow failingRestart options
               (freshState tt) in
  (forall s0, exists reason s1 evs, stuckWorkflow s0 = (Rejected reason, s1, evs))
  /\ (forall s0 restartError s1 evs,
        failingRestart s0 = (Rejected restartError, s1, evs) ->
        loggable restartError = true)
  /\ 1 <= 4
  /\ exists (earlier : list (RejectedCall * RestartCall)) (final : RejectedCall),
       List.length earlier = 3%nat
       /\ Forall (fun both => rejectionOf stuckWorkflow (fst both)
                              /\ restartOf failingRestart (snd both)
                              /\ survivable (snd both) = true) earlier
       /\ rejectionOf stuckWorkflow final
       /\ eventsOf run =
            List.concat (map (restartedAttempt defaultProcessLabel 4 2000)
                             (combine [1; 2; 3] earlier))
            ++ finalAttempt defaultProcessLabel 4 final
       /\ outcomeOf run = Rejected (VError (asError (snd final))).
Proof.
  intros options run.
  assert (H1 : forall s0, exists reason s1 evs,
                 stuckWorkflow s0 = (Rejected reason, s1, evs)).
  { intro s0. eexists _, _, _. reflexivity. }
  assert (H2 : forall s0 restartError s1 evs,
                 failingRestart s0 = (Rejected restartError, s1, evs) ->
                 loggable restartError = true).
  { intros s0 restartError s1 evs Hr. injection Hr as <- _ _. reflexivity. }
  split; [exact H1|]. split; [exact H2|]. split; [lia|].
  apply (withBrowserRestart_rejecting_run defaultRetryConfig stuckWorkflow failingRestart
           options (freshState tt) H1 H2).
  cbn. lia.
Defined.

(** X6. With a base delay that is not negative and a multiplier of at least
    one, the delay [withRetry] computes never shrinks from one attempt to
    the next, and it never exceeds [maxDelay]. *)
Theorem backoff_nondecreasing (cfg : RetryConfig) (options : RetryOptions) (attempt : Z) :
  0 <= defaultTo (optBaseDelay options) (baseDelay cfg) ->
  1 <= defaultTo (optBackoffMultiplier options) (backoffMultiplier cfg) ->
  1 <= attempt ->
  resolvedBackoff cfg options attempt <= resolvedBackoff cfg options (attempt + 1)
  /\ resolvedBackoff cfg options (attempt + 1)
       <= defaultTo (optMaxDelay options) (maxDelay cfg).
Proof.
  intros Hb Hm Ha. unfold resolvedBackoff. split; [|apply backoff_capped].
  unfold backoff. apply Z.min_le_compat_r.
  replace (attempt + 1 - 1) with (Z.succ (attempt - 1)) by lia.
  rewrite Z.pow_succ_r by lia.
  set (b := defaultTo (optBaseDelay options) (baseDelay cfg)) in *.
  set (m := defaultTo (optBackoffMultiplier options) (backoffMultiplier cfg)) in *.
  assert (0 <= m ^ (attempt - 1)) by (apply Z.pow_nonneg; lia).
  nia.
Qed.

Lemma backoff_nondecreasing_witness :
  0 <= defaultTo (optBaseDelay noOptions) (baseDelay defaultRetryConfig)
  /\ 1 <= defaultTo (optBackoffMultiplier noOptions) (backoffMultiplier defaultRetryConfig)
  /\ 1 <= 3
  /\ resolvedBackoff defaultRetryConfig noOptions 3
       <= resolvedBackoff defaultRetryConfig noOptions (3 + 1).
Proof.
  split; [vm_compute; discriminate|]. split; [vm_compute; discriminate|].
  split; [lia|].
  apply (backoff_nondecreasing defaultRetryConfig noOptions 3);
    vm_compute; discriminate.
Defined.

(** * More on the estimator *)

Lemma successfulDurations_length (calls : list (Q * bool)) :
  (List.length (successfulDurations calls) <= List.length calls)%nat.
Proof.
  unfold successfulDurations. rewrite length_map. apply filter_length_le.
Qed.

(** The success rate after a run on a fresh estimator, in closed form. *)
Lemma recordAll_rate (calls : list (Q * bool)) :
  calls <> [] ->
  successRate (metrics (recordAll newManager calls)) =
    (inject_Z (Z.of_nat (Nat.min 10 (List.length (successfulDurations calls)))) /
     inject_Z (Z.min 10 (Z.of_nat (List.length calls))))%Q.
Proof.
  destruct calls as [|c calls] using rev_ind; [congruence|]. intros _.
  pose proof (recordAll_window (calls ++ [c])) as Hw.
  pose proof (recordAll_count newManager (calls ++ [c])) as Hc.
  rewrite recordAll_snoc in *.
  rewrite (recordMeasurement_rate (recordAll newManager calls)).
  cbv zeta. rewrite Hw, Hc, recordAll_config.
  unfold len. rewrite lastN_length. reflexivity.
Qed.

Lemma recordMeasurement_average this responseTime success :
  averageResponseTime (metrics (recordMeasurement this responseTime success)) =
  if success then
    let kept := lastMeasurements (metrics (recordMeasurement this responseTime success)) in
    (sumOf kept / inject_Z (len kept))%Q
  else averageResponseTime (metrics this).
Proof. unfold recordMeasurement. destruct success; reflexivity. Qed.

Lemma clamp_exact (v : Z) (q : Q) :
  5000 <= v <= 30000 -> (q == inject_Z v)%Q ->
  Math_round (Qmax (inject_Z (minTimeout defaultConfig))
                   (Qmin (inject_Z (maxTimeout defaultConfig)) q)) = v.
Proof.
  intros [Hlo Hhi] Hq. apply Z.le_antisymm.
  - apply Math_round_upper. apply Q.max_lub.
    + rewrite <- Zle_Qle. exact Hlo.
    + eapply Qle_trans; [apply Q.le_min_r|]. rewrite Hq. apply Qle_refl.
  - apply Math_round_lower. eapply Qle_trans; [|apply Q.le_max_r].
    apply Q.min_glb.
    + rewrite <- Zle_Qle. exact Hhi.
    + rewrite Hq. apply Qle_refl.
Qed.

(** X7. After any non-empty sequence of [recordMeasurement] calls on a fresh
    estimator, [successRate] lies between 0 and 1. *)
Theorem successRate_in_unit_interval (calls : list (Q * bool)) :
  calls <> [] ->
  (0 <= successRate (metrics (recordAll newManager calls)) <= 1)%Q.
Proof.
  intro Hne. rewrite (recordAll_rate calls Hne).
  pose proof (successfulDurations_length calls) as Hlen.
  assert (Hpos : (0 < List.length calls)%nat).
  { destruct calls; [congruence | cbn; lia]. }
  set (a := Z.of_nat (Nat.min 10 (List.length (successfulDurations calls)))).
  set (b := Z.min 10 (Z.of_nat (List.length calls))).
  assert (Ha : 0 <= a) by (subst a; lia).
  assert (Hb : 0 < b) by (subst b; lia).
  assert (Hab : a <= b) by (subst a b; lia).
  assert (HbQ : (0 < inject_Z b)%Q).
  { change (inject_Z 0 < inject_Z b)%Q. rewrite <- Zlt_Qlt. exact Hb. }
  split.
  - apply Qle_shift_div_l; [exact HbQ|]. rewrite Qmult_0_l.
    change (inject_Z 0 <= inject_Z a)%Q. rewrite <- Zle_Qle. exact Ha.
  - apply Qle_shift_div_r; [exact HbQ|]. rewrite Qmult_1_l.
    rewrite <- Zle_Qle. exact Hab.
Qed.

Lemma successRate_in_unit_interval_witness :
  [(120 # 1, true); (90 # 1, false)] <> []
  /\ (0 <= successRate (metrics (recordAll newManager [(120 # 1, true); (90 # 1, false)]))
        <= 1)%Q.
Proof.
  split; [discriminate|].
  apply (successRate_in_unit_interval [(120 # 1, true); (90 # 1, false)]).
  discriminate.
Defined.

(** X8. Failures never leave the statistics once the window is full: as soon
    as ten successes have been recorded, in any order with any number of
    failures, [successRate] is 1, because the number of kept samples is
    divided by [min(10, measurementCount)]. *)
Theorem saturated_window_hides_failures (calls : list (Q * bool)) :
  (10 <= List.length (successfulDurations calls))%nat ->
  (successRate (metrics (recordAll newManager calls)) == 1)%Q.
Proof.
  intro Hsat.
  pose proof (successfulDurations_length calls) as Hlen.
  assert (Hne : calls <> []) by (destruct calls; [cbn in Hsat; lia | discriminate]).
  rewrite (recordAll_rate calls Hne).
  replace (Nat.min 10 (List.length (successfulDurations calls))) with 10%nat by lia.
  replace (Z.min 10 (Z.of_nat (List.length calls))) with 10 by lia.
  reflexivity.
Qed.

Lemma saturated_window_hides_failures_witness :
  let calls := repeat (100 # 1, true) 10 ++ repeat (30000 # 1, false) 40 in
  (10 <= List.length (successfulDurations calls))%nat
  /\ (successRate (metrics (recordAll newManager calls)) == 1)%Q.
Proof.
  intro calls. split; [vm_compute; repeat constructor|].
  apply (saturated_window_hides_failures calls).
  vm_compute. repeat constructor.
Defined.

(** X9. After any sequence of calls on a fresh estimator,
    [averageResponseTime] is 0 as long as no call succeeded, and afterwards
    the sum of the samples in the window divided by their number. *)
Theorem average_is_window_mean (calls : list (Q * bool)) :
  let m := metrics (recordAll newManager calls) in
  averageResponseTime m =
    match successfulDurations calls with
    | [] => 0%Q
    | _ :: _ => (sumOf (lastMeasurements m) / inject_Z (len (lastMeasurements m)))%Q
    end.
Proof.
  cbv zeta. induction calls as [|[responseTime success] calls IH] using rev_ind;
    [reflexivity|].
  rewrite recordAll_snoc. cbn [fst snd].
  rewrite recordMeasurement_average, recordMeasurement_window.
  unfold successfulDurations in *. rewrite filter_app, map_app. cbn [filter snd].
  destruct success; cbn [map fst].
  - destruct (map fst (filter snd calls)); reflexivity.
  - rewrite app_nil_r. exact IH.
Qed.

(** X10. Once three measurements are in and the average latency is positive,
    the timeout of every operation type is at least 2.5 times the average
    latency, up to the cap of 30000 ms: any integer below both is below the
    timeout. *)
Theorem latency_floor (m : TimeoutMetrics) (operationType : string) (v : Z) :
  3 <= measurementCount m ->
  (0 < averageResponseTime m)%Q ->
  (inject_Z v <= averageResponseTime m * (25 # 10))%Q ->
  v <= 30000 ->
  v <= getAdaptiveTimeout (managerWith m) operationType.
Proof.
  intros Hn Hpos Hv Hcap. unfold getAdaptiveTimeout. cbn [metrics config managerWith].
  assert (G : (measurementCount m <? 3) = false) by (apply Z.ltb_ge; exact Hn).
  rewrite G. apply Qltb_true in Hpos. rewrite Hpos.
  apply Math_round_lower.
  eapply Qle_trans; [|apply Q.le_max_r].
  apply Q.min_glb.
  - rewrite <- Zle_Qle. exact Hcap.
  - eapply Qle_trans; [exact Hv | apply Q.le_max_r].
Qed.

Lemma latency_floor_witness :
  let m := metrics (recordAll newManager
             [(9000 # 1, true); (9000 # 1, true); (9000 # 1, true)]) in
  3 <= measurementCount m
  /\ (0 < averageResponseTime m)%Q
  /\ (inject_Z 22500 <= averageResponseTime m * (25 # 10))%Q
  /\ 22500 <= getAdaptiveTimeout (managerWith m) "network".
Proof.
  intro m.
  split; [vm_compute; discriminate|]. split; [vm_compute; reflexivity|].
  split; [vm_compute; discriminate|].
  apply (latency_floor m "network" 22500).
  - vm_compute. discriminate.
  - vm_compute. reflexivity.
  - vm_compute. discriminate.
  - lia.
Defined.

(** X11. Whatever the statistics, the timeout of a category never falls below
    nine tenths of that category's base timeout. *)
Theorem timeout_at_least_nine_tenths_of_base (m : TimeoutMetrics) (c : OperationType) :
  9 * categoryBase c <= 10 * getAdaptiveTimeout (managerWith m) (typeName c).
Proof.
  unfold getAdaptiveTimeout. cbn [metrics config managerWith].
  rewrite baseTimeoutFor_typeName.
  destruct (measurementCount m <? 3); [destruct c; cbn; lia|].
  set (adjusted := if Qltb (successRate m) _ then _ else _).
  set (floored := if Qltb 0 (averageResponseTime m) then _ else _).
  assert (A : (inject_Z (categoryBase c) * (9 # 10) <= adjusted)%Q).
  { subst adjusted. cbn [successThreshold failureMultiplier successMultiplier defaultConfig].
    destruct (Qltb (successRate m) (8 # 10)); [|destruct (Qltb (95 # 100) (successRate m))];
      destruct c; vm_compute; discriminate. }
  assert (F : (adjusted <= floored)%Q).
  { subst floored. destruct (Qltb 0 (averageResponseTime m)).
    - apply Q.le_max_l.
    - apply Qle_refl. }
  assert (L : forall v : Z, (inject_Z v <= inject_Z (categoryBase c) * (9 # 10))%Q ->
            v <= 30000 ->
            v <= Math_round (Qmax (inject_Z (minTimeout defaultConfig))
                       (Qmin (inject_Z (maxTimeout defaultConfig)) floored))).
  { intros v Hv Hm. apply Math_round_lower.
    eapply Qle_trans; [|apply Q.le_max_r].
    apply Q.min_glb.
    - rewrite <- Zle_Qle. exact Hm.
    - eapply Qle_trans; [exact Hv|]. eapply Qle_trans; [exact A | exact F]. }
  destruct c; cbn [categoryBase] in *.
  - enough (18000 <= Math_round (Qmax (inject_Z (minTimeout defaultConfig))
                       (Qmin (inject_Z (maxTimeout defaultConfig)) floored))) by lia.
    apply L; [vm_compute; discriminate | lia].
  - enough (13500 <= Math_round (Qmax (inject_Z (minTimeout defaultConfig))
                       (Qmin (inject_Z (maxTimeout defaultConfig)) floored))) by lia.
    apply L; [vm_compute; discriminate | lia].
  - enough (9000 <= Math_round (Qmax (inject_Z (minTimeout defaultConfig))
                       (Qmin (inject_Z (maxTimeout defaultConfig)) floored))) by lia.
    apply L; [vm_compute; discriminate | lia].
  - enough (7200 <= Math_round (Qmax (inject_Z (minTimeout defaultConfig))
                       (Qmin (inject_Z (maxTimeout defaultConfig)) floored))) by lia.
    apply L; [vm_compute; discriminate | lia].
Qed.

(** X12. With at least three measurements, a success rate above 0.95 and an
    average latency whose 2.5-fold does not exceed nine tenths of the base,
    the timeout of a category is exactly nine tenths of its base: 18000,
    13500, 9000 and 7200 ms. *)
Theorem healthy_statistics_tighten_timeout (m : TimeoutMetrics) (c : OperationType) :
  3 <= measurementCount m ->
  (95 # 100 < successRate m)%Q ->
  (averageResponseTime m * (25 # 10) <= inject_Z (categoryBase c) * (9 # 10))%Q ->
  getAdaptiveTimeout (managerWith m) (typeName c) = categoryBase c * 9 / 10.
Proof.
  intros Hn Hr Havg. unfold getAdaptiveTimeout. cbn [metrics config managerWith].
  assert (G : (measurementCount m <? 3) = false) by (apply Z.ltb_ge; exact Hn).
  rewrite G, baseTimeoutFor_typeName.
  assert (Hlow : Qltb (successRate m) (successThreshold defaultConfig) = false).
  { destruct (Qltb (successRate m) (successThreshold defaultConfig)) eqn:Hl; [|reflexivity].
    apply Qltb_true in Hl. exfalso.
    apply (Qlt_irrefl (successRate m)).
    eapply Qlt_trans; [exact Hl|]. eapply Qlt_trans; [|exact Hr]. reflexivity. }
  rewrite Hlow. apply Qltb_true in Hr. rewrite Hr.
  set (tight := (inject_Z (categoryBase c) * successMultiplier defaultConfig)%Q).
  apply clamp_exact; [destruct c; cbn; lia|].
  assert (Ht : (tight == inject_Z (categoryBase c * 9 / 10))%Q)
    by (subst tight; destruct c; reflexivity).
  destruct (Qltb 0 (averageResponseTime m)); [|exact Ht].
  rewrite <- Ht. apply Q.max_l. exact Havg.
Qed.

Lemma healthy_statistics_tighten_timeout_witness :
  let m := metrics (recordAll newManager
             [(1200 # 1, true); (800 # 1, true); (1000 # 1, true)]) in
  3 <= measurementCount m
  /\ (95 # 100 < successRate m)%Q
  /\ (averageResponseTime m * (25 # 10) <= inject_Z (categoryBase network) * (9 # 10))%Q
  /\ getAdaptiveTimeout (managerWith m) (typeName network) = 7200.
Proof.
  intro m.
  split; [vm_compute; discriminate|]. split; [vm_compute; reflexivity|].
  split; [vm_compute; discriminate|].
  apply (healthy_statistics_tighten_timeout m network).
  - vm_compute. discriminate.
  - vm_compute. reflexivity.
  - vm_compute. discriminate.
Defined.

(** X13. [resetMetrics] brings the estimator back to its initial state:
    whatever was recorded before the reset, the measurements recorded after
    it leave the estimator as they leave a fresh one. *)
Theorem reset_then_replay (before calls : list (Q * bool)) :
  recordAll (resetMetrics (recordAll newManager before)) calls = recordAll newManager calls.
Proof.
  unfold resetMetrics. rewrite recordAll_config. reflexivity.
Qed.




(** * More on the selector resolver and the notifier *)

Lemma waitsOf_app (xs ys : list Event) : waitsOf (xs ++ ys) = waitsOf xs ++ waitsOf ys.
Proof.
  induction xs as [|ev xs IH]; [reflexivity|].
  destruct ev; cbn [app waitsOf]; rewrite IH; reflexivity.
Qed.

(** The race changes the outcome at most; the events are the operation's. *)
Lemma withTimeoutMeasurement_events {E T} (operation : Async E T) (operationType : string)
    (timeoutMs : option Z) (s : State E) :
  eventsOf (withTimeoutMeasurement operation operationType timeoutMs s) =
  eventsOf (operation s).
Proof.
  destruct (operation s) as [[outcome s1] evs] eqn:Hop.
  destruct (Z.lt_ge_cases (clock s1 - clock s)
              (orElse timeoutMs (getAdaptiveTimeout (manager s) operationType)))
    as [Hin | Hout].
  - rewrite (withTimeoutMeasurement_in_time _ _ _ _ _ _ _ Hop Hin). reflexivity.
  - rewrite (withTimeoutMeasurement_overrun _ _ _ _ _ _ _ Hop) by lia. reflexivity.
Qed.

Lemma withTimeoutMeasurement_fulfilled {E T} (operation : Async E T) (operationType : string)
    (timeoutMs : option Z) (s : State E) (value : T) :
  outcomeOf (withTimeoutMeasurement operation operationType timeoutMs s) = Fulfilled value ->
  outcomeOf (operation s) = Fulfilled value.
Proof.
  destruct (operation s) as [[outcome s1] evs] eqn:Hop.
  destruct (Z.lt_ge_cases (clock s1 - clock s)
              (orElse timeoutMs (getAdaptiveTimeout (manager s) operationType)))
    as [Hin | Hout].
  - rewrite (withTimeoutMeasurement_in_time _ _ _ _ _ _ _ Hop Hin). cbn. tauto.
  - rewrite (withTimeoutMeasurement_overrun _ _ _ _ _ _ _ Hop) by lia. cbn. discriminate.
Qed.

Section SelectorRuns.
Context {E : Type}.
Variable page_waitForSelector : string -> WaitState -> Z -> Async E unit.
Variables (selectors : list string) (state : WaitState) (adaptiveTimeout : Z).

Local Abbreviation slice := (adaptiveTimeout / Z.of_nat (List.length selectors)).
Local Abbreviation run :=
  (trySelectors page_waitForSelector selectors state adaptiveTimeout).

Lemma trySelectors_cons selector later s :
  run (selector :: later) s =
    match page_waitForSelector selector state slice s with
    | (Fulfilled _, s1, evs1) =>
        (Fulfilled selector, s1,
         [WaitForSelector selector state slice] ++ evs1 ++ [LogSelectorOk selector])
    | (Rejected _, s1, evs1) =>
        prepend ([WaitForSelector selector state slice] ++ evs1 ++
                 [LogSelectorFailed selector]) (run later s1)
    end.
Proof.
  cbn [trySelectors]. unfold bind at 1, try_, bind at 1, emit at 1.
  destruct (page_waitForSelector selector state slice s) as [[[u | reason] s1] evs1].
  - unfold bind, emit, ret. flatten_events. reflexivity.
  - unfold bind, emit, prepend.
    destruct (trySelectors _ _ _ _ later s1) as [[o s2] evs2].
    flatten_events. reflexivity.
Qed.

Lemma trySelectors_member remaining : forall s selector,
  outcomeOf (run remaining s) = Fulfilled selector -> In selector remaining.
Proof.
  induction remaining as [|c later IH]; intros s selector H.
  - cbn in H. discriminate.
  - rewrite trySelectors_cons in H.
    destruct (page_waitForSelector c state slice s) as [[[u | reason] s1] evs1].
    + cbn in H. injection H as ->. left. reflexivity.
    + right. apply (IH s1).
      destruct (run later s1) as [[o s2] evs2]. exact H.
Qed.

Lemma trySelectors_waits remaining : forall s,
  (forall selector st timeout s0,
     eventsOf (page_waitForSelector selector st timeout s0) = []) ->
  exists n,
    waitsOf (eventsOf (run remaining s)) =
      map (fun selector => (selector, state, slice)) (firstn n remaining).
Proof.
  induction remaining as [|c later IH]; intros s Hquiet.
  - exists 0%nat. reflexivity.
  - rewrite trySelectors_cons. pose proof (Hquiet c state slice s) as Hq.
    destruct (page_waitForSelector c state slice s) as [[[u | reason] s1] evs1];
      cbn [eventsOf snd] in Hq; subst evs1.
    + exists 1%nat. reflexivity.
    + destruct (IH s1 Hquiet) as [n Hn]. exists (S n).
      rewrite eventsOf_prepend, waitsOf_app, Hn. reflexivity.
Qed.

End SelectorRuns.

(** X16. Whatever the page does, a selector that [waitForAnySelector] returns
    is one of the candidates it was given. *)
Theorem waitForAnySelector_returns_a_candidate {E}
    (page_waitForSelector : string -> WaitState -> Z -> Async E unit)
    (selectors : list string) (options : WaitOptions) (s : State E) (selector : string) :
  outcomeOf (waitForAnySelector page_waitForSelector selectors options s)
    = Fulfilled selector ->
  In selector selectors.
Proof.
  unfold waitForAnySelector. unfold bind at 1, getInstance at 1.
  set (op := trySelectors _ _ _ _ _).
  destruct (withTimeoutMeasurement op "element" _ s) as [[o s1] evs1] eqn:Hrun.
  cbn [outcomeOf fst app]. intro H. subst o.
  assert (Ho : outcomeOf (withTimeoutMeasurement op "element"
             (Some (orElse (optTimeout options) (getAdaptiveTimeout (manager s) "element"))) s)
             = Fulfilled selector) by (rewrite Hrun; reflexivity).
  apply withTimeoutMeasurement_fulfilled in Ho.
  subst op. eapply trySelectors_member. exact Ho.
Qed.

(** X17. In every run of [waitForAnySelector], whether it ends in a
    candidate, in the error listing the candidates or in the timeout of the
    overall timer, the waits started on the page are those for an initial
    segment of the candidate list, in list order, each candidate at most
    once, each with the requested state and the same slice of the budget. *)
Theorem waitForAnySelector_waits_in_order {E}
    (page_waitForSelector : string -> WaitState -> Z -> Async E unit)
    (selectors : list string) (options : WaitOptions) (s : State E) :
  (forall selector st timeout s0,
     eventsOf (page_waitForSelector selector st timeout s0) = []) ->
  let budget := orElse (optTimeout options) (getAdaptiveTimeout (manager s) "element") in
  let state := defaultTo (optState options) visible in
  let slice := budget / Z.of_nat (List.length selectors) in
  exists n,
    waitsOf (eventsOf (waitForAnySelector page_waitForSelector selectors options s)) =
      map (fun selector => (selector, state, slice)) (firstn n selectors).
Proof.
  intros Hquiet budget state slice.
  unfold waitForAnySelector. unfold bind at 1, getInstance at 1. fold budget state.
  set (op := trySelectors _ _ _ _ _).
  pose proof (withTimeoutMeasurement_events op "element" (Some budget) s) as Hev.
  destruct (withTimeoutMeasurement op "element" (Some budget) s) as [[o s1] evs1].
  cbn [eventsOf snd app] in *. rewrite Hev. subst op.
  apply trySelectors_waits. exact Hquiet.
Qed.

Section RetryCounting.
Context {E T : Type}.
Variable fn : Async E T.
Variables (maxRetries baseDelay maxDelay backoffMultiplier : Z) (operation : string).

Local Abbreviation loop :=
  (retryLoop fn maxRetries baseDelay maxDelay backoffMultiplier operation).

(** When every call of the function makes exactly one [fetch], the loop makes
    as many fetches as calls. *)
Lemma retryLoop_one_fetch_per_call attempts : forall lastError s,
  (forall s0, fetchCount (eventsOf (fn s0)) = 1%nat) ->
  (forall s0, callCount (eventsOf (fn s0)) = 0%nat) ->
  fetchCount (eventsOf (loop attempts lastError s)) =
  callCount (eventsOf (loop attempts lastError s)).
Proof.
  induction attempts as [|attempt later IH]; intros lastError s Hf Hc.
  - reflexivity.
  - pose proof (Hf s) as Hfs. pose proof (Hc s) as Hcs.
    destruct (fn s) as [[[result | error] s1] evs1] eqn:Hfn;
      cbn [eventsOf snd] in Hfs, Hcs.
    + rewrite (retryLoop_fulfilled _ _ _ _ _ _ _ _ _ _ _ _ _ Hfn).
      cbn [eventsOf snd]. rewrite !fetchCount_app, !callCount_app, Hfs, Hcs.
      destruct (attempt >? 1); reflexivity.
    + destruct (Z.eq_dec attempt maxRetries) as [Heq | Hne].
      * rewrite (retryLoop_final _ _ _ _ _ _ _ _ _ _ _ _ _ Hfn Heq).
        cbn [eventsOf snd]. rewrite !fetchCount_app, !callCount_app, Hfs, Hcs.
        reflexivity.
      * rewrite (retryLoop_retry _ _ _ _ _ _ _ _ _ _ _ _ _ Hfn Hne), eventsOf_prepend.
        rewrite !fetchCount_app, !callCount_app, Hfs, Hcs, (IH _ _ Hf Hc).
        reflexivity.
Qed.

End RetryCounting.

Section SendRuns.
Context {E : Type}.
Variables (cfg : RetryConfig) (fetch : Request -> Async E Response).
Variables (token chatId message parseMode : string).

Local Abbreviation request :=
  (mkRequest ("https://api.telegram.org/bot" ++ token ++ "/sendMessage")
             chatId message parseMode).

Lemma sendOnce_events (s : State E) :
  eventsOf (fetch request s) = [] ->
  exists logged,
    eventsOf (sendOnce fetch token chatId message parseMode s) = Fetch request :: logged
    /\ fetchCount logged = 0%nat /\ callCount logged = 0%nat.
Proof.
  intro Hq. unfold sendOnce, bind at 1, bind at 1, emit at 1.
  destruct (fetch request s) as [[[response | reason] s1] evs1];
    cbn [eventsOf snd] in Hq; subst evs1.
  - destruct (negb (ok response)).
    + destruct ((status response >=? 400) && (status response <? 500));
        unfold bind, emit, throw; cbn [eventsOf snd app];
        eexists; repeat split.
    + unfold bind, settle, emit, ret, throw. destruct (bodyJson response);
        cbn [eventsOf snd app]; eexists; repeat split.
  - cbn [eventsOf snd app]. exists []. repeat split.
Qed.

Lemma sendOnce_ok (s s1 : State E) (response : Response) (evs : list Event) (json : string) :
  fetch request s = (Fulfilled response, s1, evs) ->
  ok response = true ->
  bodyJson response = Fulfilled json ->
  sendOnce fetch token chatId message parseMode s =
    (Fulfilled json, s1, [Fetch request] ++ evs ++ [LogSent]).
Proof.
  intros Hf Hok Hj. unfold sendOnce, bind at 1, bind at 1, emit at 1. rewrite Hf.
  rewrite Hok. cbn [negb]. rewrite Hj. unfold bind, settle, emit, ret.
  flatten_events. rewrite ?app_nil_r. reflexivity.
Qed.

End SendRuns.

(** X18. When the first answer of the Telegram API has a 2xx status and its
    JSON body can be read, [sendTelegramMessage] returns that body after a
    single POST, without any delay; the parse mode sent is HTML unless
    another one is given. *)
Theorem sendTelegramMessage_first_success {E} (cfg : RetryConfig)
    (fetch : Request -> Async E Response) (token chatId message : string)
    (parseMode : option string) (s s1 : State E) (response : Response)
    (evs : list Event) (json : string) :
  let request :=
    mkRequest ("https://api.telegram.org/bot" ++ token ++ "/sendMessage")
              chatId message (defaultTo parseMode "HTML") in
  1 <= maxOperationRetries cfg ->
  fetch request s = (Fulfilled response, s1, evs) ->
  200 <= status response <= 299 ->
  bodyJson response = Fulfilled json ->
  sendTelegramMessage cfg fetch token chatId message parseMode s =
    (Fulfilled json, s1,
     [LogTrying "Telegram 메시지 전송" 1 (maxOperationRetries cfg); CallFn 1;
      Fetch request] ++ evs ++ [LogSent]).
Proof.
  intros request Hmax Hf Hst Hj.
  assert (Hok : ok response = true).
  { unfold ok. apply andb_true_iff. split; apply Z.leb_le; lia. }
  pose proof (sendOnce_ok fetch token chatId message (defaultTo parseMode "HTML")
                s s1 response evs json Hf Hok Hj) as Hsend.
  unfold sendTelegramMessage, withRetry.
  cbn [defaultTo optMaxRetries optBaseDelay optMaxDelay optBackoffMultiplier optOperation].
  rewrite (range_cons 1) by lia.
  rewrite (retryLoop_fulfilled _ _ _ _ _ _ _ _ _ _ _ _ _ Hsend).
  change (1 >? 1) with false. flatten_events. rewrite ?app_nil_r. reflexivity.
Qed.

(** X19. Whatever the network answers, [sendTelegramMessage] makes one POST
    per attempt and never more than [maxOperationRetries] of them. *)
Theorem sendTelegramMessage_fetch_bound {E} (cfg : RetryConfig)
    (fetch : Request -> Async E Response) (token chatId message : string)
    (parseMode : option string) (s : State E) :
  (forall request s0, eventsOf (fetch request s0) = []) ->
  let evs := eventsOf (sendTelegramMessage cfg fetch token chatId message parseMode s) in
  fetchCount evs = callCount evs
  /\ (fetchCount evs <= Z.to_nat (maxOperationRetries cfg))%nat.
Proof.
  intros Hquiet evs. subst evs. unfold sendTelegramMessage, withRetry.
  cbn [defaultTo optMaxRetries optBaseDelay optMaxDelay optBackoffMultiplier optOperation].
  set (fn := sendOnce fetch token chatId message (defaultTo parseMode "HTML")).
  assert (Hf : forall s0, fetchCount (eventsOf (fn s0)) = 1%nat).
  { intro s0. subst fn.
    destruct (sendOnce_events fetch token chatId message (defaultTo parseMode "HTML") s0
                (Hquiet _ s0)) as (logged & -> & Hl & _).
    change (Fetch ?r :: logged) with ([Fetch r] ++ logged).
    rewrite fetchCount_app, Hl. reflexivity. }
  assert (Hc : forall s0, callCount (eventsOf (fn s0)) = 0%nat).
  { intro s0. subst fn.
    destruct (sendOnce_events fetch token chatId message (defaultTo parseMode "HTML") s0
                (Hquiet _ s0)) as (logged & -> & _ & Hl).
    change (Fetch ?r :: logged) with ([Fetch r] ++ logged).
    rewrite callCount_app, Hl. reflexivity. }
  split.
  - apply retryLoop_one_fetch_per_call; assumption.
  - rewrite (retryLoop_one_fetch_per_call fn _ _ _ _ _ _ _ _ Hf Hc).
    eapply Nat.le_trans; [apply retryLoop_call_bound; exact Hc|].
    rewrite range_length. lia.
Qed.

Lemma sendTelegramMessage_first_success_witness :
  1 <= maxOperationRetries defaultRetryConfig
  /\ 200 <= status sentResponse <= 299
  /\ outcomeOf (sendTelegramMessage defaultRetryConfig scriptedFetch "TOKEN" "42" "done"
                  None (freshState [sentResponse; badRequest])) = Fulfilled "ok"
  /\ env (stateOf (sendTelegramMessage defaultRetryConfig scriptedFetch "TOKEN" "42" "done"
                     None (freshState [sentResponse; badRequest]))) = [badRequest].
Proof.
  split; [vm_compute; discriminate|].
  split; [split; vm_compute; discriminate|].
  rewrite (sendTelegramMessage_first_success defaultRetryConfig scriptedFetch
             "TOKEN" "42" "done" None (freshState [sentResponse; badRequest])
             (freshState [badRequest]) sentResponse [] "ok").
  - split; reflexivity.
  - vm_compute. discriminate.
  - reflexivity.
  - split; vm_compute; discriminate.
  - reflexivity.
Defined.

Lemma sendTelegramMessage_fetch_bound_witness :
  (forall request s0, eventsOf (scriptedFetch request s0) = [])
  /\ (fetchCount (eventsOf (sendTelegramMessage defaultRetryConfig scriptedFetch
                              "TOKEN" "42" "done" None
                              (freshState [badGateway; badGateway; badGateway; sentResponse])))
       <= 3)%nat.
Proof.
  assert (H : forall request s0, eventsOf (scriptedFetch request s0) = []).
  { intros request s0. unfold scriptedFetch. destruct (env s0); reflexivity. }
  split; [exact H|].
  apply (sendTelegramMessage_fetch_bound defaultRetryConfig scriptedFetch
           "TOKEN" "42" "done" None
           (freshState [badGateway; badGateway; badGateway; sentResponse]) H).
Defined.

Lemma waitForAnySelector_returns_a_candidate_witness :
  outcomeOf (waitForAnySelector (pageShowing ["#user_id"]) [".input-id"; "#user_id"]
               (mkWaitOptions None None) (freshState tt)) = Fulfilled "#user_id"
  /\ In "#user_id" [".input-id"; "#user_id"].
Proof.
  assert (H : outcomeOf (waitForAnySelector (pageShowing ["#user_id"])
                [".input-id"; "#user_id"] (mkWaitOptions None None) (freshState tt))
              = Fulfilled "#user_id") by (vm_compute; reflexivity).
  split; [exact H|].
  apply (waitForAnySelector_returns_a_candidate (pageShowing ["#user_id"])
           [".input-id"; "#user_id"] (mkWaitOptions None None) (freshState tt)
           "#user_id" H).
Defined.

Lemma waitForAnySelector_waits_in_order_witness :
  (forall selector st timeout s0,
     eventsOf (pageShowing ["b"] selector st timeout s0) = [])
  /\ exists n,
       waitsOf (eventsOf (waitForAnySelector (pageShowing ["b"]) ["a"; "b"; "c"]
                            (mkWaitOptions (Some attached) (Some 900)) (freshState tt))) =
       map (fun selector => (selector, attached, 300)) (firstn n ["a"; "b"; "c"]).
Proof.
  assert (H : forall selector st timeout s0,
            eventsOf (pageShowing ["b"] selector st timeout s0) = []).
  { intros selector st timeout s0. unfold pageShowing.
    destruct (existsb (String.eqb selector) ["b"]); reflexivity. }
  split; [exact H|].
  apply (waitForAnySelector_waits_in_order (pageShowing ["b"]) ["a"; "b"; "c"]
           (mkWaitOptions (Some attached) (Some 900)) (freshState tt) H).
Defined.

(** * The failure notification *)

Lemma string_app_assoc (x y z : string) :
  ((x ++ y) ++ z)%string = (x ++ (y ++ z))%string.
Proof. induction x as [|a x IH]; [reflexivity|]. cbn [append]. rewrite IH. reflexivity. Qed.

Lemma replaceAll_app c by_ (x y : string) :
  replaceAll c by_ (x ++ y)%string = (replaceAll c by_ x ++ replaceAll c by_ y)%string.
Proof.
  induction x as [|a x IH]; [reflexivity|].
  cbn [append replaceAll]. rewrite IH. destruct (Ascii.eqb a c).
  - rewrite string_app_assoc. reflexivity.
  - reflexivity.
Qed.

Lemma escapeHtml_one_pass_eq (text : string) : escapeHtml text = escapeEach text.
Proof.
  unfold escapeHtml. induction text as [|a rest IH]; [reflexivity|].
  cbn [replaceAll escapeEach]. unfold escapeChar.
  destruct (Ascii.eqb a "&") eqn:Hamp.
  - rewrite !replaceAll_app, IH. reflexivity.
  - cbn [replaceAll]. destruct (Ascii.eqb a "<") eqn:Hlt.
    + rewrite replaceAll_app, IH. reflexivity.
    + cbn [replaceAll]. destruct (Ascii.eqb a ">") eqn:Hgt.
      * rewrite IH. reflexivity.
      * rewrite IH. reflexivity.
Qed.

Lemma occurs_app c (x y : string) :
  occurs c (x ++ y)%string = occurs c x || occurs c y.
Proof.
  induction x as [|a x IH]; [reflexivity|].
  cbn [append occurs]. rewrite IH, orb_assoc. reflexivity.
Qed.

Lemma escapeEach_no_angle (text : string) :
  occurs "<" (escapeEach text) = false /\ occurs ">" (escapeEach text) = false.
Proof.
  induction text as [|a rest [IHl IHg]]; [split; reflexivity|].
  cbn [escapeEach]. rewrite !occurs_app, IHl, IHg, !orb_false_r.
  unfold escapeChar.
  destruct (Ascii.eqb a "&"); [split; reflexivity|].
  destruct (Ascii.eqb a "<") eqn:Hlt; [split; reflexivity|].
  destruct (Ascii.eqb a ">") eqn:Hgt; [split; reflexivity|].
  cbn [occurs]. rewrite Hlt, Hgt. split; reflexivity.
Qed.

(** X20. The three successive replacements of [escapeHtml] amount to one pass
    that rewrites each character on its own (an ampersand written by the
    first replacement is not touched by the later ones, and a less-than sign
    becomes &lt; and not &amp;lt;), and the result contains neither a
    less-than nor a greater-than sign. *)
Theorem escapeHtml_leaves_no_angle_bracket (text : string) :
  escapeHtml text = escapeEach text
  /\ occurs "<" (escapeHtml text) = false
  /\ occurs ">" (escapeHtml text) = false.
Proof.
  rewrite escapeHtml_one_pass_eq. split; [reflexivity|]. apply escapeEach_no_angle.
Qed.

Lemma escapeChar_cases (a : ascii) :
  (a = "&"%char /\ escapeChar a = "&amp;")
  \/ (a = "<"%char /\ escapeChar a = "&lt;")
  \/ (a = ">"%char /\ escapeChar a = "&gt;")
  \/ (a <> "&"%char /\ escapeChar a = String a EmptyString).
Proof.
  unfold escapeChar.
  destruct (Ascii.eqb a "&") eqn:H1; [apply Ascii.eqb_eq in H1; tauto|].
  destruct (Ascii.eqb a "<") eqn:H2; [apply Ascii.eqb_eq in H2; tauto|].
  destruct (Ascii.eqb a ">") eqn:H3; [apply Ascii.eqb_eq in H3; tauto|].
  apply Ascii.eqb_neq in H1. tauto.
Qed.

Lemma escapeEach_injective (x : string) : forall y,
  escapeEach x = escapeEach y -> x = y.
Proof.
  induction x as [|a x IH]; intros [|b y] H.
  - reflexivity.
  - exfalso. cbn [escapeEach] in H.
    destruct (escapeChar_cases b) as [[_ E] | [[_ E] | [[_ E] | [_ E]]]];
      rewrite E in H; discriminate.
  - exfalso. cbn [escapeEach] in H.
    destruct (escapeChar_cases a) as [[_ E] | [[_ E] | [[_ E] | [_ E]]]];
      rewrite E in H; discriminate.
  - cbn [escapeEach] in H.
    destruct (escapeChar_cases a) as [[Ha Ea] | [[Ha Ea] | [[Ha Ea] | [Ha Ea]]]];
      destruct (escapeChar_cases b) as [[Hb Eb] | [[Hb Eb] | [[Hb Eb] | [Hb Eb]]]];
      rewrite Ea, Eb in H; cbn [append] in H;
      try discriminate;
      try (injection H as H; subst; f_equal; apply IH; exact H);
      try (injection H as Hc H; subst; congruence).
    injection H as Hc H. subst. f_equal. apply IH. exact H.
Qed.

(** X21. [escapeHtml] loses nothing: two texts with the same escaped form are
    the same text. *)
Theorem escapeHtml_injective (x y : string) : escapeHtml x = escapeHtml y -> x = y.
Proof. rewrite !escapeHtml_one_pass_eq. apply escapeEach_injective. Qed.

Lemma uint_digits_no_angle (d : Decimal.uint) :
  occurs "<" (NilEmpty.string_of_uint d) = false
  /\ occurs ">" (NilEmpty.string_of_uint d) = false.
Proof.
  induction d as [|d [IH1 IH2]|d [IH1 IH2]|d [IH1 IH2]|d [IH1 IH2]|d [IH1 IH2]
                  |d [IH1 IH2]|d [IH1 IH2]|d [IH1 IH2]|d [IH1 IH2]|d [IH1 IH2]];
    cbn [NilEmpty.string_of_uint occurs]; rewrite ?IH1, ?IH2; split; reflexivity.
Qed.

Lemma showZ_no_angle (z : Z) :
  occurs "<" (showZ z) = false /\ occurs ">" (showZ z) = false.
Proof.
  unfold showZ, NilZero.string_of_int, NilZero.string_of_uint.
  destruct (Z.to_int z) as [d | d]; destruct d;
    try (split; reflexivity);
    cbn [occurs]; rewrite ?orb_false_l;
    try apply (uint_digits_no_angle (Decimal.D0 d));
    try apply (uint_digits_no_angle (Decimal.D1 d));
    try apply (uint_digits_no_angle (Decimal.D2 d));
    try apply (uint_digits_no_angle (Decimal.D3 d));
    try apply (uint_digits_no_angle (Decimal.D4 d));
    try apply (uint_digits_no_angle (Decimal.D5 d));
    try apply (uint_digits_no_angle (Decimal.D6 d));
    try apply (uint_digits_no_angle (Decimal.D7 d));
    try apply (uint_digits_no_angle (Decimal.D8 d));
    try apply (uint_digits_no_angle (Decimal.D9 d)).
Qed.

(** The failure text contains no less-than and no greater-than sign: the
    message is escaped, and neither the fixed wording, the error code nor the
    retry count contains one. *)
Lemma errorMessageOf_no_angle (error : Caught) (retryCount : Z) :
  occurs "<" (errorMessageOf error retryCount) = false
  /\ occurs ">" (errorMessageOf error retryCount) = false.
Proof.
  assert (Hinfo : forall c, c = "<"%char \/ c = ">"%char ->
            occurs c (if retryCount >? 0
                      then (LF ++ "재시도 횟수: " ++ showZ retryCount
                            ++ "번 (모든 재시도 실패)")%string
                      else ""%string) = false).
  { intros c Hc. destruct (retryCount >? 0); [|reflexivity].
    rewrite !occurs_app.
    destruct (showZ_no_angle retryCount) as [H1 H2].
    destruct Hc as [-> | ->]; rewrite ?H1, ?H2; reflexivity. }
  assert (Hsafe : forall text c, c = "<"%char \/ c = ">"%char ->
            occurs c (escapeHtml text) = false).
  { intros text c Hc. rewrite escapeHtml_one_pass_eq.
    destruct (escapeEach_no_angle text) as [H1 H2].
    destruct Hc as [-> | ->]; assumption. }
  assert (Hcode : forall code c, c = "<"%char \/ c = ">"%char ->
            occurs c (codeText code) = false).
  { intros code c [-> | ->]; destruct code; reflexivity. }
  assert (H : forall c, c = "<"%char \/ c = ">"%char ->
            occurs c (errorMessageOf error retryCount) = false).
  { intros c Hc. unfold errorMessageOf. destruct error as [message code | message |];
      rewrite !occurs_app, ?(Hsafe _ c Hc), ?(Hcode _ c Hc), (Hinfo c Hc);
      destruct Hc as [-> | ->]; reflexivity. }
  split; apply H; [left | right]; reflexivity.
Qed.


Lemma fetchesOf_app (xs ys : list Event) : fetchesOf (xs ++ ys) = fetchesOf xs ++ fetchesOf ys.
Proof.
  induction xs as [|ev xs IH]; [reflexivity|].
  destruct ev; cbn [app fetchesOf]; rewrite IH; reflexivity.
Qed.

Section SameRequest.
Context {E T : Type}.
Variable fn : Async E T.
Variables (maxRetries baseDelay maxDelay backoffMultiplier : Z) (operation : string).
Variable P : Request -> Prop.

Lemma retryLoop_requests attempts : forall lastError s,
  (forall s0, Forall P (fetchesOf (eventsOf (fn s0)))) ->
  Forall P (fetchesOf (eventsOf
    (retryLoop fn maxRetries baseDelay maxDelay backoffMultiplier operation
               attempts lastError s))).
Proof.
  induction attempts as [|attempt later IH]; intros lastError s HP.
  - constructor.
  - pose proof (HP s) as Hs.
    destruct (fn s) as [[[result | error] s1] evs1] eqn:Hfn; cbn [eventsOf snd] in Hs.
    + rewrite (retryLoop_fulfilled _ _ _ _ _ _ _ _ _ _ _ _ _ Hfn).
      cbn [eventsOf snd]. rewrite !fetchesOf_app. cbn [fetchesOf app].
      apply Forall_app. split; [exact Hs|].
      destruct (attempt >? 1); constructor.
    + destruct (Z.eq_dec attempt maxRetries) as [Heq | Hne].
      * rewrite (retryLoop_final _ _ _ _ _ _ _ _ _ _ _ _ _ Hfn Heq).
        cbn [eventsOf snd]. rewrite !fetchesOf_app. cbn [fetchesOf app].
        rewrite app_nil_r. exact Hs.
      * rewrite (retryLoop_retry _ _ _ _ _ _ _ _ _ _ _ _ _ Hfn Hne), eventsOf_prepend.
        rewrite !fetchesOf_app. cbn [fetchesOf app]. rewrite app_nil_r.
        apply Forall_app. split; [exact Hs|]. apply IH. exact HP.
Qed.

End SameRequest.

Lemma sendOnce_request {E} (fetch : Request -> Async E Response)
    (token chatId message parseMode : string) (s : State E) :
  eventsOf (fetch (mkRequest ("https://api.telegram.org/bot" ++ token ++ "/sendMessage")
                             chatId message parseMode) s) = [] ->
  fetchesOf (eventsOf (sendOnce fetch token chatId message parseMode s)) =
    [mkRequest ("https://api.telegram.org/bot" ++ token ++ "/sendMessage")
               chatId message parseMode].
Proof.
  intro Hq. unfold sendOnce, bind at 1, bind at 1, emit at 1.
  destruct (fetch _ s) as [[[response | reason] s1] evs1];
    cbn [eventsOf snd] in Hq; subst evs1.
  - destruct (negb (ok response)).
    + destruct ((status response >=? 400) && (status response <? 500));
        unfold bind, emit, throw; reflexivity.
    + unfold bind, settle, emit, ret, throw. destruct (bodyJson response); reflexivity.
  - reflexivity.
Qed.

(** X22. Every request [handleError] sends to the Telegram API, on the first
    attempt and on each retry, carries the same failure text, free of
    less-than and greater-than signs, with parse mode HTML and the chat id it
    was given. *)
Theorem handleError_sends_no_markup {E} (cfg : RetryConfig)
    (fetch : Request -> Async E Response) (error : Caught) (token chatId : string)
    (retryCount : Z) (s : State E) :
  (forall request s0, eventsOf (fetch request s0) = []) ->
  Forall (fun request =>
            text request = errorMessageOf error retryCount
            /\ parse_mode request = "HTML"
            /\ chat_id request = chatId
            /\ occurs "<" (text request) = false
            /\ occurs ">" (text request) = false)
         (fetchesOf (eventsOf (handleError cfg fetch error token chatId retryCount s))).
Proof.
  intro Hquiet. unfold handleError.
  set (send := sendTelegramMessage cfg fetch token chatId _ None).
  assert (Hsend : Forall (fun request =>
            text request = errorMessageOf error retryCount
            /\ parse_mode request = "HTML"
            /\ chat_id request = chatId
            /\ occurs "<" (text request) = false
            /\ occurs ">" (text request) = false)
         (fetchesOf (eventsOf (send s)))).
  { subst send. unfold sendTelegramMessage, withRetry. apply retryLoop_requests.
    intro s0. rewrite sendOnce_request by apply Hquiet.
    constructor; [|constructor]. cbn [text parse_mode chat_id defaultTo].
    destruct (errorMessageOf_no_angle error retryCount) as [H1 H2].
    repeat split; assumption. }
  unfold bind, ret. destruct (send s) as [[[u | reason] s1] evs1];
    cbn [eventsOf snd] in *; rewrite ?app_nil_r; exact Hsend.
Qed.

Lemma escapeHtml_injective_witness :
  escapeHtml "a<b" = escapeHtml "a<b" /\ "a<b" = "a<b".
Proof.
  split; [reflexivity|].
  apply (escapeHtml_injective "a<b" "a<b"). reflexivity.
Defined.

Lemma handleError_sends_no_markup_witness :
  (forall request s0, eventsOf (scriptedFetch request s0) = [])
  /\ Forall (fun request => occurs "<" (text request) = false)
       (fetchesOf (eventsOf
          (handleError defaultRetryConfig scriptedFetch
             (CaughtError "Unexpected token < in JSON") "TOKEN" "42" 3
             (freshState [badGateway; sentResponse])))).
Proof.
  assert (H : forall request s0, eventsOf (scriptedFetch request s0) = []).
  { intros request s0. unfold scriptedFetch. destruct (env s0); reflexivity. }
  split; [exact H|].
  eapply Forall_impl;
    [|apply (handleError_sends_no_markup defaultRetryConfig scriptedFetch
               (CaughtError "Unexpected token < in JSON") "TOKEN" "42" 3
               (freshState [badGateway; sentResponse]) H)].
  intros request (_ & _ & _ & Hlt & _). exact Hlt.
Defined.

(** * The navigation methods *)

Lemma catch_outcome {E A} (promise : Async E A) (error : JsError) (s : State E) :
  outcomeOf (catch_ promise (fun _ => throw (VError error)) s) =
    match outcomeOf (promise s) with
    | Fulfilled value => Fulfilled value
    | Rejected _ => Rejected (VError error)
    end
  /\ eventsOf (catch_ promise (fun _ => throw (VError error)) s) = eventsOf (promise s)
  /\ stateOf (catch_ promise (fun _ => throw (VError error)) s) = stateOf (promise s).
Proof.
  unfold catch_, bind, try_, ret, throw.
  destruct (promise s) as [[[value | reason] s1] evs1];
    cbn; rewrite app_nil_r; repeat split.
Qed.

(** X23. Whatever made the attempts fail, [navigateToMypage] and
    [navigateToLoginPage] reject with a NavigationError carrying their own
    fixed message (the latter naming the configured number of attempts), and
    with nothing else: the error of the page, the timeout error and the
    error listing the selectors are all replaced. *)
Theorem navigation_failures_are_NavigationErrors {E} (cfg : RetryConfig)
    (urls_login urls_mypage : string) (idInput : list string)
    (page_goto : string -> WaitUntil -> option Z -> Async E unit)
    (page_waitForSelector : string -> WaitState -> Z -> Async E unit) (s : State E) :
  (forall reason,
     outcomeOf (navigateToMypage cfg urls_mypage page_goto s) = Rejected reason ->
     reason = VError (NavigationError "마이페이지 이동 실패"))
  /\ (forall reason,
        outcomeOf (navigateToLoginPage cfg urls_login idInput page_goto
                                       page_waitForSelector s) = Rejected reason ->
        reason = VError (NavigationError
                   ("로그인 페이지로 이동하는데 실패했습니다. ("
                    ++ showZ (maxOperationRetries cfg) ++ "번 재시도)"))).
Proof.
  split; intros reason H.
  - unfold navigateToMypage in H.
    match type of H with
    | outcomeOf (catch_ ?p (fun _ => throw (VError ?e)) s) = _ =>
        destruct (catch_outcome p e s) as (Ho & _)
    end.
    rewrite Ho in H. destruct (outcomeOf _); [discriminate|]. congruence.
  - unfold navigateToLoginPage in H.
    match type of H with
    | outcomeOf (catch_ ?p (fun _ => throw (VError ?e)) s) = _ =>
        destruct (catch_outcome p e s) as (Ho & _)
    end.
    rewrite Ho in H. destruct (outcomeOf _); [discriminate|]. congruence.
Qed.

Lemma navigation_failures_are_NavigationErrors_witness :
  let goto : string -> WaitUntil -> option Z -> Async unit unit :=
    fun _ _ _ => alwaysRejects (VError (mkError "Error" "net::ERR_NAME_NOT_RESOLVED")) in
  outcomeOf (navigateToMypage defaultRetryConfig "https://www.jobkorea.co.kr/User/Mypage"
               goto (freshState tt))
  = Rejected (VError (NavigationError "마이페이지 이동 실패")).
Proof.
  intro goto.
  assert (H : exists reason,
            outcomeOf (navigateToMypage defaultRetryConfig
                         "https://www.jobkorea.co.kr/User/Mypage" goto (freshState tt))
            = Rejected reason) by (eexists; vm_compute; reflexivity).
  destruct H as [reason H]. rewrite H. f_equal.
  apply (proj1 (navigation_failures_are_NavigationErrors defaultRetryConfig
                  "" "https://www.jobkorea.co.kr/User/Mypage" []
                  goto (pageShowing []) (freshState tt)) reason H).
Defined.

(** X24. [navigateToMypage] calls [page.goto] at most [maxOperationRetries]
    times; when it is fulfilled, one of these calls was fulfilled; and with a
    configured number of attempts of zero or less it rejects with its
    NavigationError without having called the page at all. *)
Theorem navigateToMypage_attempts {E} (cfg : RetryConfig) (urls_mypage : string)
    (page_goto : string -> WaitUntil -> option Z -> Async E unit) (s : State E) :
  (forall url waitUntil timeout s0, eventsOf (page_goto url waitUntil timeout s0) = []) ->
  let run := navigateToMypage cfg urls_mypage page_goto s in
  (callCount (eventsOf run) <= Z.to_nat (maxOperationRetries cfg))%nat
  /\ (outcomeOf run = Fulfilled tt ->
      exists s0 s1 evs, page_goto urls_mypage networkidle None s0 = (Fulfilled tt, s1, evs))
  /\ (maxOperationRetries cfg <= 0 ->
      run = (Rejected (VError (NavigationError "마이페이지 이동 실패")), s, [])).
Proof.
  intros Hquiet run. subst run. unfold navigateToMypage.
  set (options := {| optMaxRetries := Some (maxOperationRetries cfg);
                     optBaseDelay := None; optMaxDelay := None;
                     optBackoffMultiplier := None;
                     optOperation := Some "마이페이지 이동" |}).
  set (promise := withRetry cfg (page_goto urls_mypage networkidle None) options).
  destruct (catch_outcome promise (NavigationError "마이페이지 이동 실패") s)
    as (Ho & He & Hs).
  split; [|split].
  - rewrite He. subst promise. unfold withRetry.
    cbn [defaultTo optMaxRetries options].
    eapply Nat.le_trans.
    + apply retryLoop_call_bound. intro s0. rewrite Hquiet. reflexivity.
    + rewrite range_length. lia.
  - intro Hf. rewrite Ho in Hf.
    destruct (Z.le_gt_cases 1 (maxOperationRetries cfg)) as [Hpos | Hneg].
    + assert (Hfrom : fromAction (page_goto urls_mypage networkidle None)
                        (outcomeOf (promise s))).
      { subst promise. unfold withRetry. cbn [defaultTo optMaxRetries options].
        apply (retryLoop_fromAction _ _ _ _ _ _
                 (Z.to_nat (maxOperationRetries cfg - 1))). lia. }
      destruct (outcomeOf (promise s)) as [[] | reason]; [exact Hfrom | discriminate].
    + exfalso. subst promise. unfold withRetry in Hf.
      cbn [defaultTo optMaxRetries options] in Hf.
      rewrite range_empty in Hf by lia. cbn in Hf. discriminate.
  - intro Hle. unfold catch_, bind, try_. subst promise. unfold withRetry.
    cbn [defaultTo optMaxRetries options]. rewrite range_empty by lia. reflexivity.
Qed.

Lemma navigateToMypage_attempts_witness :
  let goto : string -> WaitUntil -> option Z -> Async unit unit :=
    fun _ _ _ => alwaysRejects (VOther "closed") in
  (forall url waitUntil timeout s0, eventsOf (goto url waitUntil timeout s0) = [])
  /\ (callCount (eventsOf (navigateToMypage defaultRetryConfig "/User/Mypage" goto
                             (freshState tt))) <= 3)%nat.
Proof.
  intro goto.
  assert (H : forall url waitUntil timeout s0,
            eventsOf (goto url waitUntil timeout s0) = []) by reflexivity.
  split; [exact H|].
  apply (navigateToMypage_attempts defaultRetryConfig "/User/Mypage" goto
           (freshState tt) H).
Defined.

(** * The logger *)

Lemma lastN_snoc {A} (n : nat) (xs : list A) (x : A) :
  (0 < n)%nat ->
  (let pushed := lastN n xs ++ [x] in
   if Z.of_nat (List.length pushed) >? Z.of_nat n then tl pushed else pushed)
  = lastN n (xs ++ [x]).
Proof.
  intro Hn. cbv zeta. rewrite length_app, lastN_length. cbn [List.length].
  unfold lastN at 3. rewrite length_app. cbn [List.length].
  destruct (Nat.le_gt_cases n (List.length xs)) as [Hge | Hlt].
  - replace (Z.of_nat (Nat.min n (List.length xs) + 1) >? Z.of_nat n) with true
      by (symmetry; rewrite Z.gtb_ltb; apply Z.ltb_lt; lia).
    unfold lastN.
    replace (List.length xs + 1 - n)%nat with (S (List.length xs - n)) by lia.
    rewrite skipn_app.
    replace (S (List.length xs - n) - List.length xs)%nat with 0%nat by lia.
    rewrite <- tl_skipn. change (skipn 0 [x]) with [x].
    destruct (skipn (List.length xs - n) xs) as [|y ys] eqn:Hs.
    + apply (f_equal (@List.length A)) in Hs. rewrite length_skipn in Hs.
      cbn in Hs. lia.
    + reflexivity.
  - replace (Z.of_nat (Nat.min n (List.length xs) + 1) >? Z.of_nat n) with false
      by (symmetry; rewrite Z.gtb_ltb; apply Z.ltb_ge; lia).
    unfold lastN.
    replace (List.length xs - n)%nat with 0%nat by lia.
    replace (List.length xs + 1 - n)%nat with 0%nat by lia.
    reflexivity.
Qed.

Section LoggerFacts.
Context {C : Type}.
Variables (config : LoggingConfig) (applyPatterns : string -> string).
Variables (keyCount : C -> nat) (stringify : C -> string).

Local Abbreviation logged :=
  (filter (fun call : LogCall C => shouldLog config (callLevel call))).

Lemma logAll_snoc history calls call :
  logAll config applyPatterns keyCount stringify history (calls ++ [call]) =
  fst (log config applyPatterns keyCount stringify
           (logAll config applyPatterns keyCount stringify history calls) call).
Proof. unfold logAll. rewrite fold_left_app. reflexivity. Qed.

(** X25. After any sequence of [Logger.log] calls on an empty history, the
    history holds exactly the last 1000 of the entries whose level passed
    the configured level, oldest first; it never holds more than 1000. *)
Theorem history_keeps_the_last_thousand (calls : list (LogCall C)) :
  let history := logAll config applyPatterns keyCount stringify [] calls in
  history = lastN 1000 (map (entryOf config applyPatterns) (logged calls))
  /\ Z.of_nat (List.length history) <= maxHistorySize.
Proof.
  cbv zeta.
  assert (H : logAll config applyPatterns keyCount stringify [] calls =
              lastN 1000 (map (entryOf config applyPatterns) (logged calls))).
  { induction calls as [|call calls IH] using rev_ind; [reflexivity|].
    rewrite logAll_snoc, IH, filter_app, map_app. cbn [filter]. unfold log.
    destruct (shouldLog config (callLevel call)); cbn [negb fst map].
    - unfold addToHistory. fold (entryOf config applyPatterns call).
      apply (lastN_snoc 1000). lia.
    - rewrite app_nil_r. reflexivity. }
  split; [exact H|]. rewrite H, lastN_length. unfold maxHistorySize. lia.
Qed.

(** X26. A [Logger.log] call above the configured level changes nothing and
    prints nothing; a call at or below it prints on the console method of its
    level and appends its entry to the history as the newest one, after the
    oldest entry has been dropped if the history already held 1000; a call at
    error level is never dropped, whatever level is configured. *)
Theorem level_filter (history : list (LogEntry C)) (call : LogCall C) :
  (levelIndex (logLevel config) < levelIndex (callLevel call) ->
   log config applyPatterns keyCount stringify history call = (history, None))
  /\ (levelIndex (callLevel call) <= levelIndex (logLevel config) ->
      exists line,
        snd (log config applyPatterns keyCount stringify history call)
          = Some (callLevel call, line)
        /\ fst (log config applyPatterns keyCount stringify history call)
           = (if Z.of_nat (List.length history) <? maxHistorySize
              then history else tl history)
             ++ [entryOf config applyPatterns call])
  /\ (callLevel call = LevelError ->
      snd (log config applyPatterns keyCount stringify history call) <> None).
Proof.
  unfold log, shouldLog. split; [|split].
  - intro H. apply Z.leb_gt in H. rewrite H. reflexivity.
  - intro H. apply Z.leb_le in H. rewrite H. cbn [negb snd fst].
    eexists. split; [reflexivity|].
    fold (entryOf config applyPatterns call). unfold addToHistory.
    rewrite length_app. cbn [List.length].
    destruct (Z.ltb_spec (Z.of_nat (List.length history)) maxHistorySize) as [Hroom | Hfull].
    + replace (Z.of_nat (List.length history + 1) >? maxHistorySize) with false;
        [reflexivity|].
      symmetry. rewrite Z.gtb_ltb. apply Z.ltb_ge. lia.
    + replace (Z.of_nat (List.length history + 1) >? maxHistorySize) with true.
      * destruct history as [|oldest kept]; [|reflexivity].
        unfold maxHistorySize in Hfull. cbn in Hfull. lia.
      * symmetry. rewrite Z.gtb_ltb. apply Z.ltb_lt. lia.
  - intros ->. destruct (logLevel config); cbn; discriminate.
Qed.

Lemma in_skipn {A} (n : nat) (xs : list A) (x : A) : In x (skipn n xs) -> In x xs.
Proof.
  intro H. rewrite <- (firstn_skipn n xs). apply in_or_app. right. exact H.
Qed.

Lemma sliceLast_positive (limit : Z) (xs : list (LogEntry C)) :
  0 < limit -> sliceLast limit xs = lastN (Z.to_nat limit) xs.
Proof.
  intro H. unfold sliceLast, lastN.
  replace (- limit <? 0) with true by (symmetry; apply Z.ltb_lt; lia).
  f_equal. lia.
Qed.

(** X27. [Logger.getHistory(level, limit)] returns entries of that level
    only: all of them when the limit is absent or 0, the newest [limit] of
    them (never more than [limit]) when it is positive, and all but the
    oldest [-limit] when it is negative. *)
Theorem getHistory_spec (history : list (LogEntry C)) (lvl : LogLevel) (limit : Z) :
  let ofLevel := filter (fun entry => levelEqb (level entry) lvl) history in
  getHistory history (Some lvl) None = ofLevel
  /\ getHistory history (Some lvl) (Some 0) = ofLevel
  /\ (0 < limit ->
      getHistory history (Some lvl) (Some limit) = lastN (Z.to_nat limit) ofLevel
      /\ Z.of_nat (List.length (getHistory history (Some lvl) (Some limit))) <= limit)
  /\ (limit < 0 ->
      getHistory history (Some lvl) (Some limit) = skipn (Z.to_nat (- limit)) ofLevel)
  /\ Forall (fun entry => level entry = lvl) (getHistory history (Some lvl) (Some limit)).
Proof.
  cbv zeta. set (ofLevel := filter _ history).
  assert (Hall : Forall (fun entry : LogEntry C => level entry = lvl) ofLevel).
  { apply Forall_forall. intros entry Hin. apply filter_In in Hin.
    destruct Hin as [_ Heq]. destruct (level entry), lvl; (reflexivity || discriminate). }
  split; [reflexivity|]. split; [reflexivity|]. split; [|split].
  - intro Hpos. unfold getHistory. fold ofLevel.
    replace (limit =? 0) with false by (symmetry; apply Z.eqb_neq; lia).
    rewrite sliceLast_positive by exact Hpos. split; [reflexivity|].
    rewrite lastN_length. lia.
  - intro Hneg. unfold getHistory. fold ofLevel.
    replace (limit =? 0) with false by (symmetry; apply Z.eqb_neq; lia).
    unfold sliceLast.
    replace (- limit <? 0) with false by (symmetry; apply Z.ltb_ge; lia).
    destruct (Z.le_gt_cases (- limit) (Z.of_nat (List.length ofLevel))) as [Hin | Hout].
    + rewrite Z.min_l by exact Hin. reflexivity.
    + rewrite Z.min_r by lia. rewrite Nat2Z.id.
      rewrite skipn_all. rewrite skipn_all2 by lia. reflexivity.
  - unfold getHistory. fold ofLevel.
    destruct (limit =? 0); [exact Hall|].
    unfold sliceLast. apply Forall_forall. intros entry Hin.
    apply (proj1 (Forall_forall _ _) Hall). eapply in_skipn. exact Hin.
Qed.

Lemma codeEqb_eq (a b : ErrorCode) : codeEqb a b = true <-> a = b.
Proof. destruct a, b; cbn; split; (reflexivity || discriminate). Qed.

Lemma countOf_bump (code key : ErrorCode) (byCode : list (ErrorCode * Z)) :
  countOf code (bump key byCode) =
  countOf code byCode + (if codeEqb key code then 1 else 0).
Proof.
  induction byCode as [|[k n] later IH].
  - cbn. destruct (codeEqb key code); reflexivity.
  - cbn [bump]. destruct (codeEqb k key) eqn:Hk.
    + apply codeEqb_eq in Hk. subst k. cbn [countOf].
      destruct (codeEqb key code); lia.
    + cbn [countOf]. destruct (codeEqb k code) eqn:Hc.
      * apply codeEqb_eq in Hc. subst k.
        destruct (codeEqb key code) eqn:Hkc; [|lia].
        apply codeEqb_eq in Hkc. subst key.
        assert (codeEqb code code = true) by (apply codeEqb_eq; reflexivity). congruence.
      * exact IH.
Qed.

(** X28. [Logger.getErrorStats()] counts as [total] the error-level entries
    that carry an error, and under each code the number of those entries
    with that code; no code's count exceeds the total. *)
Theorem errorStats_count_by_code (history : list (LogEntry C)) (code : ErrorCode) :
  let errors :=
    filter (fun entry =>
              levelEqb (level entry) LevelError
              && match error entry with Some _ => true | None => false end) history in
  fst (getErrorStats history) = Z.of_nat (List.length errors)
  /\ countOf code (snd (getErrorStats history)) =
       Z.of_nat (List.length (filter (hasCode code) errors))
  /\ countOf code (snd (getErrorStats history)) <= fst (getErrorStats history).
Proof.
  cbv zeta. unfold getErrorStats. set (errors := filter _ history). cbn [fst snd].
  assert (H : forall acc,
            countOf code (fold_left (fun byCode entry =>
                 match error entry with
                 | Some e =>
                     match eeCode e with
                     | Some c => bump c byCode
                     | None => byCode
                     end
                 | None => byCode
                 end) errors acc) =
            countOf code acc + Z.of_nat (List.length (filter (hasCode code) errors))).
  { induction errors as [|entry rest IH]; intro acc; [cbn; lia|].
    cbn [fold_left filter]. rewrite IH. unfold hasCode at 2.
    destruct (error entry) as [e|]; [destruct (eeCode e) as [c|]|]; try lia.
    rewrite countOf_bump. destruct (codeEqb c code); cbn [List.length]; lia. }
  split; [reflexivity|]. rewrite H. cbn [countOf]. split; [lia|].
  pose proof (filter_length_le (hasCode code) errors). lia.
Qed.

End LoggerFacts.

Lemma level_filter_witness :
  let probe : LogCall unit := debugCall "2025-01-01T00:00:00.000Z" "probing" None None in
  let notice : LogCall unit := infoCall "2025-01-01T00:00:01.000Z" "started" None None in
  let run := log defaultLoggingConfig (fun text => text) (fun _ => 0%nat) (fun _ => "{}") in
  levelIndex (logLevel defaultLoggingConfig) < levelIndex (callLevel probe)
  /\ run [] probe = ([], None)
  /\ levelIndex (callLevel notice) <= levelIndex (logLevel defaultLoggingConfig)
  /\ fst (run [] notice) = [entryOf defaultLoggingConfig (fun text => text) notice].
Proof.
  intros probe notice run.
  pose proof (level_filter defaultLoggingConfig (fun text => text) (fun _ => 0%nat)
                (fun _ => "{}") [] probe) as (Hdrop & _ & _).
  pose proof (level_filter defaultLoggingConfig (fun text => text) (fun _ => 0%nat)
                (fun _ => "{}") [] notice) as (_ & Hkeep & _).
  split; [vm_compute; reflexivity|].
  split; [apply Hdrop; vm_compute; reflexivity|].
  split; [vm_compute; discriminate|].
  destruct Hkeep as (line & _ & Hhistory); [vm_compute; discriminate|].
  subst run. rewrite Hhistory. reflexivity.
Defined.

Lemma getHistory_spec_witness :
  let e1 : LogEntry unit :=
    mkLogEntry "t1" LevelError "first" None None None None in
  let e2 : LogEntry unit :=
    mkLogEntry "t2" LevelInfo "second" None None None None in
  let e3 : LogEntry unit :=
    mkLogEntry "t3" LevelError "third" None None None None in
  0 < 1
  /\ getHistory [e1; e2; e3] (Some LevelError) (Some 1) = [e3].
Proof.
  intros e1 e2 e3. split; [lia|].
  destruct (getHistory_spec [e1; e2; e3] LevelError 1) as (_ & _ & Hpos & _).
  destruct Hpos as [Heq _]; [lia|]. rewrite Heq. reflexivity.
Defined.

(** * The configuration validator *)

Lemma matches_eps (s : JsString) : Matches Eps s <-> s = [].
Proof.
  split; intros H.
  - inversion H; reflexivity.
  - subst s; constructor.
Qed.

Lemma matches_class (p : Z -> bool) (s : JsString) :
  Matches (Class p) s <-> exists u, s = [u] /\ p u = true.
Proof.
  split; intros H.
  - inversion H; subst; eauto.
  - destruct H as (u & -> & H); constructor; exact H.
Qed.

Lemma matches_seq (r1 r2 : Regex) (s : JsString) :
  Matches (Seq r1 r2) s <->
  exists s1 s2, s = s1 ++ s2 /\ Matches r1 s1 /\ Matches r2 s2.
Proof.
  split; intros H.
  - inversion H; subst; eauto.
  - destruct H as (s1 & s2 & -> & H1 & H2); constructor; assumption.
Qed.

Lemma matches_alt (r1 r2 : Regex) (s : JsString) :
  Matches (Alt r1 r2) s <-> Matches r1 s \/ Matches r2 s.
Proof.
  split; intros H.
  - inversion H; subst; auto.
  - destruct H; [apply MAltL | apply MAltR]; assumption.
Qed.

Lemma nullable_matches (r : Regex) : nullable r = true <-> Matches r [].
Proof.
  split.
  - induction r; cbn; intros H; try discriminate.
    + constructor.
    + apply andb_prop in H; destruct H.
      change (@nil Z) with (@nil Z ++ []); constructor; auto.
    + apply orb_prop in H; destruct H; [apply MAltL | apply MAltR]; auto.
    + constructor.
  - intros H; remember (@nil Z) as s eqn:E.
    induction H; cbn; try reflexivity; try discriminate.
    + apply app_eq_nil in E; destruct E; rewrite IHMatches1, IHMatches2; auto.
    + rewrite IHMatches; auto.
    + rewrite IHMatches; auto using orb_true_r.
Qed.

Lemma deriv_sound (u : Z) (r : Regex) :
  forall s, Matches (deriv u r) s -> Matches r (u :: s).
Proof.
  induction r; cbn; intros s H.
  - inversion H.
  - inversion H.
  - destruct (p u) eqn:P; inversion H; subst; constructor; exact P.
  - destruct (nullable r1) eqn:N.
    + apply matches_alt in H; destruct H as [H | H].
      * apply matches_seq in H; destruct H as (s1 & s2 & -> & H1 & H2).
        change (u :: s1 ++ s2) with ((u :: s1) ++ s2); constructor; auto.
      * change (u :: s) with ([] ++ u :: s); constructor; auto.
        apply nullable_matches; exact N.
    + apply matches_seq in H; destruct H as (s1 & s2 & -> & H1 & H2).
      change (u :: s1 ++ s2) with ((u :: s1) ++ s2); constructor; auto.
  - apply matches_alt in H; destruct H; [apply MAltL | apply MAltR]; auto.
  - apply matches_seq in H; destruct H as (s1 & s2 & -> & H1 & H2).
    change (u :: s1 ++ s2) with ((u :: s1) ++ s2); constructor; auto.
Qed.

Lemma deriv_complete (u : Z) (r : Regex) (t : JsString) :
  Matches r t -> forall w, t = u :: w -> Matches (deriv u r) w.
Proof.
  induction 1; intros w E; cbn.
  - discriminate.
  - injection E as -> <-; rewrite H; constructor.
  - destruct s1 as [|v s1]; cbn in E.
    + subst s2.
      apply nullable_matches in H; rewrite H.
      apply MAltR; auto.
    + injection E as -> <-.
      destruct (nullable r1); [apply MAltL |]; constructor; auto.
  - apply MAltL; auto.
  - apply MAltR; auto.
  - discriminate.
  - destruct s1 as [|v s1]; cbn in E.
    + subst s2; apply (IHMatches2 w eq_refl).
    + injection E as -> <-; constructor; auto.
Qed.

Lemma test_matches (r : Regex) (s : JsString) :
  test r s = true <-> Matches r s.
Proof.
  revert r; induction s as [|u s IH]; intros r; cbn.
  - apply nullable_matches.
  - rewrite IH; split.
    + apply deriv_sound.
    + intros H; apply (deriv_complete u r (u :: s) H s eq_refl).
Qed.

Lemma matches_star_class (p : Z -> bool) (s : JsString) :
  Matches (Star (Class p)) s <-> forallb p s = true.
Proof.
  split.
  - intros H; remember (Star (Class p)) as r eqn:E.
    induction H; try discriminate; [reflexivity |].
    injection E as ->.
    apply matches_class in H; destruct H as (u & -> & P).
    cbn; rewrite P; auto.
  - induction s as [|u s IH]; cbn; intros H; [constructor |].
    apply andb_prop in H; destruct H as [P H].
    change (u :: s) with ([u] ++ s); constructor; auto.
    constructor; exact P.
Qed.

Lemma matches_plus_class (p : Z -> bool) (s : JsString) :
  Matches (Plus (Class p)) s <-> s <> [] /\ forallb p s = true.
Proof.
  unfold Plus; rewrite matches_seq; split.
  - intros (s1 & s2 & -> & H1 & H2).
    apply matches_class in H1; destruct H1 as (u & -> & P).
    apply matches_star_class in H2.
    split; [discriminate | cbn; rewrite P; exact H2].
  - intros [N H]; destruct s as [|u s]; [contradiction |].
    cbn in H; apply andb_prop in H; destruct H as [P H].
    exists [u], s; repeat split.
    + constructor; exact P.
    + apply matches_star_class; exact H.
Qed.

Lemma matches_exactly_class (p : Z -> bool) (n : nat) (s : JsString) :
  Matches (Exactly n (Class p)) s <-> List.length s = n /\ forallb p s = true.
Proof.
  revert s; induction n as [|n IH]; intros s; cbn [Exactly].
  - rewrite matches_eps; split.
    + intros ->; split; reflexivity.
    + intros [L _]; destruct s; [reflexivity | discriminate].
  - rewrite matches_seq; split.
    + intros (s1 & s2 & -> & H1 & H2).
      apply matches_class in H1; destruct H1 as (u & -> & P).
      apply IH in H2; destruct H2 as [L H2].
      cbn; rewrite P, L; auto.
    + intros [L H]; destruct s as [|u s]; [discriminate |].
      cbn in H; apply andb_prop in H; destruct H as [P H].
      exists [u], s; repeat split.
      * constructor; exact P.
      * apply IH; split; [cbn in L; lia | exact H].
Qed.

Lemma matches_upTo_class (p : Z -> bool) (n : nat) (s : JsString) :
  Matches (UpTo n (Class p)) s <-> (List.length s <= n)%nat /\ forallb p s = true.
Proof.
  revert s; induction n as [|n IH]; intros s; cbn [UpTo].
  - rewrite matches_eps; split.
    + intros ->; split; [cbn; lia | reflexivity].
    + intros [L _]; destruct s; [reflexivity | cbn in L; lia].
  - unfold Opt; rewrite matches_alt, matches_eps, matches_seq; split.
    + intros [-> | (s1 & s2 & -> & H1 & H2)].
      * split; [cbn; lia | reflexivity].
      * apply matches_class in H1; destruct H1 as (u & -> & P).
        apply IH in H2; destruct H2 as [L H2].
        cbn; rewrite P; split; [lia | exact H2].
    + intros [L H]; destruct s as [|u s]; [left; reflexivity | right].
      cbn in H; apply andb_prop in H; destruct H as [P H].
      exists [u], s; repeat split.
      * constructor; exact P.
      * apply IH; split; [cbn in L; lia | exact H].
Qed.

Lemma forallb_firstn_skipn (p : Z -> bool) (n : nat) (s : JsString) :
  forallb p s = forallb p (firstn n s) && forallb p (skipn n s).
Proof.
  rewrite <- forallb_app, firstn_skipn; reflexivity.
Qed.

Lemma matches_between_class (p : Z -> bool) (lo hi : nat) (s : JsString) :
  (lo <= hi)%nat ->
  Matches (Between lo hi (Class p)) s <->
  (lo <= List.length s <= hi)%nat /\ forallb p s = true.
Proof.
  intros B; unfold Between; rewrite matches_seq; split.
  - intros (s1 & s2 & -> & H1 & H2).
    apply matches_exactly_class in H1; destruct H1 as [L1 P1].
    apply matches_upTo_class in H2; destruct H2 as [L2 P2].
    rewrite length_app, forallb_app, P1, P2; split; [lia | reflexivity].
  - intros [L P].
    rewrite (forallb_firstn_skipn p lo) in P.
    apply andb_prop in P; destruct P as [P1 P2].
    exists (firstn lo s), (skipn lo s); repeat split.
    + symmetry; apply firstn_skipn.
    + apply matches_exactly_class; split; [| exact P1].
      rewrite length_firstn; lia.
    + apply matches_upTo_class; split; [| exact P2].
      rewrite length_skipn; lia.
Qed.

Lemma matches_chr (c : Z) (s : JsString) : Matches (Chr c) s <-> s = [c].
Proof.
  unfold Chr; rewrite matches_class; split.
  - intros (u & -> & E); apply Z.eqb_eq in E; subst; reflexivity.
  - intros ->; exists c; split; [reflexivity | apply Z.eqb_refl].
Qed.

Lemma telegramTokenRegex_shape (token : JsString) :
  test telegramTokenRegex token = true <-> TokenShape token.
Proof.
  rewrite test_matches; unfold telegramTokenRegex, TokenShape.
  rewrite matches_seq; split.
  - intros (digits & s2 & -> & H1 & H2).
    apply matches_plus_class in H1; destruct H1 as [N1 P1].
    apply matches_seq in H2; destruct H2 as (colon & rest & -> & H2 & H3).
    apply matches_chr in H2; subst colon.
    apply matches_plus_class in H3; destruct H3 as [N3 P3].
    exists digits, rest; auto.
  - intros (digits & rest & -> & N1 & P1 & N3 & P3).
    exists digits, ([58] ++ rest); repeat split.
    + apply matches_plus_class; auto.
    + apply matches_seq; exists [58], rest; repeat split.
      * apply matches_chr; reflexivity.
      * apply matches_plus_class; auto.
Qed.

Lemma telegramChatIdRegex_shape (chatId : JsString) :
  test telegramChatIdRegex chatId = true <-> ChatIdShape chatId.
Proof.
  rewrite test_matches; unfold telegramChatIdRegex, ChatIdShape.
  rewrite matches_alt; split.
  - intros [H | H]; [left | right].
    + apply matches_seq in H; destruct H as (sign & digits & -> & H1 & H2).
      apply matches_plus_class in H2; destruct H2 as [N P].
      unfold Opt in H1; apply matches_alt in H1.
      exists digits; repeat split; auto.
      destruct H1 as [H1 | H1].
      * apply matches_eps in H1; subst; left; reflexivity.
      * apply matches_chr in H1; subst; right; reflexivity.
    + apply matches_seq in H; destruct H as (at_ & s2 & -> & H1 & H2).
      apply matches_chr in H1; subst at_.
      apply matches_seq in H2; destruct H2 as (l & name & -> & H2 & H3).
      apply matches_class in H2; destruct H2 as (letter & -> & PL).
      apply matches_between_class in H3; [| lia].
      destruct H3 as [L P].
      exists letter, name; repeat split; auto; lia.
  - intros [(digits & E & N & P) | (letter & name & -> & PL & P & L)]; [left | right].
    + apply matches_seq.
      destruct E as [-> | ->].
      * exists [], digits; repeat split.
        -- apply MAltL; constructor.
        -- apply matches_plus_class; auto.
      * exists [45], digits; repeat split.
        -- apply MAltR; apply matches_chr; reflexivity.
        -- apply matches_plus_class; auto.
    + apply matches_seq; exists [64], (letter :: name); repeat split.
      * apply matches_chr; reflexivity.
      * apply matches_seq; exists [letter], name; repeat split.
        -- constructor; exact PL.
        -- apply matches_between_class; [lia | split; [lia | exact P]].
Qed.

Lemma dropWhile_nil (p : Z -> bool) (s : JsString) :
  dropWhile p s = [] <-> forallb p s = true.
Proof.
  induction s as [|u s IH]; cbn; [tauto |].
  destruct (p u); cbn; [exact IH |].
  split; discriminate.
Qed.

Lemma forallb_dropWhile (p : Z -> bool) (s : JsString) :
  forallb p (dropWhile p s) = forallb p s.
Proof.
  induction s as [|u s IH]; cbn; [reflexivity |].
  destruct (p u) eqn:P; cbn; [exact IH | rewrite P; reflexivity].
Qed.

Lemma forallb_rev (p : Z -> bool) (s : JsString) :
  forallb p (rev s) = forallb p s.
Proof.
  induction s as [|u s IH]; cbn; [reflexivity |].
  rewrite forallb_app, IH; cbn.
  rewrite andb_true_r; apply andb_comm.
Qed.

Lemma isBlank_spec (s : JsString) :
  isBlank s = forallb isWhiteSpace s.
Proof.
  destruct s as [|u s]; [reflexivity |].
  unfold isBlank, jsLength, trim.
  set (t := u :: s).
  rewrite length_rev.
  rewrite <- (forallb_dropWhile isWhiteSpace t), <- forallb_rev.
  destruct (forallb isWhiteSpace (rev (dropWhile isWhiteSpace t))) eqn:F.
  - apply dropWhile_nil in F; rewrite F; reflexivity.
  - destruct (dropWhile isWhiteSpace (rev (dropWhile isWhiteSpace t))) eqn:D.
    + apply dropWhile_nil in D; congruence.
    + cbn [List.length]; apply Z.eqb_neq; lia.
Qed.

Ltac zbool :=
  unfold isWhiteSpace, isDigit, isLetter, isTokenChar, isWordChar, between in *;
  rewrite ?orb_false_iff, ?orb_true_iff, ?andb_false_iff, ?andb_true_iff,
          ?Z.leb_le, ?Z.leb_gt, ?Z.eqb_eq, ?Z.eqb_neq in *;
  lia.

Lemma digit_not_whiteSpace (u : Z) : isDigit u = true -> isWhiteSpace u = false.
Proof. intros H; zbool. Qed.

Lemma not_blank_head (u : Z) (s : JsString) :
  isWhiteSpace u = false -> isBlank (u :: s) = false.
Proof.
  intros H; rewrite isBlank_spec; cbn; rewrite H; reflexivity.
Qed.

Lemma existsb_negb (p : Z -> bool) (s : JsString) :
  existsb (fun u => negb (p u)) s = negb (forallb p s).
Proof.
  induction s as [|u s IH]; cbn; [reflexivity |].
  rewrite IH, negb_andb; reflexivity.
Qed.

Lemma hasWhiteSpace_false (s : JsString) :
  hasWhiteSpace s = false <-> forallb (fun u => negb (isWhiteSpace u)) s = true.
Proof.
  unfold hasWhiteSpace; induction s as [|u s IH]; cbn; [tauto |].
  rewrite orb_false_iff, andb_true_iff, IH, negb_true_iff; tauto.
Qed.

Lemma validateJobKoreaId_accepts (id : JsString) :
  validateJobKoreaId id = [] <->
  3 <= jsLength id <= 50 /\ hasWhiteSpace id = false.
Proof.
  unfold validateJobKoreaId.
  destruct (isBlank id) eqn:B.
  - split; [discriminate |].
    intros [L W]; exfalso.
    destruct id as [|u s]; [cbn in L; lia |].
    cbn in W; apply orb_false_iff in W; destruct W as [W _].
    rewrite (not_blank_head u s W) in B; discriminate.
  - destruct (Z.ltb_spec (jsLength id) 3), (Z.gtb_spec (jsLength id) 50),
      (hasWhiteSpace id); cbn; split; try discriminate; try (intros [? ?]; lia);
      try (intros [_ ?]; discriminate); intros _; split; [lia | reflexivity].
Qed.

Lemma validateJobKoreaPassword_accepts (password : JsString) :
  validateJobKoreaPassword password = [] <->
  4 <= jsLength password <= 100 /\ forallb isWhiteSpace password = false.
Proof.
  unfold validateJobKoreaPassword; rewrite isBlank_spec.
  destruct (forallb isWhiteSpace password).
  - split; [discriminate | intros [_ ?]; discriminate].
  - destruct (Z.ltb_spec (jsLength password) 4),
      (Z.gtb_spec (jsLength password) 100); cbn; split; try discriminate;
      try (intros [? ?]; lia); intros _; split; [lia | reflexivity].
Qed.

Lemma TokenShape_not_blank (token : JsString) :
  TokenShape token -> isBlank token = false.
Proof.
  intros (digits & rest & -> & N & P & _).
  destruct digits as [|d digits]; [contradiction |].
  cbn in P; apply andb_prop in P; destruct P as [P _].
  apply not_blank_head, digit_not_whiteSpace, P.
Qed.

Lemma ChatIdShape_not_blank (chatId : JsString) :
  ChatIdShape chatId -> isBlank chatId = false.
Proof.
  intros [(digits & E & N & P) | (letter & name & -> & _)].
  - destruct digits as [|d digits]; [contradiction |].
    cbn in P; apply andb_prop in P; destruct P as [P _].
    destruct E as [-> | ->]; apply not_blank_head.
    + apply digit_not_whiteSpace, P.
    + reflexivity.
  - apply not_blank_head; reflexivity.
Qed.

Lemma validateTelegramToken_accepts (token : JsString) :
  validateTelegramToken token = [] <->
  20 <= jsLength token <= 100 /\ TokenShape token.
Proof.
  unfold validateTelegramToken.
  destruct (isBlank token) eqn:B.
  - split; [discriminate |].
    intros [_ S]; apply TokenShape_not_blank in S; congruence.
  - rewrite <- telegramTokenRegex_shape.
    destruct (test telegramTokenRegex token),
      (Z.ltb_spec (jsLength token) 20), (Z.gtb_spec (jsLength token) 100);
      cbn; split; try discriminate; try (intros [? ?]; lia);
      try (intros [_ ?]; discriminate); intros _; split; [lia | reflexivity].
Qed.

Lemma validateTelegramChatId_accepts (chatId : JsString) :
  validateTelegramChatId chatId = [] <-> ChatIdShape chatId.
Proof.
  unfold validateTelegramChatId.
  destruct (isBlank chatId) eqn:B.
  - split; [discriminate |].
    intros S; apply ChatIdShape_not_blank in S; congruence.
  - rewrite <- telegramChatIdRegex_shape.
    destruct (test telegramChatIdRegex chatId); cbn; split;
      try discriminate; reflexivity.
Qed.

Lemma no_errors (errors : list string) :
  (Z.of_nat (List.length errors) =? 0) = true <-> errors = [].
Proof.
  destruct errors; cbn [List.length]; split; try reflexivity; discriminate.
Qed.

(** X29. [validateConfig] accepts a configuration exactly when the ID has 3 to
    50 code units none of which is white space, the password has 4 to 100
    code units not all of which are white space, the token has 20 to 100 code
    units of the form digits, colon, token characters, and the chat id is an
    optionally negated digit string or [@], a letter and 4 to 31 word
    characters. *)
Theorem validateConfig_accepts_exactly (config : Config) :
  isValid (validateConfig config) = true <->
  (3 <= jsLength (jobkoreaId config) <= 50
   /\ hasWhiteSpace (jobkoreaId config) = false)
  /\ (4 <= jsLength (jobkoreaPwd config) <= 100
      /\ forallb isWhiteSpace (jobkoreaPwd config) = false)
  /\ (20 <= jsLength (telegramToken config) <= 100
      /\ TokenShape (telegramToken config))
  /\ ChatIdShape (telegramChatId config).
Proof.
  unfold validateConfig; cbn [isValid].
  rewrite no_errors.
  rewrite <- validateJobKoreaId_accepts, <- validateJobKoreaPassword_accepts,
    <- validateTelegramToken_accepts, <- validateTelegramChatId_accepts.
  split.
  - intros H.
    apply app_eq_nil in H; destruct H as [H1 H].
    apply app_eq_nil in H; destruct H as [H2 H].
    apply app_eq_nil in H; destruct H as [H3 H4]; auto.
  - intros (-> & -> & -> & ->); reflexivity.
Qed.

(** X30. The format check implies the presence check: when the four
    variables are set and the configuration read from them passes
    [validateConfig], [validateEnvironmentVariables] passes too. *)
Theorem validateConfig_implies_environment_check
    (env : string -> option JsString) (config : Config) :
  env "JOBKOREA_ID" = Some (jobkoreaId config) ->
  env "JOBKOREA_PWD" = Some (jobkoreaPwd config) ->
  env "TELEGRAM_BOT_TOKEN" = Some (telegramToken config) ->
  env "TELEGRAM_CHAT_ID" = Some (telegramChatId config) ->
  isValid (validateConfig config) = true ->
  validateEnvironmentVariables env = {| isValid := true; errors := [] |}.
Proof.
  intros E1 E2 E3 E4 V.
  unfold validateConfig in V; cbn [isValid] in V.
  apply no_errors in V.
  apply app_eq_nil in V; destruct V as [V1 V].
  apply app_eq_nil in V; destruct V as [V2 V].
  apply app_eq_nil in V; destruct V as [V3 V4].
  unfold validateEnvironmentVariables, requiredVars; cbn [flat_map].
  rewrite E1, E2, E3, E4.
  unfold validateJobKoreaId in V1; unfold validateJobKoreaPassword in V2;
    unfold validateTelegramToken in V3; unfold validateTelegramChatId in V4.
  destruct (jobkoreaId config); [discriminate |].
  destruct (jobkoreaPwd config); [discriminate |].
  destruct (telegramToken config); [discriminate |].
  destruct (telegramChatId config); [discriminate |].
  reflexivity.
Qed.

Lemma validateConfig_accepts_exactly_witness :
  isValid (validateConfig sampleConfig) = true.
Proof.
  apply (validateConfig_accepts_exactly sampleConfig).
  repeat split; try (vm_compute; congruence).
  - exists (units "123456789"), (units "ABCdefGHIjklMNOpqrsTUVwxyz-_").
    repeat split; discriminate.
  - right; exists 106, (units "obkorea_bot").
    repeat split; vm_compute; lia.
Defined.

Lemma validateConfig_implies_environment_check_witness :
  validateEnvironmentVariables sampleEnv = {| isValid := true; errors := [] |}.
Proof.
  apply (validateConfig_implies_environment_check sampleEnv sampleConfig);
    reflexivity.
Defined.
